(** * FastScribe-GUI: the transcription pipeline of [app.py]

    A shallow embedding of [format_timestamp], [get_model],
    [download_youtube_audio], [build_srt] and [transcribe], and the
    properties of the pipeline proved over it.

    Python values are modelled as follows.
    - [str] is a list of Unicode code points ([list N]); literals of the
      source are written [utf8 "..."] and decoded from their UTF-8 bytes.
    - [float] is the primitive binary64 type; [round] goes through the
      exact value [Prim2SF] gives.
    - [int] is [Z]; [//] and [%] with a positive divisor are [Z.div] and
      [Z.modulo] (both floor).
    - An exception is a value of [exn]; a call either returns or raises
      ([result]).  Calls into the operating system, the download tool and
      the speech model are answered by an environment [Env], and every
      such call is recorded in the trace of the [World]. *)

From Stdlib Require Import ZArith NArith String Ascii List Lia.
From Stdlib Require Import Floats.PrimFloat Floats.SpecFloat Floats.FloatOps.
From stdpp Require Import base option list gmap.

Local Open Scope N_scope.

(** ** Python strings *)

Abbreviation str := (list N).

(** Decoding of the UTF-8 bytes of a literal into code points. [need] is the
    number of continuation bytes still expected and [acc] the bits read. *)
Fixpoint utf8_go (bs : list N) (need : nat) (acc : N) : str :=
  match bs with
  | [] => []
  | b :: bs' =>
      match need with
      | O =>
          if b <? 128 then b :: utf8_go bs' 0 0
          else if b <? 224 then utf8_go bs' 1 (b mod 32)
          else if b <? 240 then utf8_go bs' 2 (b mod 16)
          else utf8_go bs' 3 (b mod 8)
      | S n =>
          let acc' := acc * 64 + b mod 64 in
          match n with
          | O => acc' :: utf8_go bs' 0 0
          | S _ => utf8_go bs' n acc'
          end
      end
  end.

Definition utf8 (s : string) : str :=
  utf8_go (map (fun b => N.of_nat (Byte.to_nat b)) (list_byte_of_string s)) 0 0.
Global Arguments utf8 s%_string.

(** The line feed, written ["\n"] in the source. *)
Definition NL : str := [10].

(** [str.isspace] on one code point: the characters CPython's
    [Py_UNICODE_ISSPACE] accepts. *)
Definition isspace (c : N) : bool :=
  ((9 <=? c) && (c <=? 13)) || ((28 <=? c) && (c <=? 32))
  || (c =? 133) || (c =? 160) || (c =? 5760)
  || ((8192 <=? c) && (c <=? 8202))
  || (c =? 8232) || (c =? 8233) || (c =? 8239) || (c =? 8287) || (c =? 12288).

Fixpoint lstrip (s : str) : str :=
  match s with
  | [] => []
  | c :: s' => if isspace c then lstrip s' else s
  end.

Definition rstrip (s : str) : str := rev (lstrip (rev s)).

(** [s.strip()] *)
Definition strip (s : str) : str := rstrip (lstrip s).

(** [sep.join(parts)] *)
Fixpoint join (sep : str) (parts : list str) : str :=
  match parts with
  | [] => []
  | [p] => p
  | p :: ps => p ++ sep ++ join sep ps
  end.

(** [s.endswith(suffix)] *)
Definition endswith (s suffix : str) : bool :=
  bool_decide (drop (length s - length suffix) s = suffix
               ∧ (length suffix <= length s)%nat).

(** ** Python integers as text *)

(** Decimal digits of a natural number, most significant first; [fuel]
    bounds the number of digits. *)
Fixpoint digits_go (fuel : nat) (n : N) (acc : str) : str :=
  match fuel with
  | O => acc
  | S fuel' =>
      let acc' := (48 + n mod 10) :: acc in
      if n / 10 =? 0 then acc' else digits_go fuel' (n / 10) acc'
  end.

Definition digits (n : N) : str := digits_go (S (N.to_nat (N.size n))) n [].

(** [str(i)] for an [int] *)
Definition str_of_int (i : Z) : str :=
  if (i <? 0)%Z then 45 :: digits (Z.abs_N i) else digits (Z.abs_N i).

(** [f"{i:0Wd}"]: sign first, then zeros up to the width, then the digits. *)
Definition format_0d (width : nat) (i : Z) : str :=
  let ds := digits (Z.abs_N i) in
  if (i <? 0)%Z
  then 45 :: replicate (width - 1 - length ds) 48 ++ ds
  else replicate (width - length ds) 48 ++ ds.

(** ** Exceptions *)

Inductive exn_class :=
  | RuntimeError | ValueError | OverflowError | OSError | KeyError | OtherException.

(** An exception instance (a subclass of [Exception]): its class and
    [str(e)]. *)
Record exn := mk_exn { exn_cls : exn_class; exn_msg : str }.

Inductive result (A : Type) :=
  | Ok (a : A)
  | Raise (e : exn).
Global Arguments Ok {A} a.
Global Arguments Raise {A} e.

Global Instance result_ret : MRet result := λ A, Ok.
Global Instance result_bind : MBind result := λ A B f m,
  match m with
  | Ok a => f a
  | Raise e => Raise e
  end.

(** ** Timestamps *)

(** Nearest integer to [m * 2^e] for [m > 0], ties to the even integer. *)
Definition round_half_even (m e : Z) : Z :=
  if (0 <=? e)%Z then (m * 2 ^ e)%Z
  else
    let d := (2 ^ (- e))%Z in
    let q := (m / d)%Z in
    let r := (m mod d)%Z in
    if (2 * r <? d)%Z then q
    else if (d <? 2 * r)%Z then (q + 1)%Z
    else if Z.even q then q else (q + 1)%Z.

(** [round(x)] for a float [x]: an [int], or the exception CPython raises
    for a NaN or an infinity. *)
Definition py_round (x : float) : result Z :=
  match Prim2SF x with
  | S754_nan =>
      Raise (mk_exn ValueError (utf8 "cannot convert float NaN to integer"))
  | S754_infinity _ =>
      Raise (mk_exn OverflowError (utf8 "cannot convert float infinity to integer"))
  | S754_zero _ => Ok 0%Z
  | S754_finite sg m e => Ok (cond_Zopp sg (round_half_even (Zpos m) e))
  end.

(** [format_timestamp(seconds)], app.py lines 30-41. *)
Definition format_timestamp (seconds : option float) : result str :=
  let seconds := match seconds with None => 0%float | Some s => s end in
  ms ← py_round (seconds * 1000)%float;
  let hours := (ms / 3600000)%Z in
  let ms := (ms mod 3600000)%Z in
  let minutes := (ms / 60000)%Z in
  let ms := (ms mod 60000)%Z in
  let secs := (ms / 1000)%Z in
  let ms := (ms mod 1000)%Z in
  Ok (format_0d 2 hours ++ utf8 ":" ++ format_0d 2 minutes ++ utf8 ":"
      ++ format_0d 2 secs ++ utf8 "," ++ format_0d 3 ms).

(** ** Segments and the subtitle text *)

(** A segment as faster-whisper yields it. *)
Record Segment := mk_segment {
  start : option float;
  end_ : option float;
  text : str
}.

(** One turn of the loop of [build_srt]: the block of segment [seg] with
    index [i]. *)
Definition srt_block (i : Z) (seg : Segment) : result str :=
  start_s ← format_timestamp (start seg);
  end_s ← format_timestamp (end_ seg);
  let text_s := strip (text seg) in
  Ok (str_of_int i ++ NL ++ start_s ++ utf8 " --> " ++ end_s ++ NL
      ++ text_s ++ NL).

(** The loop [for i, seg in enumerate(segments, start=1)], from index [i]. *)
Fixpoint srt_blocks (i : Z) (segments : list Segment) : result (list str) :=
  match segments with
  | [] => Ok []
  | seg :: rest =>
      block ← srt_block i seg;
      blocks ← srt_blocks (i + 1) rest;
      Ok (block :: blocks)
  end.

(** [build_srt(segments)], app.py lines 127-138. *)
Definition build_srt (segments : list Segment) : result str :=
  srt_blocks_ ← srt_blocks 1 segments;
  Ok (strip (join NL srt_blocks_) ++ NL).

(** ** The world outside the program *)

(** The cache key of [get_model]: (model name, device, compute type). *)
Abbreviation EngineKey := (str * str * str)%type.

(** A [WhisperModel] instance is identified by the moment it was
    constructed: the number of outside calls made before it. *)
Abbreviation engine := nat (only parsing).

(** What the front end passes as [audio_file], when it is not [None]: a
    path string, or a file object with or without a [name] attribute. *)
Inductive audio_input :=
  | AudioPath (path : str)
  | AudioObj (name : option str).

(** The segment generator [model.transcribe] returns: the segments it
    yields, and the exception that ends the iteration if there is one. *)
Record SegmentStream := mk_stream {
  yielded : list Segment;
  failure : option exn
}.

(** The calls that leave the program. *)
Inductive event :=
  | EvMkdtemp (prefix : str)
  | EvSubprocess (cmd : list str) (cwd : str)
  | EvGlob (pattern : str)
  | EvIsFile (path : str)
  | EvWhisperModel (key : EngineKey)
  | EvModelTranscribe (model : engine) (audio : audio_input) (beam_size : Z)
      (language : option str) (task : str)
  | EvWrite (path : str) (content : str).

(** The answers of the outside world. Each may depend on everything that
    happened before (the trace so far). [subprocess_run] answers with the
    return code and the captured stderr. *)
Record Env := mk_env {
  sys_executable : str;
  os_path_join : str → str → str;
  tempfile_mkdtemp : list event → str → result str;
  subprocess_run : list event → list str → str → result (Z * str);
  glob_glob : list event → str → list str;
  os_path_isfile : list event → str → bool;
  WhisperModel : list event → EngineKey → result unit;
  model_transcribe :
    list event → engine → audio_input → Z → option str → str →
    result SegmentStream;
  write_text : list event → str → str → result unit
}.

(** The state of the process: the module-level [MODEL_CACHE] and the
    calls made so far. *)
Record World := mk_world {
  MODEL_CACHE : gmap EngineKey engine;
  trace : list event
}.

Definition initial_world : World := mk_world ∅ [].

(** Computations that read and change the world and may raise. The world
    an exception leaves behind is kept. *)
Definition M (A : Type) : Type := World → result A * World.

Global Instance M_ret : MRet M := λ A a w, (Ok a, w).
Global Instance M_bind : MBind M := λ A B f m w,
  match m w with
  | (Ok a, w') => f a w'
  | (Raise e, w') => (Raise e, w')
  end.

Definition raise {A} (e : exn) : M A := λ w, (Raise e, w).

Definition lift {A} (r : result A) : M A := λ w, (r, w).

(** The world once the call [ev] has been made. *)
Definition log (ev : event) (w : World) : World :=
  mk_world (MODEL_CACHE w) (trace w ++ [ev]).

(** An outside call: answered from the trace so far, then recorded. *)
Definition call {A} (ev : event) (answer : list event → result A) : M A :=
  λ w, (answer (trace w), log ev w).

(** [try: body / except cls as e: handler e], with [catches] deciding
    whether the exception is an instance of [cls]. *)
Definition try_except {A} (body : M A) (catches : exn → bool)
    (handler : exn → M A) : M A :=
  λ w,
    match body w with
    | (Ok a, w') => (Ok a, w')
    | (Raise e, w') => if catches e then handler e w' else (Raise e, w')
    end.

Definition is_RuntimeError (e : exn) : bool :=
  match exn_cls e with RuntimeError => true | _ => false end.

(** Every [exn] is an instance of [Exception]. *)
Definition is_Exception (e : exn) : bool := true.

(** What [transcribe] returns: the text, the path of the text file and the
    path of the subtitle file. *)
Abbreviation TranscriptionResult := (str * option str * option str)%type.

Section Program.
Context (env : Env).

(** ** The engine cache, app.py lines 44-55 *)

(** [WhisperModel(model_name, device=device, compute_type=compute_type)] *)
Definition new_WhisperModel (key : EngineKey) : M engine :=
  λ w,
    match WhisperModel env (trace w) key with
    | Ok _ => (Ok (length (trace w)), log (EvWhisperModel key) w)
    | Raise e => (Raise e, log (EvWhisperModel key) w)
    end.

(** [MODEL_CACHE[key] = m] *)
Definition cache_setitem (key : EngineKey) (m : engine) : M unit :=
  λ w, (Ok (), mk_world (<[key := m]> (MODEL_CACHE w)) (trace w)).

Definition read_cache : M (gmap EngineKey engine) :=
  λ w, (Ok (MODEL_CACHE w), w).

Definition get_model (model_name device compute_type : str) : M engine :=
  let key := (model_name, device, compute_type) in
  cache ← read_cache;
  match cache !! key with
  | None => m ← new_WhisperModel key; cache_setitem key m
  | Some _ => mret ()
  end;;
  cache ← read_cache;
  match cache !! key with
  | Some m => mret m
  | None => raise (mk_exn KeyError [])
  end.

(** ** The download, app.py lines 58-124 *)

(** The inner function [run_yt_dlp(fmt)]; [tmpdir], [outtmpl] and [url] are
    the variables of the enclosing call. *)
Definition run_yt_dlp (tmpdir outtmpl url fmt : str) : M unit :=
  let cmd := [sys_executable env; utf8 "-m"; utf8 "yt_dlp"; utf8 "-f"; fmt;
              utf8 "-o"; outtmpl; url] in
  proc ← call (EvSubprocess cmd tmpdir) (λ h, subprocess_run env h cmd tmpdir);
  if bool_decide (proc.1 ≠ 0%Z) then
    raise (mk_exn RuntimeError
             (utf8 "yt-dlp 下載失敗 (exit code " ++ str_of_int proc.1
              ++ utf8 "):" ++ NL ++ strip proc.2))
  else mret ().

(** The comprehension of lines 114-117: the paths that do not end in
    [.part] and are regular files, in listing order. *)
Fixpoint completed_files (paths : list str) : M (list str) :=
  match paths with
  | [] => mret []
  | f :: rest =>
      keep ← (if negb (endswith f (utf8 ".part"))
              then call (EvIsFile f) (λ h, Ok (os_path_isfile env h f))
              else mret false);
      files ← completed_files rest;
      mret (if keep : bool then f :: files else files)
  end.

Definition download_youtube_audio (url : str) : M str :=
  tmpdir ← call (EvMkdtemp (utf8 "yt_audio_"))
             (λ h, tempfile_mkdtemp env h (utf8 "yt_audio_"));
  let outtmpl := os_path_join env tmpdir (utf8 "%(title)s.%(ext)s") in
  let errors : list str := [] in
  try_except
    (run_yt_dlp tmpdir outtmpl url (utf8 "bestaudio[ext=m4a]/bestaudio/best"))
    is_RuntimeError
    (λ e,
       let errors := errors ++ [exn_msg e] in
       try_except (run_yt_dlp tmpdir outtmpl url (utf8 "best"))
         is_RuntimeError
         (λ e2,
            let errors := errors ++ [exn_msg e2] in
            raise (mk_exn RuntimeError (join (NL ++ NL) errors))));;
  let pattern := os_path_join env tmpdir (utf8 "*") in
  paths ← call (EvGlob pattern) (λ h, Ok (glob_glob env h pattern));
  files ← completed_files paths;
  match files with
  | [] => raise (mk_exn RuntimeError (utf8 "yt-dlp 回傳成功但沒有找到下載後的檔案。"))
  | audio_path :: _ => mret audio_path
  end.

(** ** The top-level operation, app.py lines 143-213 *)

(** [getattr(audio_file, "name", None) or audio_file] *)
Definition name_or_self (audio_file : audio_input) : audio_input :=
  match audio_file with
  | AudioPath _ => audio_file
  | AudioObj None => audio_file
  | AudioObj (Some name) =>
      match name with
      | [] => audio_file
      | _ :: _ => AudioPath name
      end
  end.

(** The loop of lines 193-197 over the generator: each segment's stripped
    text and the segment itself are collected; an exception of the
    generator leaves the loop. *)
Definition collect_segments (segments : SegmentStream)
  : M (list str * list Segment) :=
  let lines := map (λ seg, strip (text seg)) (yielded segments) in
  let seg_list := yielded segments in
  match failure segments with
  | Some e => raise e
  | None => mret (lines, seg_list)
  end.

(** Lines 173-213: what [transcribe] does once [audio_path] is bound. A
    [return] inside an [except] clause is the [inr] of the guarded step;
    [inl] goes on with the value the [try] block bound. *)
Definition transcribe_audio_path (audio_path : audio_input)
    (model_name device compute_type language task : str) (beam_size : Z)
  : M TranscriptionResult :=
  try_except
    (model ← get_model model_name device compute_type; mret (inl model))
    is_Exception
    (λ e, mret (inr (utf8 "載入模型失敗：" ++ exn_msg e, None, None)))
  ≫= λ loaded,
  match loaded with
  | inr early => mret early
  | inl model =>
      let lang_arg :=
        if bool_decide (language = utf8 "auto") then None else Some language in
      try_except
        (segments ← call
           (EvModelTranscribe model audio_path beam_size lang_arg task)
           (λ h, model_transcribe env h model audio_path beam_size lang_arg task);
         mret (inl segments))
        is_Exception
        (λ e, mret (inr (utf8 "轉錄過程發生錯誤：" ++ exn_msg e, None, None)))
      ≫= λ inferred,
      match inferred with
      | inr early => mret early
      | inl segments =>
          '(lines, seg_list) ← collect_segments segments;
          let transcript_text := strip (join NL lines) in
          srt_text ← lift (build_srt seg_list);
          out_dir ← call (EvMkdtemp (utf8 "transcript_"))
                      (λ h, tempfile_mkdtemp env h (utf8 "transcript_"));
          let txt_path := os_path_join env out_dir (utf8 "transcript.txt") in
          let srt_path := os_path_join env out_dir (utf8 "subtitles.srt") in
          call (EvWrite txt_path transcript_text)
            (λ h, write_text env h txt_path transcript_text);;
          call (EvWrite srt_path srt_text)
            (λ h, write_text env h srt_path srt_text);;
          mret (transcript_text, Some txt_path, Some srt_path)
      end
  end.

Definition transcribe (audio_file : option audio_input)
    (youtube_url model_name device compute_type language task : str)
    (beam_size : Z) : M TranscriptionResult :=
  if bool_decide (audio_file = None) && bool_decide (strip youtube_url = [])
  then mret (utf8 "請先上傳檔案或輸入 YouTube 連結。", None, None)
  else
    match audio_file with
    | Some file =>
        transcribe_audio_path (name_or_self file)
          model_name device compute_type language task beam_size
    | None =>
        try_except
          (path ← download_youtube_audio (strip youtube_url); mret (inl path))
          is_Exception
          (λ e, mret (inr (utf8 "YouTube 下載失敗：" ++ NL ++ exn_msg e, None, None)))
        ≫= λ downloaded,
        match downloaded with
        | inr early => mret early
        | inl path =>
            transcribe_audio_path (AudioPath path)
              model_name device compute_type language task beam_size
        end
    end.

End Program.

(** ** A concrete environment for examples *)

(** [os.path.join] on a POSIX system, for two components. *)
Definition posix_join (a b : str) : str :=
  match b with
  | 47 :: _ => b
  | _ =>
      match last a with
      | None => b
      | Some 47 => a ++ b
      | Some _ => a ++ utf8 "/" ++ b
      end
  end.

(** An environment with scripted answers: the download tool answers
    [tier1] to the audio-only format and [tier2] to any other, the
    download directory lists [listing] (all regular files), the model
    constructor answers [ctor], inference answers [infer] and writing a file
    answers [written]. Temporary directories are numbered by the moment of
    their creation. *)
Definition scripted_env (tier1 tier2 : Z * str) (listing : list str)
    (ctor : result unit) (infer : result SegmentStream)
    (written : result unit) : Env :=
  {| sys_executable := utf8 "/usr/bin/python3";
     os_path_join := posix_join;
     tempfile_mkdtemp := λ h prefix,
       Ok (utf8 "/tmp/" ++ prefix ++ digits (N.of_nat (length h)));
     subprocess_run := λ h cmd cwd,
       if bool_decide (cmd !! 4%nat = Some (utf8 "bestaudio[ext=m4a]/bestaudio/best"))
       then Ok tier1 else Ok tier2;
     glob_glob := λ h pattern, listing;
     os_path_isfile := λ h path, true;
     WhisperModel := λ h key, ctor;
     model_transcribe := λ h model audio beam_size language task, infer;
     write_text := λ h path content, written |}.

(** The float nearest to 3661.5005. *)
Definition seconds_3661_5005 : float := 0x1.c9b004189374cp+11%float.

Definition hello_world : SegmentStream :=
  mk_stream [mk_segment (Some 0%float) (Some 0x1.3333333333333p+0%float) (utf8 " hello");
             mk_segment (Some 0x1.3333333333333p+0%float) (Some 2.5%float) (utf8 " world")]
            None.

(** The download tool refuses the audio-only format, then reports success
    for [best], but leaves no file in the directory. *)
Definition env_no_file : Env :=
  scripted_env (1%Z, utf8 "ERROR: HTTP Error 403: Forbidden") (0%Z, []) []
    (Ok ()) (Ok hello_world) (Ok ()).

(** Both attempts of the download tool fail. *)
Definition env_both_fail : Env :=
  scripted_env (1%Z, utf8 "ERROR: HTTP Error 403: Forbidden ")
    (1%Z, utf8 "ERROR: Video unavailable") []
    (Ok ()) (Ok hello_world) (Ok ()).

(** The audio-only attempt fails, the second leaves a finished file and a
    partial one. *)
Definition env_second_tier : Env :=
  scripted_env (1%Z, utf8 "ERROR: HTTP Error 403: Forbidden") (0%Z, [])
    [utf8 "/tmp/yt_audio_0/talk.mp4.part"; utf8 "/tmp/yt_audio_0/talk.mp4"]
    (Ok ()) (Ok hello_world) (Ok ()).

Definition some_url : str := utf8 "https://youtu.be/dQw4w9WgXcQ".

(** Everything works, and the recording is silent: the model yields no
    segment. *)
Definition env_silence : Env :=
  scripted_env (0%Z, []) (0%Z, []) [] (Ok ()) (Ok (mk_stream [] None)) (Ok ()).

(** Everything works until the files are written: the disk is full. *)
Definition env_disk_full : Env :=
  scripted_env (0%Z, []) (0%Z, []) [] (Ok ()) (Ok hello_world)
    (Raise (mk_exn OSError (utf8 "[Errno 28] No space left on device"))).

(** Everything works. *)
Definition env_fine : Env :=
  scripted_env (0%Z, []) (0%Z, []) [utf8 "/tmp/yt_audio_0/talk.m4a"]
    (Ok ()) (Ok hello_world) (Ok ()).

(** The model cannot be constructed. *)
Definition env_no_model : Env :=
  scripted_env (0%Z, []) (0%Z, []) []
    (Raise (mk_exn ValueError (utf8 "unsupported device cuda")))
    (Ok hello_world) (Ok ()).

(** A request on a local file with the defaults of the form. *)
Definition transcribe_file (env : Env) (path youtube_url : str)
  : M TranscriptionResult :=
  transcribe env (Some (AudioPath path)) youtube_url (utf8 "small")
    (utf8 "cuda") (utf8 "float16") (utf8 "auto") (utf8 "transcribe") 5%Z.

(** ** Notions used to state the properties *)

Definition is_digit (c : N) : bool := (48 <=? c) && (c <=? 57).

(** The number a string of decimal digits denotes. *)
Definition decimal_value (s : str) : N :=
  fold_left (λ acc c, acc * 10 + (c - 48)) s 0.

(** The exact value of a finite float, as [(m, e)] for [m * 2^e]. *)
Definition exact_value (x : float) : option (Z * Z) :=
  match Prim2SF x with
  | S754_zero _ => Some (0%Z, 0%Z)
  | S754_finite sg m e => Some (cond_Zopp sg (Zpos m), e)
  | S754_nan | S754_infinity _ => None
  end.

(** [ms] is an integer nearest to [m * 2^e], and the even one of the two
    when [m * 2^e] lies halfway between two integers. With
    [d = 2^max(0,-e)] and [n = m * 2^max(0,e)] the value is [n / d]. *)
Definition nearest_ties_even (ms m e : Z) : Prop :=
  let d := (2 ^ Z.max 0 (- e))%Z in
  let n := (m * 2 ^ Z.max 0 e)%Z in
  (2 * Z.abs (ms * d - n) <= d)%Z
  ∧ ((2 * Z.abs (ms * d - n) = d)%Z → Z.even ms = true).

(** A timestamp whose product with 1000 is finite and not negative, as the
    start and end of a segment are. *)
Definition nonneg_finite (t : option float) : bool :=
  match exact_value (default 0%float t * 1000) with
  | Some (m, _) => (0 <=? m)%Z
  | None => false
  end.

Definition well_timed (seg : Segment) : bool :=
  nonneg_finite (start seg) && nonneg_finite (end_ seg).

(** The shape [HH:MM:SS,mmm], with two or more digits of hours. *)
Definition is_timestamp (s : str) : Prop :=
  ∃ hh mm ss mmm : str,
    s = hh ++ utf8 ":" ++ mm ++ utf8 ":" ++ ss ++ utf8 "," ++ mmm
    ∧ Forall (λ c, is_digit c = true) (hh ++ mm ++ ss ++ mmm)
    ∧ (2 <= length hh)%nat ∧ length mm = 2%nat ∧ length ss = 2%nat
    ∧ length mmm = 3%nat.

(** A subtitle entry without its closing line feed: the number, the time
    line and the trimmed text. *)
Definition srt_entry (number : Z) (start_s end_s : str) (seg : Segment) : str :=
  str_of_int number ++ NL ++ start_s ++ utf8 " --> " ++ end_s ++ NL
  ++ strip (text seg).

(** Every cached engine was constructed, for its key, by an earlier call:
    the engine is the position of that call in the trace. This holds of
    the initial world and is kept by every operation of the program. *)
Definition cache_wf (w : World) : Prop :=
  ∀ (key : EngineKey) (m : engine),
    MODEL_CACHE w !! key = Some m →
    trace w !! m = Some (EvWhisperModel key).

(** The later world has the calls of the earlier one, then calls that all
    satisfy [P]. *)
Definition grows_by (P : event → Prop) (w w' : World) : Prop :=
  ∃ new, trace w' = trace w ++ new ∧ Forall P new.

(** [m] relates the world it starts in to the world it leaves by [R]. *)
Definition respects {A} (R : World → World → Prop) (m : M A) : Prop :=
  ∀ w r w', m w = (r, w') → R w w'.

Definition keeps_cache_wf (w w' : World) : Prop := cache_wf w → cache_wf w'.

(** The command line of [run_yt_dlp] and the message of its exception. *)
Definition yt_dlp_cmd (env : Env) (fmt outtmpl url : str) : list str :=
  [sys_executable env; utf8 "-m"; utf8 "yt_dlp"; utf8 "-f"; fmt;
   utf8 "-o"; outtmpl; url].

Definition yt_dlp_diagnostic (returncode : Z) (stderr : str) : str :=
  utf8 "yt-dlp 下載失敗 (exit code " ++ str_of_int returncode
  ++ utf8 "):" ++ NL ++ strip stderr.

Definition no_file_error : exn :=
  mk_exn RuntimeError (utf8 "yt-dlp 回傳成功但沒有找到下載後的檔案。").

(** The calls of [os.path.isfile] the comprehension of lines 114-117 makes
    over [paths]: one for each path that does not end in [.part], in
    listing order. *)
Definition isfile_checks (paths : list str) : list event :=
  map EvIsFile (List.filter (λ f, negb (endswith f (utf8 ".part"))) paths).

(** The path [f], listed after the paths [before], is a finished download:
    it does not end in [.part] and is a regular file at the moment the
    comprehension comes to it. [h] is the history when the comprehension
    starts, just after the listing. *)
Definition finished (env : Env) (h : list event) (before : list str)
    (f : str) : bool :=
  negb (endswith f (utf8 ".part"))
  && os_path_isfile env (h ++ isfile_checks before) f.

(** [chosen] is the first finished path of [listing]: every path listed
    before it is not finished; [None] when no listed path is finished. *)
Definition first_finished (env : Env) (h : list event) (listing : list str)
    (chosen : option str) : Prop :=
  match chosen with
  | Some audio_path =>
      ∃ before after,
        listing = before ++ audio_path :: after
        ∧ finished env h before audio_path = true
        ∧ ∀ earlier f later,
            before = earlier ++ f :: later → finished env h earlier f = false
  | None =>
      ∀ earlier f later,
        listing = earlier ++ f :: later → finished env h earlier f = false
  end.

(** The second attempt of the download tool leaves, in this order, a
    partial file, a directory and two finished files. *)
Definition env_with_directory : Env :=
  {| sys_executable := utf8 "/usr/bin/python3";
     os_path_join := posix_join;
     tempfile_mkdtemp := λ h prefix,
       Ok (utf8 "/tmp/" ++ prefix ++ digits (N.of_nat (length h)));
     subprocess_run := λ h cmd cwd,
       if bool_decide (cmd !! 4%nat = Some (utf8 "bestaudio[ext=m4a]/bestaudio/best"))
       then Ok (1%Z, utf8 "ERROR: HTTP Error 403: Forbidden") else Ok (0%Z, []);
     glob_glob := λ h pattern,
       [utf8 "/tmp/yt_audio_0/talk.mp4.part"; utf8 "/tmp/yt_audio_0/thumbs";
        utf8 "/tmp/yt_audio_0/talk.mp4"; utf8 "/tmp/yt_audio_0/talk.webm"];
     os_path_isfile := λ h path,
       bool_decide (path ≠ utf8 "/tmp/yt_audio_0/thumbs");
     WhisperModel := λ h key, Ok ();
     model_transcribe := λ h model audio beam_size language task,
       Ok hello_world;
     write_text := λ h path content, Ok () |}.

(** The calls only [download_youtube_audio] makes: its temporary
    directory, the download tool, the listing of the directory and the
    check that a listed path is a regular file. *)
Definition is_download_event (ev : event) : bool :=
  match ev with
  | EvMkdtemp prefix => bool_decide (prefix = utf8 "yt_audio_")
  | EvSubprocess _ _ | EvGlob _ | EvIsFile _ => true
  | EvWhisperModel _ | EvModelTranscribe _ _ _ _ _ | EvWrite _ _ => false
  end.

(** The language passed to the model: none for ["auto"]. *)
Definition language_argument (language : str) : option str :=
  if bool_decide (language = utf8 "auto") then None else Some language.

(** The calls [transcribe] may make once the audio path is [audio_path]:
    no download call, and inference on [audio_path] only. *)
Definition is_pipeline_event (audio_path : audio_input) (ev : event) : Prop :=
  is_download_event ev = false
  ∧ ∀ model audio beam_size language task,
      ev = EvModelTranscribe model audio beam_size language task →
      audio = audio_path.

(** How [transcribe] comes to its audio path in world [w]: from the file,
    or by a download that returns. *)
Definition source_resolved (env : Env) (audio_file : option audio_input)
    (youtube_url : str) (w : World) (audio_path : audio_input) (w1 : World)
  : Prop :=
  match audio_file with
  | Some file => audio_path = name_or_self file ∧ w1 = w
  | None =>
      strip youtube_url ≠ []
      ∧ ∃ path,
          download_youtube_audio env (strip youtube_url) w = (Ok path, w1)
          ∧ audio_path = AudioPath path
  end.


(** The invariant the specification states for a result: both paths and a
    non-empty text, or no path. *)
Definition success_or_failure (r : TranscriptionResult) : Prop :=
  let '(transcript_text, txt_path, srt_path) := r in
  (is_Some txt_path ∧ is_Some srt_path ∧ transcript_text ≠ [])
  ∨ (txt_path = None ∧ srt_path = None).

Definition is_construction (ev : event) : bool :=
  match ev with
  | EvWhisperModel _ => true
  | _ => false
  end.

(** ** Further notions *)

(** The integer a sign and decimal digits denote. *)
Definition signed_value (s : str) : Z :=
  match s with
  | 45 :: digits => (- Z.of_N (decimal_value digits))%Z
  | _ => Z.of_N (decimal_value s)
  end.

Definition is_Ok {A} (r : result A) : bool :=
  match r with
  | Ok _ => true
  | Raise _ => false
  end.

(** Both times of the segment can be rendered. *)
Definition stamps_ok (seg : Segment) : bool :=
  is_Ok (format_timestamp (start seg)) && is_Ok (format_timestamp (end_ seg)).

(** The product [seconds * 1000] of line 34 is a number, zero or finite,
    so that [round] returns. *)
Definition roundable (t : option float) : bool :=
  match exact_value (default 0%float t * 1000) with
  | Some _ => true
  | None => false
  end.

(** The exception [round] raises on the product of line 34, if any. *)
Definition round_error (t : option float) : option exn :=
  match py_round (default 0%float t * 1000) with
  | Ok _ => None
  | Raise e => Some e
  end.

(** The segment with its text already trimmed. *)
Definition trimmed (seg : Segment) : Segment :=
  mk_segment (start seg) (end_ seg) (strip (text seg)).

(** A text of white space only (or empty). *)
Definition blank (s : str) : bool := forallb isspace s.

(** From [w] to [w'] the cache is kept as it is, or gains an entry for
    [key], which it did not have. *)
Definition cache_step (key : EngineKey) (w w' : World) : Prop :=
  MODEL_CACHE w' = MODEL_CACHE w
  ∨ (MODEL_CACHE w !! key = None
     ∧ ∃ m : engine, MODEL_CACHE w' = <[key := m]> (MODEL_CACHE w)).

(** The calls that create the result files: their directory and the two
    writes. *)
Definition is_artifact_event (ev : event) : bool :=
  match ev with
  | EvWrite _ _ => true
  | EvMkdtemp prefix => bool_decide (prefix = utf8 "transcript_")
  | _ => false
  end.

Definition is_subprocess (ev : event) : bool :=
  match ev with
  | EvSubprocess _ _ => true
  | _ => false
  end.

(** The download tool cannot be started. *)
Definition env_no_tool : Env :=
  {| sys_executable := utf8 "/usr/bin/python3";
     os_path_join := posix_join;
     tempfile_mkdtemp := λ h prefix,
       Ok (utf8 "/tmp/" ++ prefix ++ digits (N.of_nat (length h)));
     subprocess_run := λ h cmd cwd,
       Raise (mk_exn OSError (utf8 "[Errno 2] No such file or directory"));
     glob_glob := λ h pattern, [];
     os_path_isfile := λ h path, true;
     WhisperModel := λ h key, Ok ();
     model_transcribe := λ h model audio beam_size language task,
       Ok hello_world;
     write_text := λ h path content, Ok () |}.

(** ** The form, app.py lines 15-25 and 299-312 *)

Definition MODEL_OPTIONS : list str :=
  [utf8 "tiny"; utf8 "base"; utf8 "small"; utf8 "medium"; utf8 "large-v2";
   utf8 "large-v3"].

Definition DEVICE_OPTIONS : list str := [utf8 "cpu"; utf8 "cuda"].

Definition COMPUTE_TYPE_OPTIONS : list str :=
  [utf8 "float16"; utf8 "int8_float16"; utf8 "int8"].

(** The values of the eight inputs of the form at a click. *)
Record Request := mk_request {
  req_audio_file : option audio_input;
  req_youtube_url : str;
  req_model_name : str;
  req_device : str;
  req_compute_type : str;
  req_language : str;
  req_task : str;
  req_beam_size : Z
}.

(** [run_button.click(fn=transcribe, inputs=[...], ...)]: a click calls
    [transcribe] on the values of the inputs. *)
Definition run_button_click (env : Env) (req : Request)
  : M TranscriptionResult :=
  transcribe env (req_audio_file req) (req_youtube_url req)
    (req_model_name req) (req_device req) (req_compute_type req)
    (req_language req) (req_task req) (req_beam_size req).

(** The clicks of a session, one after the other in one process: each
    starts in the world the one before left, also when that one raised. *)
Fixpoint session (env : Env) (requests : list Request) (w : World)
  : list (result TranscriptionResult) * World :=
  match requests with
  | [] => ([], w)
  | req :: rest =>
      let (r, w1) := run_button_click env req w in
      let (rs, w') := session env rest w1 in
      (r :: rs, w')
  end.

(** The model, device and compute type come from the three dropdowns. *)
Definition from_form (req : Request) : Prop :=
  req_model_name req ∈ MODEL_OPTIONS
  ∧ req_device req ∈ DEVICE_OPTIONS
  ∧ req_compute_type req ∈ COMPUTE_TYPE_OPTIONS.

(** The keys the form can ask for. *)
Definition form_keys : list EngineKey :=
  model_name ← MODEL_OPTIONS;
  device ← DEVICE_OPTIONS;
  compute_type ← COMPUTE_TYPE_OPTIONS;
  [(model_name, device, compute_type)].

(** The cache holds engines for keys of the form only. *)
Definition cache_of_form (w : World) : Prop :=
  ∀ key, is_Some (MODEL_CACHE w !! key) → key ∈ form_keys.

(** From [w] to [w'] the engine [m] cached for [key], if there is one, stays
    and is not constructed again. *)
Definition engine_stays (key : EngineKey) (m : engine) (w w' : World) : Prop :=
  MODEL_CACHE w !! key = Some m →
  MODEL_CACHE w' !! key = Some m
  ∧ grows_by (λ ev, ev ≠ EvWhisperModel key) w w'.

(** Three requests from the form: two for the same engine, one for another. *)
Definition three_requests : list Request :=
  [mk_request (Some (AudioPath (utf8 "talk.wav"))) [] (utf8 "small")
     (utf8 "cuda") (utf8 "float16") (utf8 "auto") (utf8 "transcribe") 5%Z;
   mk_request (Some (AudioPath (utf8 "talk.wav"))) [] (utf8 "tiny")
     (utf8 "cpu") (utf8 "int8") (utf8 "en") (utf8 "translate") 1%Z;
   mk_request None some_url (utf8 "small")
     (utf8 "cuda") (utf8 "float16") (utf8 "auto") (utf8 "transcribe") 5%Z].

Definition is_inference (ev : event) : bool :=
  match ev with
  | EvModelTranscribe _ _ _ _ _ => true
  | _ => false
  end.

(** * Properties *)

(** Literals are compared as written; they are decoded by [vm_compute]
    where their code points matter. *)
Global Opaque utf8.

(** ** Decimal text *)

(** [lia] knows nothing of [N.modulo] and [N.div]: quotient and remainder
    are named and their defining facts kept. *)
Lemma N_div_mod_10 (n : N) :
  n = 10 * (n / 10) + n mod 10 ∧ n mod 10 < 10.
Proof. split; [apply N.div_mod; lia|apply N.mod_upper_bound; lia]. Qed.

Lemma decimal_value_snoc (s : str) (c : N) :
  decimal_value (s ++ [c]) = decimal_value s * 10 + (c - 48).
Proof. unfold decimal_value. rewrite fold_left_app. reflexivity. Qed.

Lemma is_digit_mod10 (n : N) : is_digit (48 + n mod 10) = true.
Proof.
  assert (n mod 10 < 10) by (apply N.mod_upper_bound; lia).
  unfold is_digit. apply andb_true_iff.
  generalize dependent (n mod 10). intros r Hr. split; apply N.leb_le; lia.
Qed.

Lemma digits_go_S (fuel : nat) (n : N) (acc : str) :
  digits_go (S fuel) n acc
  = if n / 10 =? 0 then (48 + n mod 10) :: acc
    else digits_go fuel (n / 10) ((48 + n mod 10) :: acc).
Proof. reflexivity. Qed.

(** What [digits_go] puts in front of its accumulator. *)
Lemma digits_go_spec (fuel : nat) :
  ∀ (n : N) (acc : str),
    n < 2 ^ N.of_nat fuel →
    ∃ ds, digits_go (S fuel) n acc = ds ++ acc
          ∧ Forall (λ c, is_digit c = true) ds
          ∧ decimal_value ds = n
          ∧ n < 10 ^ N.of_nat (length ds)
          ∧ (1 <= length ds)%nat
          ∧ (n ≠ 0 → 10 ^ N.of_nat (length ds - 1) <= n).
Proof.
  induction fuel as [|fuel IH]; intros n acc Hn.
  - assert (n = 0) as -> by (simpl in Hn; lia).
    exists [48]. split; [reflexivity|]. split; [repeat constructor|].
    split; [reflexivity|]. simpl. repeat split; lia.
  - rewrite digits_go_S.
    destruct (N_div_mod_10 n) as [Hdm Hmod].
    remember (n mod 10) as r eqn:Er. remember (n / 10) as q eqn:Eq.
    clear Er Eq.
    assert (is_digit (48 + r) = true) as Hr.
    { unfold is_digit. apply andb_true_iff. split; apply N.leb_le; lia. }
    destruct (N.eqb_spec q 0) as [Hq|Hq].
    + exists [48 + r]. split; [reflexivity|].
      split; [repeat constructor; exact Hr|].
      split; [unfold decimal_value; simpl; lia|].
      simpl. repeat split; lia.
    + assert (q < 2 ^ N.of_nat fuel) as Hlt.
      { rewrite Nat2N.inj_succ, N.pow_succ_r' in Hn. lia. }
      destruct (IH q ((48 + r) :: acc) Hlt)
        as (ds & Heq & Hdig & Hval & Hub & Hlen & Hlb).
      specialize (Hlb Hq).
      exists (ds ++ [48 + r]).
      split; [rewrite Heq, <- app_assoc; reflexivity|].
      split; [apply Forall_app; split; [exact Hdig|repeat constructor; exact Hr]|].
      split; [rewrite decimal_value_snoc, Hval; lia|].
      rewrite length_app. simpl.
      replace (N.of_nat (length ds + 1)) with (N.succ (N.of_nat (length ds))) by lia.
      replace (length ds + 1 - 1)%nat with (S (length ds - 1)) by lia.
      rewrite Nat2N.inj_succ, !N.pow_succ_r'.
      repeat split; lia.
Qed.

Lemma digits_spec (n : N) :
  Forall (λ c, is_digit c = true) (digits n)
  ∧ decimal_value (digits n) = n
  ∧ n < 10 ^ N.of_nat (length (digits n))
  ∧ (1 <= length (digits n))%nat
  ∧ (n ≠ 0 → 10 ^ N.of_nat (length (digits n) - 1) <= n).
Proof.
  unfold digits.
  destruct (digits_go_spec (N.to_nat (N.size n)) n [])
    as (ds & Heq & H).
  { rewrite N2Nat.id. apply N.size_gt. }
  rewrite Heq, app_nil_r. exact H.
Qed.

(** A number below [10^w] has at most [w] digits. *)
Lemma digits_length_le (n : N) (w : nat) :
  (1 <= w)%nat → n < 10 ^ N.of_nat w → (length (digits n) <= w)%nat.
Proof.
  intros Hw Hn.
  destruct (digits_spec n) as (_ & _ & _ & Hlen & Hlb).
  destruct (N.eq_dec n 0) as [->|Hn0].
  - vm_compute length. lia.
  - specialize (Hlb Hn0).
    destruct (le_lt_dec (length (digits n)) w) as [|Hgt]; [assumption|].
    exfalso.
    assert (10 ^ N.of_nat w <= 10 ^ N.of_nat (length (digits n) - 1)).
    { apply N.pow_le_mono_r; lia. }
    lia.
Qed.

Lemma decimal_value_zeros (k : nat) (s : str) :
  decimal_value (replicate k 48 ++ s) = decimal_value s.
Proof.
  induction k as [|k IH]; [reflexivity|].
  simpl. unfold decimal_value in *. simpl. exact IH.
Qed.

(** The zero-padded rendering of a non-negative integer. *)
Lemma format_0d_nonneg (w : nat) (i : Z) :
  (0 <= i)%Z →
  Forall (λ c, is_digit c = true) (format_0d w i)
  ∧ Z.of_N (decimal_value (format_0d w i)) = i
  ∧ length (format_0d w i) = Nat.max w (length (digits (Z.abs_N i)))
  ∧ format_0d w i
    = replicate (w - length (digits (Z.abs_N i))) 48 ++ digits (Z.abs_N i).
Proof.
  intros Hi. unfold format_0d.
  destruct (Z.ltb_spec i 0) as [?|_]; [lia|].
  destruct (digits_spec (Z.abs_N i)) as (Hdig & Hval & _ & Hlen & _).
  repeat split.
  - apply Forall_app. split; [|exact Hdig].
    apply Forall_forall. intros c Hc. apply elem_of_replicate in Hc as [-> _].
    reflexivity.
  - rewrite decimal_value_zeros, Hval. rewrite N2Z.inj_abs_N. lia.
  - rewrite length_app, length_replicate. lia.
Qed.

Lemma format_0d_width (w : nat) (i : Z) :
  (1 <= w)%nat → (0 <= i < 10 ^ Z.of_nat w)%Z → length (format_0d w i) = w.
Proof.
  intros Hw Hi.
  destruct (format_0d_nonneg w i) as (_ & _ & Hlen & _); [lia|].
  rewrite Hlen.
  assert (length (digits (Z.abs_N i)) <= w)%nat; [|lia].
  apply digits_length_le; [assumption|].
  apply N2Z.inj_lt. rewrite N2Z.inj_abs_N, N2Z.inj_pow, nat_N_Z. simpl. lia.
Qed.

(** ** Rounding *)

Lemma round_half_even_nearest (m e : Z) :
  (0 < m)%Z →
  nearest_ties_even (round_half_even m e) m e ∧ (0 <= round_half_even m e)%Z.
Proof.
  intros Hm. unfold nearest_ties_even, round_half_even. cbv zeta.
  destruct (Z.leb_spec 0 e) as [He|He].
  - rewrite (Z.max_l 0 (- e)), (Z.max_r 0 e) by lia.
    change (2 ^ 0)%Z with 1%Z.
    assert (0 < 2 ^ e)%Z by (apply Z.pow_pos_nonneg; lia).
    repeat split; [lia|lia|nia].
  - rewrite (Z.max_r 0 (- e)), (Z.max_l 0 e) by lia.
    change (2 ^ 0)%Z with 1%Z.
    assert (0 < 2 ^ (- e))%Z as Hd by (apply Z.pow_pos_nonneg; lia).
    remember (2 ^ (- e))%Z as d eqn:Ed. clear Ed.
    pose proof (Z.div_mod m d ltac:(lia)) as Hdm.
    pose proof (Z.mod_pos_bound m d Hd) as Hr.
    assert (0 <= m / d)%Z as Hq by (apply Z.div_pos; lia).
    remember (m mod d)%Z as r eqn:Er. remember (m / d)%Z as q eqn:Eq.
    clear Er Eq.
    destruct (Z.ltb_spec (2 * r) d) as [H1|H1].
    { repeat split; lia. }
    destruct (Z.ltb_spec d (2 * r)) as [H2|H2].
    { repeat split; lia. }
    destruct (Z.even q) eqn:Heven.
    { repeat split; [lia|intros _; exact Heven|lia]. }
    repeat split; [lia| |lia].
    intros _. rewrite Z.even_add, Heven. reflexivity.
Qed.

(** The rule fixes the integer: there is one nearest integer with ties to
    even. *)
Lemma nearest_ties_even_unique (ms ms' m e : Z) :
  nearest_ties_even ms m e → nearest_ties_even ms' m e → ms = ms'.
Proof.
  unfold nearest_ties_even.
  assert (0 < 2 ^ Z.max 0 (- e))%Z as Hd by (apply Z.pow_pos_nonneg; lia).
  generalize dependent (2 ^ Z.max 0 (- e))%Z. intros d Hd.
  generalize (m * 2 ^ Z.max 0 e)%Z. intros n [H1 E1] [H2 E2].
  assert (ms = ms' ∨ ms = ms' + 1 ∨ ms' = ms + 1)%Z as [?|[->| ->]] by nia;
    [assumption| |].
  - assert (2 * Z.abs ((ms' + 1) * d - n) = d)%Z as Ha by lia.
    assert (2 * Z.abs (ms' * d - n) = d)%Z as Hb by lia.
    specialize (E1 Ha). specialize (E2 Hb).
    rewrite Z.even_add, E2 in E1. discriminate.
  - assert (2 * Z.abs ((ms + 1) * d - n) = d)%Z as Ha by lia.
    assert (2 * Z.abs (ms * d - n) = d)%Z as Hb by lia.
    specialize (E1 Hb). specialize (E2 Ha).
    rewrite Z.even_add, E1 in E2. discriminate.
Qed.

Lemma py_round_exact (x : float) (m e : Z) :
  exact_value x = Some (m, e) → (0 <= m)%Z →
  ∃ ms, py_round x = Ok ms ∧ nearest_ties_even ms m e ∧ (0 <= ms)%Z.
Proof.
  unfold exact_value, py_round. intros Hx Hm.
  destruct (Prim2SF x) as [sg| | |sg mant ex]; try discriminate.
  - injection Hx as <- <-. exists 0%Z. split; [reflexivity|].
    split; [|lia]. unfold nearest_ties_even. simpl. split; [lia|reflexivity].
  - injection Hx as <- <-. destruct sg; simpl in Hm; [lia|].
    exists (round_half_even (Z.pos mant) ex). split; [reflexivity|].
    apply round_half_even_nearest. lia.
Qed.

(** The decomposition of lines 35-40 on a non-negative number of
    milliseconds. *)
Lemma clock_fields (ms : Z) :
  (0 <= ms)%Z →
  let hours := (ms / 3600000)%Z in
  let minutes := (ms mod 3600000 / 60000)%Z in
  let secs := ((ms mod 3600000) mod 60000 / 1000)%Z in
  let millis := (((ms mod 3600000) mod 60000) mod 1000)%Z in
  (0 <= hours)%Z ∧ (0 <= minutes < 60)%Z ∧ (0 <= secs < 60)%Z
  ∧ (0 <= millis < 1000)%Z
  ∧ (((hours * 60 + minutes) * 60 + secs) * 1000 + millis = ms)%Z.
Proof. intros Hms. cbv zeta. Z.div_mod_to_equations. lia. Qed.

(** The rendering of a finite non-negative number of seconds. *)
Lemma format_timestamp_nonneg (seconds : option float) (m e : Z) :
  exact_value (default 0%float seconds * 1000) = Some (m, e) →
  (0 <= m)%Z →
  ∃ (ms : Z) (hh mm ss mmm : str),
    format_timestamp seconds
    = Ok (hh ++ utf8 ":" ++ mm ++ utf8 ":" ++ ss ++ utf8 "," ++ mmm)
    ∧ nearest_ties_even ms m e
    ∧ Forall (λ c, is_digit c = true) (hh ++ mm ++ ss ++ mmm)
    ∧ (2 <= length hh)%nat ∧ length mm = 2%nat ∧ length ss = 2%nat
    ∧ length mmm = 3%nat
    ∧ decimal_value mm < 60 ∧ decimal_value ss < 60
    ∧ Z.of_N (((decimal_value hh * 60 + decimal_value mm) * 60
               + decimal_value ss) * 1000 + decimal_value mmm) = ms.
Proof.
  intros Hx Hm.
  destruct (py_round_exact _ m e Hx Hm) as (ms & Hround & Hnear & Hms).
  destruct (clock_fields ms Hms) as (Hh & Hmin & Hsec & Hmil & Hsum).
  cbv zeta in Hh, Hmin, Hsec, Hmil, Hsum.
  destruct (format_0d_nonneg 2 (ms / 3600000)) as (Dh & Vh & Lh & _); [lia|].
  destruct (format_0d_nonneg 2 (ms mod 3600000 / 60000))
    as (Dm & Vm & _ & _); [lia|].
  destruct (format_0d_nonneg 2 ((ms mod 3600000) mod 60000 / 1000))
    as (Ds & Vs & _ & _); [lia|].
  destruct (format_0d_nonneg 3 (((ms mod 3600000) mod 60000) mod 1000))
    as (Dl & Vl & _ & _); [lia|].
  exists ms, (format_0d 2 (ms / 3600000)),
    (format_0d 2 (ms mod 3600000 / 60000)),
    (format_0d 2 ((ms mod 3600000) mod 60000 / 1000)),
    (format_0d 3 (((ms mod 3600000) mod 60000) mod 1000)).
  split.
  { unfold format_timestamp.
    replace (match seconds with Some s => s | None => 0%float end)
      with (default 0%float seconds) by (destruct seconds; reflexivity).
    rewrite Hround. reflexivity. }
  split; [exact Hnear|].
  split; [repeat (apply Forall_app; split); assumption|].
  split; [rewrite Lh; lia|].
  repeat (split; [apply format_0d_width; simpl; lia|]).
  split; [lia|]. split; [lia|]. lia.
Qed.


Lemma format_timestamp_shape (t : option float) :
  nonneg_finite t = true →
  ∃ s, format_timestamp t = Ok s ∧ is_timestamp s.
Proof.
  unfold nonneg_finite. intros H.
  destruct (exact_value _) as [[m e]|] eqn:Hx; [|discriminate].
  apply Z.leb_le in H.
  destruct (format_timestamp_nonneg t m e Hx H)
    as (ms & hh & mm & ss & mmm & Heq & _ & Hdig & Hh & Hm & Hs & Hl & _).
  eexists. split; [exact Heq|]. exists hh, mm, ss, mmm.
  exact (conj eq_refl (conj Hdig (conj Hh (conj Hm (conj Hs Hl))))).
Qed.

(** ** Trimming and joining *)

Lemma lstrip_nonspace (c : N) (s : str) :
  isspace c = false → lstrip (c :: s) = c :: s.
Proof. intros H. simpl. rewrite H. reflexivity. Qed.

Lemma lstrip_head (s : str) (c : N) :
  head (lstrip s) = Some c → isspace c = false.
Proof.
  induction s as [|a s IH]; simpl; [discriminate|].
  destruct (isspace a) eqn:Ha; [exact IH|].
  simpl. intros [= <-]. exact Ha.
Qed.

Lemma last_rev_head {A} (l : list A) : last (rev l) = head l.
Proof.
  destruct l as [|a l]; [reflexivity|]. simpl. apply last_snoc.
Qed.

Lemma rstrip_nil : rstrip [] = [].
Proof. reflexivity. Qed.

(** Trailing white space goes. *)
Lemma rstrip_snoc_space (s : str) (c : N) :
  isspace c = true → rstrip (s ++ [c]) = rstrip s.
Proof.
  intros H. unfold rstrip. rewrite rev_app_distr. simpl. rewrite H.
  reflexivity.
Qed.

(** What [rstrip] leaves does not end in white space. *)
Lemma rstrip_last (s : str) (c : N) :
  last (rstrip s) = Some c → isspace c = false.
Proof. unfold rstrip. rewrite last_rev_head. apply lstrip_head. Qed.

(** A string that does not end in white space is left as it is. *)
Lemma rstrip_id (s : str) (c : N) :
  last s = Some c → isspace c = false → rstrip s = s.
Proof.
  intros Hlast Hc. unfold rstrip.
  destruct (rev s) as [|a r] eqn:Hrev.
  - apply (f_equal (@rev N)) in Hrev. rewrite rev_involutive in Hrev.
    subst s. discriminate.
  - assert (a = c) as ->.
    { rewrite <- (rev_involutive s), Hrev, last_rev_head in Hlast.
      simpl in Hlast. congruence. }
    rewrite lstrip_nonspace by assumption.
    rewrite <- Hrev. apply rev_involutive.
Qed.

Lemma strip_last (s : str) (c : N) :
  last (strip s) = Some c → isspace c = false.
Proof. apply rstrip_last. Qed.

Lemma is_digit_not_space (c : N) : is_digit c = true → isspace c = false.
Proof.
  unfold is_digit. intros H. apply andb_true_iff in H as [H1 H2].
  apply N.leb_le in H1, H2.
  assert (c = 48 ∨ c = 49 ∨ c = 50 ∨ c = 51 ∨ c = 52 ∨ c = 53 ∨ c = 54
          ∨ c = 55 ∨ c = 56 ∨ c = 57) as Hc by lia.
  repeat (destruct Hc as [->|Hc]; [reflexivity|]). subst c. reflexivity.
Qed.

(** [str(i)] of a positive [i] starts with a digit. *)
Lemma str_of_int_head (i : Z) :
  (0 <= i)%Z → ∃ c rest, str_of_int i = c :: rest ∧ is_digit c = true.
Proof.
  intros Hi. unfold str_of_int.
  destruct (Z.ltb_spec i 0) as [?|_]; [lia|].
  destruct (digits_spec (Z.abs_N i)) as (Hdig & _ & _ & Hlen & _).
  destruct (digits (Z.abs_N i)) as [|c rest]; [simpl in Hlen; lia|].
  exists c, rest. split; [reflexivity|]. by inversion Hdig.
Qed.

(** Joining parts that each end in a line feed with a line feed is joining
    the bare parts with an empty line, and one closing line feed. *)
Lemma join_closed_entries (entries : list str) :
  entries ≠ [] →
  join NL (map (λ entry, entry ++ NL) entries)
  = join (NL ++ NL) entries ++ NL.
Proof.
  induction entries as [|a [|b rest] IH]; intros Hne; [done|reflexivity|].
  change (join NL (map (λ entry, entry ++ NL) (a :: b :: rest)))
    with ((a ++ NL) ++ NL ++ join NL (map (λ entry, entry ++ NL) (b :: rest))).
  rewrite IH by done.
  change (join (NL ++ NL) (a :: b :: rest))
    with (a ++ (NL ++ NL) ++ join (NL ++ NL) (b :: rest)).
  rewrite <- !app_assoc. reflexivity.
Qed.

Lemma join_head (sep : str) (c : N) (rest : str) (parts : list str) :
  ∃ tail, join sep ((c :: rest) :: parts) = c :: tail.
Proof. destruct parts; simpl; eauto. Qed.

Lemma last_app_nonempty {A} (l1 l2 : list A) :
  l2 ≠ [] → last (l1 ++ l2) = last l2.
Proof.
  intros H. destruct l2 as [|x l2 _] using rev_ind; [done|].
  rewrite app_assoc, !last_snoc. reflexivity.
Qed.

(** The last character of a join is that of the last part, when that part
    is not empty. *)
Lemma join_last (sep : str) (parts : list str) (p : str) :
  last parts = Some p → p ≠ [] → last (join sep parts) = last p.
Proof.
  induction parts as [|a [|b rest] IH]; intros Hlast Hp; [done| |].
  - simpl in *. congruence.
  - change (join sep (a :: b :: rest)) with (a ++ sep ++ join sep (b :: rest)).
    assert (last (join sep (b :: rest)) = last p) as Hj by (apply IH; done).
    assert (join sep (b :: rest) ≠ []) as Hne.
    { intros E. rewrite E in Hj. destruct p using rev_ind; [done|].
      rewrite last_snoc in Hj. discriminate. }
    rewrite !app_assoc, last_app_nonempty by assumption. exact Hj.
Qed.

(** The blocks of the loop are the entries, each closed by a line feed. *)
Lemma srt_blocks_entries (segments : list Segment) :
  Forall (λ seg, well_timed seg = true) segments →
  ∀ i : Z,
    ∃ entries : list str,
      srt_blocks i segments = Ok (map (λ entry, entry ++ NL) entries)
      ∧ length entries = length segments
      ∧ ∀ (k : nat) (seg : Segment),
          segments !! k = Some seg →
          ∃ start_s end_s,
            format_timestamp (start seg) = Ok start_s
            ∧ format_timestamp (end_ seg) = Ok end_s
            ∧ is_timestamp start_s ∧ is_timestamp end_s
            ∧ entries !! k
              = Some (srt_entry (i + Z.of_nat k) start_s end_s seg).
Proof.
  induction 1 as [|seg rest Hseg _ IH]; intros i.
  - exists []. split; [reflexivity|]. split; [reflexivity|].
    intros k seg Hk. rewrite lookup_nil in Hk. discriminate.
  - apply andb_true_iff in Hseg as [Hs He].
    destruct (format_timestamp_shape _ Hs) as (start_s & Hstart & Tstart).
    destruct (format_timestamp_shape _ He) as (end_s & Hend & Tend).
    destruct (IH (i + 1)%Z) as (entries & Hblocks & Hlen & Hentries).
    exists (srt_entry i start_s end_s seg :: entries).
    split; [|split].
    + cbn [srt_blocks]. unfold srt_block. rewrite Hstart, Hend. simpl.
      rewrite Hblocks. simpl. unfold srt_entry.
      rewrite <- !app_assoc. reflexivity.
    + simpl. rewrite Hlen. reflexivity.
    + intros [|k] seg' Hk.
      * injection Hk as <-. exists start_s, end_s.
        rewrite Z.add_0_r. auto.
      * destruct (Hentries k seg' Hk)
          as (s' & e' & H1 & H2 & H3 & H4 & H5).
        exists s', e'. repeat split; try assumption.
        simpl. rewrite H5. do 2 f_equal. lia.
Qed.

(** ** Running computations *)

Lemma bind_run {A B} (m : M A) (f : A → M B) (w : World) :
  (m ≫= f) w
  = match m w with
    | (Ok a, w') => f a w'
    | (Raise e, w') => (Raise e, w')
    end.
Proof. reflexivity. Qed.

Lemma bind_ok {A B} (m : M A) (f : A → M B) (w w' : World) (a : A) :
  m w = (Ok a, w') → (m ≫= f) w = f a w'.
Proof. intros H. rewrite bind_run, H. reflexivity. Qed.

Lemma bind_raise {A B} (m : M A) (f : A → M B) (w w' : World) (e : exn) :
  m w = (Raise e, w') → (m ≫= f) w = (Raise e, w').
Proof. intros H. rewrite bind_run, H. reflexivity. Qed.

Lemma try_except_run {A} (body : M A) (catches : exn → bool)
    (handler : exn → M A) (w : World) :
  try_except body catches handler w
  = match body w with
    | (Ok a, w') => (Ok a, w')
    | (Raise e, w') => if catches e then handler e w' else (Raise e, w')
    end.
Proof. reflexivity. Qed.

(** ** Relations every step keeps *)

Section Respects.
Context (R : World → World → Prop) `{!PreOrder R}.

Lemma respects_ret {A} (a : A) : respects R (mret a : M A).
Proof. intros w r w' [= _ <-]. reflexivity. Qed.

Lemma respects_raise {A} (e : exn) : respects R (raise e : M A).
Proof. intros w r w' [= _ <-]. reflexivity. Qed.

Lemma respects_lift {A} (x : result A) : respects R (lift x).
Proof. intros w r w' [= _ <-]. reflexivity. Qed.

Lemma respects_bind {A B} (m : M A) (f : A → M B) :
  respects R m → (∀ a, respects R (f a)) → respects R (m ≫= f).
Proof.
  intros Hm Hf w r w'. rewrite bind_run.
  destruct (m w) as [[a|e] w1] eqn:E.
  - intros H. transitivity w1; [exact (Hm _ _ _ E)|exact (Hf _ _ _ _ H)].
  - intros [= _ <-]. exact (Hm _ _ _ E).
Qed.

Lemma respects_try {A} (body : M A) (catches : exn → bool)
    (handler : exn → M A) :
  respects R body → (∀ e, respects R (handler e)) →
  respects R (try_except body catches handler).
Proof.
  intros Hb Hh w r w'. rewrite try_except_run.
  destruct (body w) as [[a|e] w1] eqn:E.
  - intros [= _ <-]. exact (Hb _ _ _ E).
  - destruct (catches e).
    + intros H. transitivity w1; [exact (Hb _ _ _ E)|exact (Hh _ _ _ _ H)].
    + intros [= _ <-]. exact (Hb _ _ _ E).
Qed.

Lemma respects_call {A} (ev : event) (answer : list event → result A) :
  (∀ w, R w (log ev w)) → respects R (call ev answer).
Proof. intros H w r w' [= _ <-]. apply H. Qed.

End Respects.

Global Instance grows_by_preorder (P : event → Prop) : PreOrder (grows_by P).
Proof.
  split.
  - intros w. exists []. rewrite app_nil_r. split; [reflexivity|constructor].
  - intros w1 w2 w3 (n1 & E1 & F1) (n2 & E2 & F2).
    exists (n1 ++ n2). rewrite E2, E1, app_assoc. split; [reflexivity|].
    apply Forall_app. split; assumption.
Qed.

Lemma grows_by_log (P : event → Prop) (ev : event) (w : World) :
  P ev → grows_by P w (log ev w).
Proof. intros H. exists [ev]. split; [reflexivity|]. repeat constructor. exact H. Qed.

Lemma grows_by_weaken (P Q : event → Prop) (w w' : World) :
  (∀ ev, P ev → Q ev) → grows_by P w w' → grows_by Q w w'.
Proof.
  intros H (new & E & F). exists new. split; [exact E|].
  eapply Forall_impl; eassumption.
Qed.

Global Instance keeps_cache_wf_preorder : PreOrder keeps_cache_wf.
Proof. split; unfold keeps_cache_wf; [intros w; auto|intros a b c; auto]. Qed.

Lemma cache_wf_initial : cache_wf initial_world.
Proof. intros key m H. simpl in H. rewrite lookup_empty in H. discriminate. Qed.

Lemma cache_wf_log (ev : event) (w : World) : keeps_cache_wf w (log ev w).
Proof.
  intros Hwf key m H. simpl in *.
  rewrite lookup_app_l; [exact (Hwf key m H)|].
  apply lookup_lt_Some with (x := EvWhisperModel key). exact (Hwf key m H).
Qed.

(** ** The engine cache *)

Section CacheLemmas.
Context (env : Env).

(** A hit returns the cached engine and leaves the world alone. *)
Lemma get_model_hit (model_name device compute_type : str) (w : World)
    (m : engine) :
  MODEL_CACHE w !! (model_name, device, compute_type) = Some m →
  get_model env model_name device compute_type w = (Ok m, w).
Proof.
  intros H. unfold get_model, read_cache.
  cbv [mbind M_bind mret M_ret]. rewrite H. cbv beta iota. rewrite H.
  reflexivity.
Qed.

(** A miss calls the constructor; its engine is stored, then returned. *)
Lemma get_model_miss_ok (model_name device compute_type : str) (w : World)
    (u : unit) :
  let key := (model_name, device, compute_type) in
  MODEL_CACHE w !! key = None →
  WhisperModel env (trace w) key = Ok u →
  get_model env model_name device compute_type w
  = (Ok (length (trace w)),
     mk_world (<[key := length (trace w)]> (MODEL_CACHE w))
       (trace w ++ [EvWhisperModel key])).
Proof.
  intros key Hmiss Hctor. unfold get_model, read_cache, new_WhisperModel,
    cache_setitem.
  cbv [mbind M_bind mret M_ret]. fold key. rewrite Hmiss, Hctor.
  cbn [log MODEL_CACHE trace]. rewrite lookup_insert_eq. reflexivity.
Qed.

(** A miss whose constructor raises stores nothing. *)
Lemma get_model_miss_raise (model_name device compute_type : str) (w : World)
    (e : exn) :
  let key := (model_name, device, compute_type) in
  MODEL_CACHE w !! key = None →
  WhisperModel env (trace w) key = Raise e →
  get_model env model_name device compute_type w
  = (Raise e, log (EvWhisperModel key) w).
Proof.
  intros key Hmiss Hctor. unfold get_model, read_cache, new_WhisperModel.
  cbv [mbind M_bind mret M_ret]. fold key. rewrite Hmiss, Hctor.
  reflexivity.
Qed.

(** The three ways [get_model] can go. *)
Lemma get_model_cases (model_name device compute_type : str) (w : World) :
  let key := (model_name, device, compute_type) in
  (∃ m, MODEL_CACHE w !! key = Some m
        ∧ get_model env model_name device compute_type w = (Ok m, w))
  ∨ (∃ u, MODEL_CACHE w !! key = None
          ∧ WhisperModel env (trace w) key = Ok u
          ∧ get_model env model_name device compute_type w
            = (Ok (length (trace w)),
               mk_world (<[key := length (trace w)]> (MODEL_CACHE w))
                 (trace w ++ [EvWhisperModel key])))
  ∨ (∃ e, MODEL_CACHE w !! key = None
          ∧ WhisperModel env (trace w) key = Raise e
          ∧ get_model env model_name device compute_type w
            = (Raise e, log (EvWhisperModel key) w)).
Proof.
  intros key.
  destruct (MODEL_CACHE w !! key) as [m|] eqn:Hc.
  - left. exists m. split; [reflexivity|]. by apply get_model_hit.
  - right. destruct (WhisperModel env (trace w) key) as [u|e] eqn:Hk.
    + left. exists u. split; [reflexivity|]. split; [reflexivity|].
      exact (get_model_miss_ok model_name device compute_type w u Hc Hk).
    + right. exists e. split; [reflexivity|]. split; [reflexivity|].
      exact (get_model_miss_raise model_name device compute_type w e Hc Hk).
Qed.

Lemma get_model_keeps_wf (model_name device compute_type : str) :
  respects keeps_cache_wf (get_model env model_name device compute_type).
Proof.
  intros w r w' Hrun Hwf.
  destruct (get_model_cases model_name device compute_type w)
    as [(m & _ & E)|[(u & Hmiss & _ & E)|(e & _ & _ & E)]];
    rewrite E in Hrun; injection Hrun as <- <-.
  - exact Hwf.
  - intros key m. cbn [MODEL_CACHE trace].
    destruct (decide ((model_name, device, compute_type) = key)) as [<-|Hne].
    + rewrite lookup_insert_eq. intros [= <-].
      rewrite lookup_app_r, Nat.sub_diag by lia. reflexivity.
    + rewrite lookup_insert_ne by exact Hne. intros H.
      rewrite lookup_app_l; [exact (Hwf key m H)|].
      apply lookup_lt_Some with (x := EvWhisperModel key). exact (Hwf key m H).
  - by apply cache_wf_log.
Qed.

Lemma get_model_grows (model_name device compute_type : str) :
  respects
    (grows_by (λ ev, ev = EvWhisperModel (model_name, device, compute_type)))
    (get_model env model_name device compute_type).
Proof.
  intros w r w' Hrun.
  destruct (get_model_cases model_name device compute_type w)
    as [(m & _ & E)|[(u & Hmiss & _ & E)|(e & _ & _ & E)]];
    rewrite E in Hrun; injection Hrun as <- <-.
  - reflexivity.
  - exists [EvWhisperModel (model_name, device, compute_type)].
    split; [reflexivity|]. repeat constructor.
  - by apply grows_by_log.
Qed.

End CacheLemmas.

(** ** The download *)

Section DownloadLemmas.
Context (env : Env).

(** The comprehension never raises, keeps listed paths only, none of them
    ending in [.part], and only asks whether paths are regular files. *)
Lemma completed_files_ok (paths : list str) :
  ∀ w, ∃ files w',
    completed_files env paths w = (Ok files, w')
    ∧ Forall (λ f, f ∈ paths ∧ endswith f (utf8 ".part") = false) files
    ∧ grows_by (λ ev, ∃ p, ev = EvIsFile p) w w'.
Proof.
  induction paths as [|f rest IH]; intros w.
  - exists [], w. split; [reflexivity|]. split; [constructor|reflexivity].
  - cbn [completed_files].
    destruct (endswith f (utf8 ".part")) eqn:Hpart; cbn [negb].
    + destruct (IH w) as (files & w' & Hrun & Hall & Hgrow).
      exists files, w'. split.
      * rewrite bind_run. cbv [mret M_ret]. rewrite bind_run, Hrun.
        reflexivity.
      * split; [|exact Hgrow].
        eapply Forall_impl; [exact Hall|]. intros g [Hin Hg].
        split; [right; exact Hin|exact Hg].
    + destruct (IH (log (EvIsFile f) w)) as (files & w' & Hrun & Hall & Hgrow).
      exists (if os_path_isfile env (trace w) f then f :: files else files), w'.
      split; [|split].
      * rewrite bind_run. unfold call at 1. rewrite bind_run, Hrun.
        reflexivity.
      * assert (Forall (λ g, g ∈ f :: rest ∧ endswith g (utf8 ".part") = false)
                  files) as Hall'.
        { eapply Forall_impl; [exact Hall|]. intros g [Hin Hg].
          split; [right; exact Hin|exact Hg]. }
        destruct (os_path_isfile env (trace w) f); [|exact Hall'].
        constructor; [|exact Hall']. split; [left|exact Hpart].
      * transitivity (log (EvIsFile f) w); [|exact Hgrow].
        apply grows_by_log. eauto.
Qed.

Lemma isfile_checks_cons (f : str) (rest : list str) :
  isfile_checks (f :: rest) = isfile_checks [f] ++ isfile_checks rest.
Proof.
  unfold isfile_checks. cbn [List.filter].
  destruct (negb (endswith f (utf8 ".part"))); reflexivity.
Qed.

Lemma isfile_checks_one (f : str) :
  isfile_checks [f]
  = if endswith f (utf8 ".part") then [] else [EvIsFile f].
Proof.
  unfold isfile_checks. cbn [List.filter].
  destruct (endswith f (utf8 ".part")); reflexivity.
Qed.

Lemma finished_cons (h : list event) (f : str) (before : list str) (g : str) :
  finished env h (f :: before) g
  = finished env (h ++ isfile_checks [f]) before g.
Proof. unfold finished. by rewrite isfile_checks_cons, app_assoc. Qed.

(** A path that is not finished is passed over. *)
Lemma first_finished_cons (h : list event) (f : str) (rest : list str)
    (chosen : option str) :
  finished env h [] f = false →
  first_finished env (h ++ isfile_checks [f]) rest chosen →
  first_finished env h (f :: rest) chosen.
Proof.
  intros Hf. destruct chosen as [p|]; cbn [first_finished].
  - intros (before & after & -> & Hp & Hbefore).
    exists (f :: before), after. split; [reflexivity|].
    split; [by rewrite finished_cons|].
    intros [|g earlier] x later.
    + intros [= <- _]. exact Hf.
    + intros [= <- ->]. rewrite finished_cons. by eapply Hbefore.
  - intros Hrest [|g earlier] x later.
    + intros [= <- _]. exact Hf.
    + intros [= <- ->]. rewrite finished_cons. by eapply Hrest.
Qed.

Lemma first_finished_here (h : list event) (f : str) (rest : list str) :
  finished env h [] f = true → first_finished env h (f :: rest) (Some f).
Proof.
  intros Hf. exists [], rest. split; [reflexivity|]. split; [exact Hf|].
  intros [|g earlier] x later; discriminate.
Qed.

(** The comprehension, exactly: it asks of every listed path that does not
    end in [.part] whether it is a regular file, in listing order, and the
    head of what it keeps is the first finished path. *)
Lemma completed_files_spec (paths : list str) :
  ∀ w, ∃ files,
    completed_files env paths w
    = (Ok files, mk_world (MODEL_CACHE w) (trace w ++ isfile_checks paths))
    ∧ first_finished env (trace w) paths (head files).
Proof.
  induction paths as [|f rest IH]; intros w.
  - exists []. split.
    + cbn. rewrite app_nil_r. by destruct w.
    + intros [|g earlier] x later; discriminate.
  - cbn [completed_files]. rewrite isfile_checks_cons.
    pose proof (isfile_checks_one f) as Hone.
    destruct (endswith f (utf8 ".part")) eqn:Hpart; cbn [negb].
    + destruct (IH w) as (files & Hrun & Hfirst).
      exists files. split.
      * rewrite bind_run. cbv [mret M_ret]. rewrite bind_run, Hrun, Hone.
        reflexivity.
      * apply first_finished_cons; [unfold finished; by rewrite Hpart|].
        by rewrite Hone, app_nil_r.
    + destruct (IH (log (EvIsFile f) w)) as (files & Hrun & Hfirst).
      exists (if os_path_isfile env (trace w) f then f :: files else files).
      split.
      * rewrite bind_run. unfold call at 1. rewrite bind_run, Hrun, Hone.
        cbn [log trace MODEL_CACHE]. by rewrite <- app_assoc.
      * assert (finished env (trace w) [] f = os_path_isfile env (trace w) f)
          as Hf.
        { unfold finished. rewrite Hpart. cbn. by rewrite app_nil_r. }
        destruct (os_path_isfile env (trace w) f).
        -- by apply first_finished_here.
        -- apply first_finished_cons; [exact Hf|]. by rewrite Hone.
Qed.

(** Lines 113-124: the directory is listed and the first finished path
    returned, or the no-file error raised. *)
Lemma download_listing (tmpdir : str) (w : World) :
  let pattern := os_path_join env tmpdir (utf8 "*") in
  let listing := glob_glob env (trace w) pattern in
  ∃ chosen,
    first_finished env (trace w ++ [EvGlob pattern]) listing chosen
    ∧ (paths ← call (EvGlob pattern) (λ h, Ok (glob_glob env h pattern));
       files ← completed_files env paths;
       match files with
       | [] => raise no_file_error
       | audio_path :: _ => mret audio_path
       end) w
      = (match chosen with
         | None => Raise no_file_error
         | Some audio_path => Ok audio_path
         end,
         mk_world (MODEL_CACHE w)
           (trace w ++ EvGlob pattern :: isfile_checks listing)).
Proof.
  intros pattern listing.
  destruct (completed_files_spec listing (log (EvGlob pattern) w))
    as (files & Hfiles & Hfirst).
  exists (head files). split; [exact Hfirst|].
  rewrite bind_run. unfold call at 1. fold listing.
  rewrite bind_run, Hfiles. cbn [log trace MODEL_CACHE].
  rewrite <- app_assoc. by destruct files.
Qed.

Lemma run_yt_dlp_run (tmpdir outtmpl url fmt : str) (w : World) :
  run_yt_dlp env tmpdir outtmpl url fmt w
  = (match subprocess_run env (trace w) (yt_dlp_cmd env fmt outtmpl url) tmpdir with
     | Ok (rc, err) =>
         if bool_decide (rc ≠ 0%Z)
         then Raise (mk_exn RuntimeError (yt_dlp_diagnostic rc err))
         else Ok ()
     | Raise e => Raise e
     end,
     log (EvSubprocess (yt_dlp_cmd env fmt outtmpl url) tmpdir) w).
Proof.
  unfold run_yt_dlp. rewrite bind_run. unfold call.
  fold (yt_dlp_cmd env fmt outtmpl url).
  destruct (subprocess_run env (trace w) _ tmpdir) as [[rc err]|e];
    [|reflexivity].
  cbn [fst snd]. unfold yt_dlp_diagnostic.
  destruct (bool_decide (rc ≠ 0%Z)); reflexivity.
Qed.

Section DownloadRespects.
Context (R : World → World → Prop) `{!PreOrder R}.
Context (Hlog : ∀ ev w, is_download_event ev = true → R w (log ev w)).

Lemma run_yt_dlp_respects (tmpdir outtmpl url fmt : str) :
  respects R (run_yt_dlp env tmpdir outtmpl url fmt).
Proof.
  intros w r w'. rewrite run_yt_dlp_run. intros [= _ <-]. by apply Hlog.
Qed.

Lemma completed_files_respects (paths : list str) :
  respects R (completed_files env paths).
Proof.
  induction paths as [|f rest IH]; cbn [completed_files].
  - by apply (respects_ret R).
  - apply (respects_bind R).
    + destruct (negb (endswith f (utf8 ".part"))); [|by apply (respects_ret R)].
      apply (respects_call R). intros w. by apply Hlog.
    + intros keep. apply (respects_bind R); [exact IH|].
      intros files. by apply (respects_ret R).
Qed.

(** Every step of the download is a download call. *)
Lemma download_respects (url : str) :
  respects R (download_youtube_audio env url).
Proof.
  unfold download_youtube_audio.
  apply (respects_bind R).
  { apply (respects_call R). intros w. by apply Hlog. }
  intros tmpdir. apply (respects_bind R).
  { apply (respects_try R); [apply run_yt_dlp_respects|].
    intros e. apply (respects_try R); [apply run_yt_dlp_respects|].
    intros e2. by apply (respects_raise R). }
  intros _. apply (respects_bind R).
  { apply (respects_call R). intros w. by apply Hlog. }
  intros paths. apply (respects_bind R); [apply completed_files_respects|].
  intros [|audio_path files]; [by apply (respects_raise R)|by apply (respects_ret R)].
Qed.

End DownloadRespects.

Lemma download_grows (url : str) :
  respects (grows_by (λ ev, is_download_event ev = true))
    (download_youtube_audio env url).
Proof.
  apply download_respects; [apply _|]. intros ev w H. by apply grows_by_log.
Qed.

Lemma download_keeps_wf (url : str) :
  respects keeps_cache_wf (download_youtube_audio env url).
Proof.
  apply download_respects; [apply _|]. intros ev w _. apply cache_wf_log.
Qed.

End DownloadLemmas.

(** ** The top-level operation *)

Section TranscribeLemmas.
Context (env : Env).

(** Case analysis on the stage an equation about a run starts with. *)
Ltac case_stage H :=
  match goal with
  | |- (match ?x with _ => _ end = _) → _ => destruct x eqn:H
  end.

(** [transcribe_audio_path], stage by stage. *)
Lemma transcribe_audio_path_run (audio_path : audio_input)
    (model_name device compute_type language task : str) (beam_size : Z)
    (w : World) :
  transcribe_audio_path env audio_path model_name device compute_type
    language task beam_size w
  = match get_model env model_name device compute_type w with
    | (Raise e, w1) => (Ok (utf8 "載入模型失敗：" ++ exn_msg e, None, None), w1)
    | (Ok model, w1) =>
        let lang_arg := language_argument language in
        let w2 := log (EvModelTranscribe model audio_path beam_size lang_arg task) w1 in
        match model_transcribe env (trace w1) model audio_path beam_size
                lang_arg task with
        | Raise e => (Ok (utf8 "轉錄過程發生錯誤：" ++ exn_msg e, None, None), w2)
        | Ok segments =>
            match failure segments with
            | Some e => (Raise e, w2)
            | None =>
                let transcript_text :=
                  strip (join NL (map (λ seg, strip (text seg))
                                    (yielded segments))) in
                match build_srt (yielded segments) with
                | Raise e => (Raise e, w2)
                | Ok srt_text =>
                    let w3 := log (EvMkdtemp (utf8 "transcript_")) w2 in
                    match tempfile_mkdtemp env (trace w2) (utf8 "transcript_") with
                    | Raise e => (Raise e, w3)
                    | Ok out_dir =>
                        let txt_path :=
                          os_path_join env out_dir (utf8 "transcript.txt") in
                        let srt_path :=
                          os_path_join env out_dir (utf8 "subtitles.srt") in
                        let w4 := log (EvWrite txt_path transcript_text) w3 in
                        match write_text env (trace w3) txt_path transcript_text with
                        | Raise e => (Raise e, w4)
                        | Ok _ =>
                            let w5 := log (EvWrite srt_path srt_text) w4 in
                            match write_text env (trace w4) srt_path srt_text with
                            | Raise e => (Raise e, w5)
                            | Ok _ =>
                                (Ok (transcript_text, Some txt_path,
                                     Some srt_path), w5)
                            end
                        end
                    end
                end
            end
        end
    end.
Proof.
  unfold transcribe_audio_path, language_argument.
  cbv [mbind M_bind mret M_ret raise lift call try_except is_Exception
       collect_segments].
  destruct (get_model env model_name device compute_type w) as [[model|e] w1];
    [|reflexivity].
  cbv zeta.
  destruct (model_transcribe env (trace w1) model audio_path beam_size _ task)
    as [segments|e]; [|reflexivity].
  destruct (failure segments) as [e|]; [reflexivity|].
  destruct (build_srt (yielded segments)) as [srt_text|e]; [|reflexivity].
  destruct (tempfile_mkdtemp env _ _) as [out_dir|e]; [|reflexivity].
  destruct (write_text env _ _ _) as [u|e]; [|reflexivity].
  destruct (write_text env _ _ _) as [u'|e]; reflexivity.
Qed.

(** [transcribe], by its source. *)
Lemma transcribe_run (audio_file : option audio_input)
    (youtube_url model_name device compute_type language task : str)
    (beam_size : Z) (w : World) :
  transcribe env audio_file youtube_url model_name device compute_type
    language task beam_size w
  = match audio_file with
    | Some file =>
        transcribe_audio_path env (name_or_self file) model_name device
          compute_type language task beam_size w
    | None =>
        if bool_decide (strip youtube_url = [])
        then (Ok (utf8 "請先上傳檔案或輸入 YouTube 連結。", None, None), w)
        else
          match download_youtube_audio env (strip youtube_url) w with
          | (Raise e, w1) =>
              (Ok (utf8 "YouTube 下載失敗：" ++ NL ++ exn_msg e, None, None), w1)
          | (Ok path, w1) =>
              transcribe_audio_path env (AudioPath path) model_name device
                compute_type language task beam_size w1
          end
    end.
Proof.
  unfold transcribe. destruct audio_file as [file|].
  - rewrite bool_decide_eq_false_2 by discriminate. reflexivity.
  - rewrite bool_decide_eq_true_2 by reflexivity. cbn [andb].
    destruct (bool_decide (strip youtube_url = [])); [reflexivity|].
    rewrite bind_run, try_except_run, bind_run.
    destruct (download_youtube_audio env (strip youtube_url) w)
      as [[path|e] w1]; reflexivity.
Qed.

Lemma prefixed_nonempty (prefix rest : str) : prefix ≠ [] → prefix ++ rest ≠ [].
Proof. destruct prefix; [done|discriminate]. Qed.

Lemma load_diagnostic_nonempty (e : exn) :
  utf8 "載入模型失敗：" ++ exn_msg e ≠ [].
Proof. apply prefixed_nonempty. vm_compute. discriminate. Qed.

Lemma inference_diagnostic_nonempty (e : exn) :
  utf8 "轉錄過程發生錯誤：" ++ exn_msg e ≠ [].
Proof. apply prefixed_nonempty. vm_compute. discriminate. Qed.

Lemma download_diagnostic_nonempty (e : exn) :
  utf8 "YouTube 下載失敗：" ++ NL ++ exn_msg e ≠ [].
Proof. apply prefixed_nonempty. vm_compute. discriminate. Qed.

Lemma prompt_nonempty : utf8 "請先上傳檔案或輸入 YouTube 連結。" ≠ [].
Proof. vm_compute. discriminate. Qed.

(** A result of [transcribe_audio_path] has no path and a non-empty text,
    or both paths, in the directory made after inference, and the joined
    texts of the segments inference yielded. *)
Lemma transcribe_audio_path_paired (audio_path : audio_input)
    (model_name device compute_type language task : str) (beam_size : Z)
    (w w' : World) (t : str) (txt srt : option str) :
  transcribe_audio_path env audio_path model_name device compute_type
    language task beam_size w = (Ok (t, txt, srt), w') →
  (txt = None ∧ srt = None ∧ t ≠ [])
  ∨ (∃ (model : engine) (w1 : World) (segments : SegmentStream)
       (out_dir : str),
       let inference :=
         EvModelTranscribe model audio_path beam_size
           (language_argument language) task in
       get_model env model_name device compute_type w = (Ok model, w1)
       ∧ model_transcribe env (trace w1) model audio_path beam_size
           (language_argument language) task = Ok segments
       ∧ failure segments = None
       ∧ tempfile_mkdtemp env (trace w1 ++ [inference]) (utf8 "transcript_")
         = Ok out_dir
       ∧ txt = Some (os_path_join env out_dir (utf8 "transcript.txt"))
       ∧ srt = Some (os_path_join env out_dir (utf8 "subtitles.srt"))
       ∧ t = strip (join NL (map (λ seg, strip (text seg))
                               (yielded segments)))).
Proof.
  rewrite transcribe_audio_path_run.
  destruct (get_model env model_name device compute_type w) as [[model|e] w1].
  2:{ intros [= <- <- <- _]. left. auto using load_diagnostic_nonempty. }
  cbv zeta.
  destruct (model_transcribe env _ _ _ _ _ _) as [segments|e] eqn:Hinfer.
  2:{ intros [= <- <- <- _]. left. auto using inference_diagnostic_nonempty. }
  destruct (failure segments) eqn:Hfail; [discriminate|].
  destruct (build_srt _); [|discriminate].
  destruct (tempfile_mkdtemp env _ _) as [out_dir|] eqn:Hdir; [|discriminate].
  destruct (write_text env _ _ _); [|discriminate].
  destruct (write_text env _ _ _); [|discriminate].
  intros [= <- <- <- _]. right. exists model, w1, segments, out_dir.
  cbv zeta. split; [reflexivity|]. split; [exact Hinfer|].
  split; [exact Hfail|]. split; [exact Hdir|]. auto.
Qed.

(** An exception that leaves [transcribe_audio_path] comes from the
    iteration over the segments, from [build_srt], or from creating the
    directory and writing the two files: the engine was obtained and
    [model.transcribe] returned. *)
Lemma transcribe_audio_path_raise_origin (audio_path : audio_input)
    (model_name device compute_type language task : str) (beam_size : Z)
    (w w' : World) (e : exn) :
  transcribe_audio_path env audio_path model_name device compute_type
    language task beam_size w = (Raise e, w') →
  ∃ model w1 segments,
    get_model env model_name device compute_type w = (Ok model, w1)
    ∧ model_transcribe env (trace w1) model audio_path beam_size
        (language_argument language) task = Ok segments
    ∧ (failure segments = Some e
       ∨ build_srt (yielded segments) = Raise e
       ∨ (∃ h, tempfile_mkdtemp env h (utf8 "transcript_") = Raise e)
       ∨ (∃ h path content, write_text env h path content = Raise e)).
Proof.
  rewrite transcribe_audio_path_run.
  destruct (get_model env model_name device compute_type w)
    as [[model|e0] w1]; [|discriminate].
  cbv zeta.
  destruct (model_transcribe env _ _ _ _ _ _) as [segments|e0] eqn:Hinfer;
    [|discriminate].
  intros Hrun.
  exists model, w1, segments. split; [reflexivity|]. split; [exact Hinfer|].
  revert Hrun.
  destruct (failure segments) as [e0|]; [intros [= -> _]; by left|].
  destruct (build_srt _) as [srt_text|e0];
    [|intros [= -> _]; right; by left].
  destruct (tempfile_mkdtemp env _ _) as [out_dir|e0] eqn:Hdir.
  2:{ intros [= <- _]. right. right. left. eexists. exact Hdir. }
  case_stage Htxt.
  2:{ intros [= <- _]. right. right. right. eexists _, _, _. exact Htxt. }
  case_stage Hsrt; [intros [=]|].
  intros [= <- _]. right. right. right. eexists _, _, _. exact Hsrt.
Qed.

(** Once the audio path is bound there is no download call, and inference
    is on that path. *)
Lemma transcribe_audio_path_grows (audio_path : audio_input)
    (model_name device compute_type language task : str) (beam_size : Z) :
  respects (grows_by (is_pipeline_event audio_path))
    (transcribe_audio_path env audio_path model_name device compute_type
       language task beam_size).
Proof.
  assert (∀ ev w, is_pipeline_event audio_path ev →
                  grows_by (is_pipeline_event audio_path) w (log ev w))
    as Hlog by (intros; by apply grows_by_log).
  assert (∀ prefix, prefix ≠ utf8 "yt_audio_" →
                    is_pipeline_event audio_path (EvMkdtemp prefix)) as Hdir.
  { intros prefix H. split; [|discriminate].
    cbn. by apply bool_decide_eq_false_2. }
  assert (∀ path content, is_pipeline_event audio_path (EvWrite path content))
    as Hwrite by (intros; split; [reflexivity|discriminate]).
  intros w r w'. rewrite transcribe_audio_path_run.
  pose proof (get_model_grows env model_name device compute_type w) as Hget.
  destruct (get_model env model_name device compute_type w) as [[model|e] w1].
  all: assert (grows_by (is_pipeline_event audio_path) w w1) as Hw1
    by (eapply grows_by_weaken; [|exact (Hget _ _ eq_refl)];
        intros ev ->; split; [reflexivity|discriminate]).
  2:{ intros [= _ <-]. exact Hw1. }
  cbv zeta.
  set (w2 := log (EvModelTranscribe _ _ _ _ _) w1).
  assert (grows_by (is_pipeline_event audio_path) w w2) as Hw2.
  { transitivity w1; [exact Hw1|]. apply Hlog.
    split; [reflexivity|]. by intros ????? [= _ -> _ _ _]. }
  destruct (model_transcribe env _ _ _ _ _ _) as [segments|e].
  2:{ intros [= _ <-]. exact Hw2. }
  destruct (failure segments); [intros [= _ <-]; exact Hw2|].
  destruct (build_srt _) as [srt_text|]; [|intros [= _ <-]; exact Hw2].
  set (w3 := log (EvMkdtemp _) w2).
  assert (grows_by (is_pipeline_event audio_path) w w3) as Hw3.
  { transitivity w2; [exact Hw2|]. apply Hlog, Hdir.
    vm_compute. discriminate. }
  destruct (tempfile_mkdtemp env _ _) as [out_dir|];
    [|intros [= _ <-]; exact Hw3].
  set (w4 := log (EvWrite _ _) w3).
  assert (grows_by (is_pipeline_event audio_path) w w4) as Hw4.
  { transitivity w3; [exact Hw3|]. apply Hlog, Hwrite. }
  destruct (write_text env _ _ _); [|intros [= _ <-]; exact Hw4].
  destruct (write_text env _ _ _); intros [= _ <-];
    (transitivity w4; [exact Hw4|]; apply Hlog, Hwrite).
Qed.

(** When the engine is there, inference is called, on the audio path. *)
Lemma transcribe_audio_path_infers (audio_path : audio_input)
    (model_name device compute_type language task : str) (beam_size : Z)
    (w w1 : World) (model : engine) :
  get_model env model_name device compute_type w = (Ok model, w1) →
  ∃ r w' rest,
    transcribe_audio_path env audio_path model_name device compute_type
      language task beam_size w = (r, w')
    ∧ trace w'
      = trace w1
        ++ EvModelTranscribe model audio_path beam_size
             (language_argument language) task :: rest.
Proof.
  intros Hget. rewrite transcribe_audio_path_run, Hget. cbv zeta.
  destruct (model_transcribe env _ _ _ _ _ _) as [segments|e].
  2:{ eexists _, _, []. split; reflexivity. }
  destruct (failure segments); [eexists _, _, []; split; reflexivity|].
  destruct (build_srt _) as [srt_text|];
    [|eexists _, _, []; split; reflexivity].
  destruct (tempfile_mkdtemp env _ _) as [out_dir|];
    [|eexists _, _, [_]; split; [reflexivity|]; cbn [log trace];
      rewrite <- app_assoc; reflexivity].
  destruct (write_text env _ _ _);
    [|eexists _, _, [_; _]; split; [reflexivity|]; cbn [log trace];
      rewrite <- !app_assoc; reflexivity].
  destruct (write_text env _ _ _);
    eexists _, _, [_; _; _]; (split; [reflexivity|]); cbn [log trace];
      rewrite <- !app_assoc; reflexivity.
Qed.

Lemma transcribe_audio_path_keeps_wf (audio_path : audio_input)
    (model_name device compute_type language task : str) (beam_size : Z) :
  respects keeps_cache_wf
    (transcribe_audio_path env audio_path model_name device compute_type
       language task beam_size).
Proof.
  intros w r w'. rewrite transcribe_audio_path_run.
  pose proof (get_model_keeps_wf env model_name device compute_type w) as Hget.
  destruct (get_model env model_name device compute_type w) as [[model|e] w1].
  all: specialize (Hget _ _ eq_refl).
  2:{ intros [= _ <-]. exact Hget. }
  cbv zeta.
  destruct (model_transcribe env _ _ _ _ _ _) as [segments|e];
    [|intros [= _ <-] Hwf; by apply cache_wf_log, Hget].
  destruct (failure segments);
    [intros [= _ <-] Hwf; by apply cache_wf_log, Hget|].
  destruct (build_srt _) as [srt_text|];
    [|intros [= _ <-] Hwf; by apply cache_wf_log, Hget].
  destruct (tempfile_mkdtemp env _ _) as [out_dir|];
    [|intros [= _ <-] Hwf; by apply cache_wf_log, cache_wf_log, Hget].
  destruct (write_text env _ _ _);
    [|intros [= _ <-] Hwf; by apply cache_wf_log, cache_wf_log, cache_wf_log,
                               Hget].
  destruct (write_text env _ _ _); intros [= _ <-] Hwf;
    by apply cache_wf_log, cache_wf_log, cache_wf_log, cache_wf_log, Hget.
Qed.

(** The invariant of the cache holds after every request. *)
Lemma transcribe_keeps_wf (audio_file : option audio_input)
    (youtube_url model_name device compute_type language task : str)
    (beam_size : Z) :
  respects keeps_cache_wf
    (transcribe env audio_file youtube_url model_name device compute_type
       language task beam_size).
Proof.
  intros w r w'. rewrite transcribe_run.
  destruct audio_file as [file|];
    [apply transcribe_audio_path_keeps_wf|].
  destruct (bool_decide _); [by intros [= _ <-]|].
  pose proof (download_keeps_wf env (strip youtube_url) w) as Hdl.
  destruct (download_youtube_audio env (strip youtube_url) w)
    as [[path|e] w1]; specialize (Hdl _ _ eq_refl).
  - intros Hrun Hwf.
    exact (transcribe_audio_path_keeps_wf _ _ _ _ _ _ _ _ _ _ Hrun (Hdl Hwf)).
  - intros [= _ <-]. exact Hdl.
Qed.

End TranscribeLemmas.

Section Properties.
Context (env : Env).

(** C1 (as the code has it). A result [transcribe] returns has either no
    path, and then a non-empty text, or both paths: the text file and the
    subtitle file of one directory, the one made after inference. The text
    that comes with the paths is made of the segments that the inference
    call of this request, on the resolved source with the engine of the
    request, yielded: their trimmed texts joined by line feeds, trimmed.
    It may be empty. *)
Theorem transcribe_paths_paired (audio_file : option audio_input)
    (youtube_url model_name device compute_type language task : str)
    (beam_size : Z) (w w' : World) (t : str) (txt srt : option str) :
  transcribe env audio_file youtube_url model_name device compute_type
    language task beam_size w = (Ok (t, txt, srt), w') →
  (txt = None ∧ srt = None ∧ t ≠ [])
  ∨ (∃ (audio_path : audio_input) (w0 : World) (model : engine) (w1 : World)
       (segments : SegmentStream) (out_dir : str),
       let inference :=
         EvModelTranscribe model audio_path beam_size
           (language_argument language) task in
       source_resolved env audio_file youtube_url w audio_path w0
       ∧ get_model env model_name device compute_type w0 = (Ok model, w1)
       ∧ model_transcribe env (trace w1) model audio_path beam_size
           (language_argument language) task = Ok segments
       ∧ failure segments = None
       ∧ tempfile_mkdtemp env (trace w1 ++ [inference]) (utf8 "transcript_")
         = Ok out_dir
       ∧ txt = Some (os_path_join env out_dir (utf8 "transcript.txt"))
       ∧ srt = Some (os_path_join env out_dir (utf8 "subtitles.srt"))
       ∧ t = strip (join NL (map (λ seg, strip (text seg))
                               (yielded segments)))).
Proof.
  assert (∀ audio_path w0,
            source_resolved env audio_file youtube_url w audio_path w0 →
            transcribe_audio_path env audio_path model_name device
              compute_type language task beam_size w0
            = (Ok (t, txt, srt), w') →
            (txt = None ∧ srt = None ∧ t ≠ [])
            ∨ (∃ (audio_path : audio_input) (w0 : World) (model : engine)
                 (w1 : World) (segments : SegmentStream) (out_dir : str),
                 let inference :=
                   EvModelTranscribe model audio_path beam_size
                     (language_argument language) task in
                 source_resolved env audio_file youtube_url w audio_path w0
                 ∧ get_model env model_name device compute_type w0
                   = (Ok model, w1)
                 ∧ model_transcribe env (trace w1) model audio_path beam_size
                     (language_argument language) task = Ok segments
                 ∧ failure segments = None
                 ∧ tempfile_mkdtemp env (trace w1 ++ [inference])
                     (utf8 "transcript_") = Ok out_dir
                 ∧ txt = Some (os_path_join env out_dir (utf8 "transcript.txt"))
                 ∧ srt = Some (os_path_join env out_dir (utf8 "subtitles.srt"))
                 ∧ t = strip (join NL (map (λ seg, strip (text seg))
                                         (yielded segments))))) as Hfrom.
  { intros audio_path w0 Hsrc Hrun.
    destruct (transcribe_audio_path_paired env _ _ _ _ _ _ _ _ _ _ _ _ Hrun)
      as [H|(model & w1 & segments & out_dir & H)]; [by left|].
    right. exists audio_path, w0, model, w1, segments, out_dir.
    cbv zeta in H |- *. split; [exact Hsrc|exact H]. }
  rewrite transcribe_run. destruct audio_file as [file|].
  - apply Hfrom. split; reflexivity.
  - destruct (bool_decide (strip youtube_url = [])) eqn:Hurl.
    + intros [= <- <- <- _]. left. auto using prompt_nonempty.
    + apply bool_decide_eq_false in Hurl.
      destruct (download_youtube_audio env (strip youtube_url) w)
        as [[path|e] w1] eqn:Hdl.
      * apply Hfrom. split; [exact Hurl|]. by exists path.
      * intros [= <- <- <- _]. left. auto using download_diagnostic_nonempty.
Qed.


(** C3. [format_timestamp] renders zero seconds, and an absent timestamp,
    as [00:00:00,000]. For a non-negative finite product [seconds * 1000]
    with exact value [m * 2^e], the result is [HH:MM:SS,mmm]: the total
    number of milliseconds [ms] is the integer nearest to [m * 2^e], the
    even one in a tie; minutes and seconds take two digits and are below
    60, milliseconds take three digits, hours take at least two digits and
    are not reduced modulo 24; and the four fields recombine to [ms]. The
    result is a function of the argument alone. *)
Theorem format_timestamp_spec (seconds : option float) (m e : Z) :
  format_timestamp (Some 0%float) = Ok (utf8 "00:00:00,000")
  ∧ format_timestamp None = format_timestamp (Some 0%float)
  ∧ (exact_value (default 0%float seconds * 1000) = Some (m, e) →
     (0 <= m)%Z →
     ∃ (ms : Z) (hh mm ss mmm : str),
       format_timestamp seconds
       = Ok (hh ++ utf8 ":" ++ mm ++ utf8 ":" ++ ss ++ utf8 "," ++ mmm)
       ∧ nearest_ties_even ms m e
       ∧ Forall (λ c, is_digit c = true) (hh ++ mm ++ ss ++ mmm)
       ∧ (2 <= length hh)%nat ∧ length mm = 2%nat ∧ length ss = 2%nat
       ∧ length mmm = 3%nat
       ∧ decimal_value mm < 60 ∧ decimal_value ss < 60
       ∧ Z.of_N (((decimal_value hh * 60 + decimal_value mm) * 60
                  + decimal_value ss) * 1000 + decimal_value mmm) = ms).
Proof.
  split; [vm_compute; reflexivity|]. split; [reflexivity|].
  apply format_timestamp_nonneg.
Qed.

(** C4. For segments with finite non-negative times, [build_srt] returns
    one entry per segment, in input order: entry [k] (from 0) is the number
    [k + 1], a line [start --> end] with both stamps of the shape
    [HH:MM:SS,mmm], and the trimmed text. The entries are separated by an
    empty line, and the text ends with one line feed that no white space
    precedes (so trailing white space of the joined entries is dropped,
    which only happens when the last trimmed text is empty). For no
    segments the result is a single line feed. *)
Theorem build_srt_entries (segments : list Segment) :
  Forall (λ seg, well_timed seg = true) segments →
  ∃ entries : list str,
    length entries = length segments
    ∧ (∀ (k : nat) (seg : Segment),
         segments !! k = Some seg →
         ∃ start_s end_s,
           format_timestamp (start seg) = Ok start_s
           ∧ format_timestamp (end_ seg) = Ok end_s
           ∧ is_timestamp start_s ∧ is_timestamp end_s
           ∧ entries !! k
             = Some (srt_entry (1 + Z.of_nat k) start_s end_s seg))
    ∧ build_srt segments = Ok (rstrip (join (NL ++ NL) entries) ++ NL)
    ∧ (∀ c, last (rstrip (join (NL ++ NL) entries)) = Some c →
            isspace c = false)
    ∧ (∀ seg, last segments = Some seg → strip (text seg) ≠ [] →
              build_srt segments = Ok (join (NL ++ NL) entries ++ NL))
    ∧ (segments = [] → build_srt segments = Ok NL).
Proof.
  intros Htimed.
  destruct (srt_blocks_entries segments Htimed 1)
    as (entries & Hblocks & Hlen & Hentries).
  assert (build_srt segments = Ok (rstrip (join (NL ++ NL) entries) ++ NL))
    as Hbuild.
  { unfold build_srt. rewrite Hblocks. cbv [mbind result_bind]. do 2 f_equal.
    destruct entries as [|first rest] eqn:E; [reflexivity|].
    rewrite join_closed_entries by done.
    destruct segments as [|seg0 segs]; [discriminate|].
    destruct (Hentries 0%nat seg0 eq_refl) as (s0 & e0 & _ & _ & _ & _ & H0).
    injection H0 as ->.
    destruct (str_of_int_head (1 + Z.of_nat 0)) as (c & tl & Hc & Hdig); [lia|].
    assert (∃ tl', srt_entry (1 + Z.of_nat 0) s0 e0 seg0 = c :: tl')
      as [tl' Hent].
    { unfold srt_entry. rewrite Hc. eexists. reflexivity. }
    rewrite Hent.
    destruct (join_head (NL ++ NL) c tl' rest) as (tail & Hj). rewrite Hj.
    unfold strip.
    rewrite <- app_comm_cons, lstrip_nonspace
      by (apply is_digit_not_space, Hdig).
    rewrite app_comm_cons.
    apply rstrip_snoc_space. reflexivity. }
  exists entries. split; [exact Hlen|]. split; [exact Hentries|].
  split; [exact Hbuild|]. split; [apply rstrip_last|]. split.
  - intros seg Hlast Hne. rewrite Hbuild. do 2 f_equal.
    assert (∃ s e n, last entries = Some (srt_entry n s e seg))
      as (s & e & n & Hle).
    { rewrite last_lookup in Hlast.
      destruct (Hentries _ _ Hlast) as (s & e & _ & _ & _ & _ & H).
      exists s, e, (1 + Z.of_nat (pred (length segments)))%Z.
      rewrite last_lookup, Hlen. exact H. }
    destruct (strip (text seg)) as [|x xs] eqn:Hx using rev_ind; [done|].
    clear IHxs.
    assert (last (join (NL ++ NL) entries) = Some x) as Hjl.
    { rewrite (join_last _ _ _ Hle).
      - unfold srt_entry. rewrite Hx, !app_assoc. apply last_snoc.
      - unfold srt_entry. rewrite Hx. intros E.
        apply (f_equal length) in E. rewrite !length_app in E.
        simpl in E. lia. }
    apply (rstrip_id _ x Hjl).
    apply strip_last with (s := text seg). rewrite Hx. apply last_snoc.
  - intros ->. reflexivity.
Qed.

(** C5 (as the code has it). Let the first, audio-only attempt end with a
    non-zero return code. Then the second attempt, format [best], is
    made. If it ends with return code zero, the combined error is not
    raised: the download directory is listed, every listed path that does
    not end in [.part] is checked in listing order, and the first listed
    path that does not end in [.part] and is a regular file is returned;
    only if there is none the download fails, with the no-file error. If
    the second attempt ends with a non-zero return code, the download
    fails with a [RuntimeError] whose message is the first diagnostic, an
    empty line, and the second diagnostic. *)
Theorem download_second_tier (url : str) (w : World) (tmpdir : str)
    (rc1 : Z) (err1 : str) :
  let outtmpl := os_path_join env tmpdir (utf8 "%(title)s.%(ext)s") in
  let cmd1 :=
    yt_dlp_cmd env (utf8 "bestaudio[ext=m4a]/bestaudio/best") outtmpl url in
  let cmd2 := yt_dlp_cmd env (utf8 "best") outtmpl url in
  let pattern := os_path_join env tmpdir (utf8 "*") in
  let w1 := log (EvMkdtemp (utf8 "yt_audio_")) w in
  let w2 := log (EvSubprocess cmd1 tmpdir) w1 in
  let w3 := log (EvSubprocess cmd2 tmpdir) w2 in
  tempfile_mkdtemp env (trace w) (utf8 "yt_audio_") = Ok tmpdir →
  subprocess_run env (trace w1) cmd1 tmpdir = Ok (rc1, err1) →
  rc1 ≠ 0%Z →
  match subprocess_run env (trace w2) cmd2 tmpdir with
  | Ok (rc2, err2) =>
      if bool_decide (rc2 = 0%Z) then
        let listing := glob_glob env (trace w3) pattern in
        ∃ chosen : option str,
          first_finished env (trace w3 ++ [EvGlob pattern]) listing chosen
          ∧ download_youtube_audio env url w
            = (match chosen with
               | None => Raise no_file_error
               | Some audio_path => Ok audio_path
               end,
               mk_world (MODEL_CACHE w)
                 (trace w3 ++ EvGlob pattern :: isfile_checks listing))
      else
        download_youtube_audio env url w
        = (Raise (mk_exn RuntimeError
                    (yt_dlp_diagnostic rc1 err1 ++ NL ++ NL
                     ++ yt_dlp_diagnostic rc2 err2)), w3)
  | Raise e2 =>
      download_youtube_audio env url w
      = (Raise (if is_RuntimeError e2
                then mk_exn RuntimeError
                       (yt_dlp_diagnostic rc1 err1 ++ NL ++ NL ++ exn_msg e2)
                else e2), w3)
  end.
Proof.
  intros outtmpl cmd1 cmd2 pattern w1 w2 w3 Hdir Htier1 Hrc1.
  assert (download_youtube_audio env url w
          = match subprocess_run env (trace w2) cmd2 tmpdir with
            | Ok (rc2, err2) =>
                if bool_decide (rc2 ≠ 0%Z)
                then (Raise (mk_exn RuntimeError
                               (yt_dlp_diagnostic rc1 err1 ++ NL ++ NL
                                ++ yt_dlp_diagnostic rc2 err2)), w3)
                else
                  (paths ← call (EvGlob pattern)
                             (λ h, Ok (glob_glob env h pattern));
                   files ← completed_files env paths;
                   match files with
                   | [] => raise no_file_error
                   | audio_path :: _ => mret audio_path
                   end) w3
            | Raise e2 =>
                (Raise (if is_RuntimeError e2
                        then mk_exn RuntimeError
                               (yt_dlp_diagnostic rc1 err1 ++ NL ++ NL
                                ++ exn_msg e2)
                        else e2), w3)
            end) as Hrun.
  { unfold download_youtube_audio.
    rewrite bind_run. unfold call at 1. rewrite Hdir.
    fold w1 outtmpl pattern.
    rewrite bind_run, try_except_run, run_yt_dlp_run.
    fold cmd1 w2. rewrite Htier1.
    rewrite bool_decide_eq_true_2 by exact Hrc1.
    cbn [is_RuntimeError exn_cls].
    rewrite try_except_run, run_yt_dlp_run. fold cmd2 w3.
    destruct (subprocess_run env (trace w2) cmd2 tmpdir) as [[rc2 err2]|e2].
    - destruct (bool_decide (rc2 ≠ 0%Z)).
      + cbn [is_RuntimeError exn_cls exn_msg app join].
        rewrite <- (app_assoc NL NL). reflexivity.
      + reflexivity.
    - destruct (is_RuntimeError e2); [|reflexivity].
      cbn [exn_msg app join]. rewrite <- (app_assoc NL NL). reflexivity. }
  rewrite Hrun. clear Hrun.
  destruct (subprocess_run env (trace w2) cmd2 tmpdir) as [[rc2 err2]|e2];
    [|reflexivity].
  destruct (decide (rc2 = 0%Z)) as [->|Hrc2].
  - rewrite bool_decide_eq_true_2 by reflexivity.
    rewrite bool_decide_eq_false_2 by (intros H; apply H; reflexivity).
    destruct (download_listing env tmpdir w3) as (chosen & Hfirst & Hrun).
    exists chosen. split; [exact Hfirst|]. exact Hrun.
  - rewrite bool_decide_eq_false_2 by exact Hrc2.
    rewrite bool_decide_eq_true_2 by exact Hrc2. reflexivity.
Qed.

(** C6. When [get_model] returns an engine for a key, that engine is in the
    cache under the key; on a miss it was constructed by this call and
    stored before being returned. A second call with the same key returns
    the same engine and makes no outside call (no construction). A call
    with a different key that returns, returns a different engine, and
    the first is still the one cached for its key. *)
Theorem get_model_cached (model_name device compute_type : str)
    (w w1 : World) (m : engine) :
  let key := (model_name, device, compute_type) in
  cache_wf w →
  get_model env model_name device compute_type w = (Ok m, w1) →
  MODEL_CACHE w1 !! key = Some m
  ∧ (MODEL_CACHE w !! key = None →
     w1 = mk_world (<[key := m]> (MODEL_CACHE w))
            (trace w ++ [EvWhisperModel key]))
  ∧ get_model env model_name device compute_type w1 = (Ok m, w1)
  ∧ ∀ (model_name' device' compute_type' : str) (m' : engine) (w2 : World),
      (model_name', device', compute_type') ≠ key →
      get_model env model_name' device' compute_type' w1 = (Ok m', w2) →
      m' ≠ m
      ∧ get_model env model_name device compute_type w2 = (Ok m, w2).
Proof.
  intros key Hwf Hrun.
  assert (cache_wf w1) as Hwf1 by exact (get_model_keeps_wf env _ _ _ _ _ _ Hrun Hwf).
  assert (MODEL_CACHE w1 !! key = Some m) as Hin.
  { destruct (get_model_cases env model_name device compute_type w)
      as [(m0 & Hc & E)|[(u & Hmiss & _ & E)|(e & _ & _ & E)]];
      rewrite E in Hrun; try discriminate; injection Hrun as <- <-.
    - exact Hc.
    - cbn [MODEL_CACHE]. apply lookup_insert_eq. }
  split; [exact Hin|]. split; [|split].
  - intros Hmiss.
    destruct (get_model_cases env model_name device compute_type w)
      as [(m0 & Hc & E)|[(u & _ & _ & E)|(e & _ & _ & E)]];
      rewrite E in Hrun; try discriminate; injection Hrun as <- <-.
    + fold key in Hc. congruence.
    + reflexivity.
  - by apply get_model_hit.
  - intros model_name' device' compute_type' m' w2 Hne Hrun'.
    assert (cache_wf w2) as Hwf2
      by exact (get_model_keeps_wf env _ _ _ _ _ _ Hrun' Hwf1).
    assert (MODEL_CACHE w2 !! key = Some m
            ∧ MODEL_CACHE w2 !! (model_name', device', compute_type') = Some m')
      as [Hk Hk'].
    { destruct (get_model_cases env model_name' device' compute_type' w1)
        as [(m0 & Hc & E)|[(u & Hmiss & _ & E)|(e & _ & _ & E)]];
        rewrite E in Hrun'; try discriminate; injection Hrun' as <- <-.
      - split; assumption.
      - cbn [MODEL_CACHE]. split.
        + rewrite lookup_insert_ne by exact Hne. exact Hin.
        + apply lookup_insert_eq. }
    split; [|by apply get_model_hit].
    intros ->. apply Hwf2 in Hk, Hk'. rewrite Hk in Hk'.
    apply Hne. congruence.
Qed.

(** C7. With no file and a URL that is empty or only whitespace,
    [transcribe] returns the prompt (a non-empty text) with both paths
    absent, and the world is left as it was: no download, no engine
    construction and no inference is attempted. *)
Theorem transcribe_no_source
    (youtube_url model_name device compute_type language task : str)
    (beam_size : Z) (w : World) :
  strip youtube_url = [] →
  ∃ prompt,
    transcribe env None youtube_url model_name device compute_type language
      task beam_size w = (Ok (prompt, None, None), w)
    ∧ prompt = utf8 "請先上傳檔案或輸入 YouTube 連結。"
    ∧ prompt ≠ [].
Proof.
  intros Hblank. eexists. split; [|split; [reflexivity|]].
  - unfold transcribe.
    rewrite !bool_decide_eq_true_2 by done. reflexivity.
  - vm_compute. discriminate.
Qed.

(** C8. With a file given, [transcribe] takes the audio path from it: a
    path string as it is (and the [name] of a file object that has one).
    The calls it then makes include no call of the download tool, no
    listing and no check that a path exists or is a file; every inference
    call is on that path, and there is one whenever the engine is
    obtained. *)
Theorem transcribe_local_path (file : audio_input)
    (youtube_url model_name device compute_type language task : str)
    (beam_size : Z) (w : World) :
  (∀ path, name_or_self (AudioPath path) = AudioPath path)
  ∧ (∀ c name, name_or_self (AudioObj (Some (c :: name))) = AudioPath (c :: name))
  ∧ ∃ r w' new,
      transcribe env (Some file) youtube_url model_name device compute_type
        language task beam_size w = (r, w')
      ∧ trace w' = trace w ++ new
      ∧ Forall (is_pipeline_event (name_or_self file)) new
      ∧ match get_model env model_name device compute_type w with
        | (Ok model, _) =>
            EvModelTranscribe model (name_or_self file) beam_size
              (language_argument language) task ∈ new
        | (Raise _, _) => True
        end.
Proof.
  split; [reflexivity|]. split; [reflexivity|].
  rewrite transcribe_run.
  destruct (transcribe_audio_path env (name_or_self file) model_name device
              compute_type language task beam_size w) as [r w'] eqn:Hrun.
  destruct (transcribe_audio_path_grows env _ _ _ _ _ _ _ _ _ _ Hrun)
    as (new & Htrace & Hall).
  exists r, w', new. split; [reflexivity|]. split; [exact Htrace|].
  split; [exact Hall|].
  pose proof (get_model_grows env model_name device compute_type w) as Hgrow.
  destruct (get_model env model_name device compute_type w)
    as [[model|e] w1] eqn:Hget; [|exact I].
  destruct (Hgrow _ _ eq_refl) as (new1 & Htrace1 & _).
  destruct (transcribe_audio_path_infers env (name_or_self file) _ _ _
              language task beam_size _ _ _ Hget) as (r' & w'' & rest & Hrun' & Ht).
  rewrite Hrun in Hrun'. injection Hrun' as <- <-.
  rewrite Htrace, Htrace1, <- app_assoc in Ht.
  apply app_inv_head in Ht. subst new.
  apply elem_of_app. right. left.
Qed.

(** C9. When [get_model] raises, the exception is the constructor's, the
    cache is what it was and has no entry for the key. The next call with
    the same key calls the constructor again: on success the fresh engine
    is returned and cached, on failure its exception is raised. In
    [transcribe] the failure becomes the load diagnostic. *)
Theorem get_model_failure_leaves_cache (model_name device compute_type : str)
    (w w1 : World) (e : exn) :
  let key := (model_name, device, compute_type) in
  get_model env model_name device compute_type w = (Raise e, w1) →
  WhisperModel env (trace w) key = Raise e
  ∧ MODEL_CACHE w1 = MODEL_CACHE w
  ∧ MODEL_CACHE w1 !! key = None
  ∧ trace w1 = trace w ++ [EvWhisperModel key]
  ∧ (∃ r w2,
       get_model env model_name device compute_type w1 = (r, w2)
       ∧ trace w2 = trace w1 ++ [EvWhisperModel key]
       ∧ match WhisperModel env (trace w1) key with
         | Ok _ => r = Ok (length (trace w1))
                   ∧ MODEL_CACHE w2 !! key = Some (length (trace w1))
         | Raise e' => r = Raise e' ∧ MODEL_CACHE w2 = MODEL_CACHE w
         end)
  ∧ ∀ (audio_path : audio_input) (language task : str) (beam_size : Z),
      transcribe_audio_path env audio_path model_name device compute_type
        language task beam_size w
      = (Ok (utf8 "載入模型失敗：" ++ exn_msg e, None, None), w1).
Proof.
  intros key Hrun. subst key.
  destruct (get_model_cases env model_name device compute_type w)
    as [(m0 & Hc & E)|[(u & Hmiss & _ & E)|(e0 & Hmiss & Hctor & E)]];
    rewrite E in Hrun; try discriminate; injection Hrun as <- <-.
  split; [exact Hctor|]. split; [reflexivity|]. split; [exact Hmiss|].
  split; [reflexivity|]. split.
  - destruct (get_model_cases env model_name device compute_type
                (log (EvWhisperModel (model_name, device, compute_type)) w))
      as [(m0 & Hc & _)|[(u & _ & Hctor' & E')|(e' & _ & Hctor' & E')]].
    + cbn [log MODEL_CACHE] in Hc. congruence.
    + eexists _, _. split; [exact E'|]. split; [reflexivity|].
      rewrite Hctor'. split; [reflexivity|].
      cbn [MODEL_CACHE]. apply lookup_insert_eq.
    + eexists _, _. split; [exact E'|]. split; [reflexivity|].
      rewrite Hctor'. split; reflexivity.
  - intros audio_path language task beam_size.
    unfold transcribe_audio_path.
    rewrite bind_run, try_except_run, bind_run, E. reflexivity.
Qed.


End Properties.

(** * Concrete runs *)

(** ** Examples *)

Example format_timestamp_zero :
  format_timestamp (Some 0%float) = Ok (utf8 "00:00:00,000").
Proof. vm_compute. reflexivity. Qed.

Example format_timestamp_None :
  format_timestamp None = Ok (utf8 "00:00:00,000").
Proof. vm_compute. reflexivity. Qed.

(** Ties go to the even millisecond: 62.5 to 62 and 187.5 to 188. *)
Example format_timestamp_ties :
  format_timestamp (Some 0.0625%float) = Ok (utf8 "00:00:00,062")
  ∧ format_timestamp (Some 0.1875%float) = Ok (utf8 "00:00:00,188").
Proof. split; vm_compute; reflexivity. Qed.

(** Hours are not reduced: 100 hours. *)
Example format_timestamp_100_hours :
  format_timestamp (Some 360000%float) = Ok (utf8 "100:00:00,000").
Proof. vm_compute. reflexivity. Qed.

(** Outside the range of segment times: a negative number of seconds goes
    through the floor division, and a NaN makes [round] raise. *)
Example format_timestamp_negative :
  format_timestamp (Some (-0x1p-10)%float) = Ok (utf8 "-1:59:59,999")
  ∧ format_timestamp (Some nan)
    = Raise (mk_exn ValueError (utf8 "cannot convert float NaN to integer")).
Proof. split; vm_compute; reflexivity. Qed.

Example build_srt_hello_world :
  build_srt (yielded hello_world)
  = Ok (utf8 "1
00:00:00,000 --> 00:00:01,200
hello

2
00:00:01,200 --> 00:00:02,500
world
").
Proof. vm_compute. reflexivity. Qed.

Example build_srt_empty : build_srt [] = Ok NL.
Proof. reflexivity. Qed.

(** The last text is only white space: its line is dropped. *)
Example build_srt_blank_last :
  build_srt [mk_segment (Some 0%float) (Some 1%float) (utf8 "hello");
             mk_segment (Some 1%float) (Some 2%float) (utf8 "  ")]
  = Ok (utf8 "1
00:00:00,000 --> 00:00:01,000
hello

2
00:00:01,000 --> 00:00:02,000
").
Proof. vm_compute. reflexivity. Qed.

Example transcribe_hello_world :
  fst (transcribe_file env_fine (utf8 "talk.wav") [] initial_world)
  = Ok (utf8 "hello
world",
        Some (utf8 "/tmp/transcript_2/transcript.txt"),
        Some (utf8 "/tmp/transcript_2/subtitles.srt")).
Proof. vm_compute. reflexivity. Qed.

(** The same request twice: one construction of the engine, two
    directories, the same content. *)
Example transcribe_twice :
  let run1 := transcribe_file env_fine (utf8 "talk.wav") [] initial_world in
  let run2 := transcribe_file env_fine (utf8 "talk.wav") [] (snd run1) in
  fst run2
  = Ok (utf8 "hello
world",
        Some (utf8 "/tmp/transcript_6/transcript.txt"),
        Some (utf8 "/tmp/transcript_6/subtitles.srt"))
  ∧ List.filter is_construction (trace (snd run2))
    = [EvWhisperModel (utf8 "small", utf8 "cuda", utf8 "float16")].
Proof. split; vm_compute; reflexivity. Qed.

(** A URL whose download goes to the second attempt. *)
Example download_by_second_tier :
  fst (download_youtube_audio env_second_tier some_url initial_world)
  = Ok (utf8 "/tmp/yt_audio_0/talk.mp4").
Proof. vm_compute. reflexivity. Qed.

(** ** Where the specification and the code part *)

(** C1. A silent recording: the model yields no segment, both files are
    written, and the text returned with their paths is empty. *)
Lemma transcribe_silence_empty_text_with_paths :
  fst (transcribe_file env_silence (utf8 "silence.wav") [] initial_world)
  = Ok ([], Some (utf8 "/tmp/transcript_2/transcript.txt"),
        Some (utf8 "/tmp/transcript_2/subtitles.srt"))
  ∧ ¬ success_or_failure
        ([], Some (utf8 "/tmp/transcript_2/transcript.txt"),
         Some (utf8 "/tmp/transcript_2/subtitles.srt")).
Proof.
  split; [vm_compute; reflexivity|].
  intros [(_ & _ & H)|[H _]]; [by apply H|discriminate].
Qed.


(** C5. The audio-only attempt fails, the second attempt ends with return
    code zero, and the download still fails: no file is found, and the
    message carries neither diagnostic. *)
Lemma download_fails_after_second_tier_succeeds :
  fst (download_youtube_audio env_no_file some_url initial_world)
  = Raise no_file_error
  ∧ map (λ ev, match ev with
               | EvSubprocess cmd _ =>
                   Some (cmd !! 4%nat, subprocess_run env_no_file [] cmd [])
               | _ => None
               end)
      (trace (snd (download_youtube_audio env_no_file some_url initial_world)))
    = [None;
       Some (Some (utf8 "bestaudio[ext=m4a]/bestaudio/best"),
             Ok (1%Z, utf8 "ERROR: HTTP Error 403: Forbidden"));
       Some (Some (utf8 "best"), Ok (0%Z, []));
       None].
Proof. split; vm_compute; reflexivity. Qed.

(** ** The theorems at concrete inputs *)

(** A request by URL that succeeds: the text is made of the two segments
    inference yielded on the downloaded file. *)
Lemma transcribe_paths_paired_witness :
  ∃ t txt srt w',
    transcribe env_fine None some_url (utf8 "small") (utf8 "cuda")
      (utf8 "float16") (utf8 "auto") (utf8 "transcribe") 5%Z initial_world
    = (Ok (t, Some txt, Some srt), w')
    ∧ ∃ (audio_path : audio_input) (model : engine) (w1 : World)
        (segments : SegmentStream),
        audio_path = AudioPath (utf8 "/tmp/yt_audio_0/talk.m4a")
        ∧ model_transcribe env_fine (trace w1) model audio_path 5%Z
            (language_argument (utf8 "auto")) (utf8 "transcribe")
          = Ok segments
        ∧ t = strip (join NL (map (λ seg, strip (text seg))
                                (yielded segments))).
Proof.
  eexists _, _, _, _. split; [vm_compute; reflexivity|].
  destruct (transcribe_paths_paired env_fine None some_url (utf8 "small")
              (utf8 "cuda") (utf8 "float16") (utf8 "auto") (utf8 "transcribe")
              5%Z initial_world _ _ _ _ ltac:(vm_compute; reflexivity))
    as [(H & _)|(audio_path & w0 & model & w1 & segments & out_dir & H)];
    [discriminate|].
  cbv zeta in H.
  destruct H as (Hsrc & _ & Hinfer & _ & _ & _ & _ & Ht).
  destruct Hsrc as (_ & path & Hdl & ->).
  vm_compute in Hdl. injection Hdl as <- _.
  eexists _, model, w1, segments. split; [vm_compute; reflexivity|].
  split; [exact Hinfer|exact Ht].
Defined.


(** 3661.5005 seconds: the product is exactly 3661500.5, a tie, and the even
    neighbour 3661500 is taken. *)
Lemma format_timestamp_spec_witness :
  exact_value (seconds_3661_5005 * 1000) = Some (7863012450893824%Z, (-31)%Z)
  ∧ format_timestamp (Some seconds_3661_5005) = Ok (utf8 "01:01:01,500")
  ∧ ∃ (ms : Z) (hh mm ss mmm : str),
      format_timestamp (Some seconds_3661_5005)
      = Ok (hh ++ utf8 ":" ++ mm ++ utf8 ":" ++ ss ++ utf8 "," ++ mmm)
      ∧ nearest_ties_even ms 7863012450893824%Z (-31)%Z
      ∧ Forall (λ c, is_digit c = true) (hh ++ mm ++ ss ++ mmm)
      ∧ (2 <= length hh)%nat ∧ length mm = 2%nat ∧ length ss = 2%nat
      ∧ length mmm = 3%nat
      ∧ decimal_value mm < 60 ∧ decimal_value ss < 60
      ∧ Z.of_N (((decimal_value hh * 60 + decimal_value mm) * 60
                 + decimal_value ss) * 1000 + decimal_value mmm) = ms.
Proof.
  split; [vm_compute; reflexivity|]. split; [vm_compute; reflexivity|].
  apply (format_timestamp_spec (Some seconds_3661_5005)
           7863012450893824%Z (-31)%Z).
  - vm_compute. reflexivity.
  - lia.
Defined.

Lemma build_srt_entries_witness :
  Forall (λ seg, well_timed seg = true) (yielded hello_world)
  ∧ ∃ entries : list str,
      length entries = 2%nat
      ∧ build_srt (yielded hello_world)
        = Ok (join (NL ++ NL) entries ++ NL).
Proof.
  assert (Forall (λ seg, well_timed seg = true) (yielded hello_world)) as H.
  { repeat constructor. }
  split; [exact H|].
  destruct (build_srt_entries (yielded hello_world) H)
    as (entries & Hlen & _ & _ & _ & Hlast & _).
  exists entries. split; [exact Hlen|].
  apply (Hlast (mk_segment (Some 0x1.3333333333333p+0%float) (Some 2.5%float)
                  (utf8 " world"))).
  - reflexivity.
  - vm_compute. discriminate.
Defined.

(** The second attempt leaves a partial file, a directory and two finished
    files: the first finished file is returned, after three checks. *)
Lemma download_second_tier_witness :
  ∃ (h : list event) (listing : list str),
    first_finished env_with_directory h listing
      (Some (utf8 "/tmp/yt_audio_0/talk.mp4"))
    ∧ listing
      = [utf8 "/tmp/yt_audio_0/talk.mp4.part"; utf8 "/tmp/yt_audio_0/thumbs";
         utf8 "/tmp/yt_audio_0/talk.mp4"; utf8 "/tmp/yt_audio_0/talk.webm"]
    ∧ download_youtube_audio env_with_directory some_url initial_world
      = (Ok (utf8 "/tmp/yt_audio_0/talk.mp4"),
         mk_world ∅
           (h ++ [EvIsFile (utf8 "/tmp/yt_audio_0/thumbs");
                  EvIsFile (utf8 "/tmp/yt_audio_0/talk.mp4");
                  EvIsFile (utf8 "/tmp/yt_audio_0/talk.webm")])).
Proof.
  pose proof (download_second_tier env_with_directory some_url initial_world
                (utf8 "/tmp/yt_audio_0") 1%Z
                (utf8 "ERROR: HTTP Error 403: Forbidden")) as H.
  cbv zeta in H.
  specialize (H ltac:(vm_compute; reflexivity) ltac:(vm_compute; reflexivity)
                ltac:(lia)).
  assert (download_youtube_audio env_with_directory some_url initial_world
          = (Ok (utf8 "/tmp/yt_audio_0/talk.mp4"),
             snd (download_youtube_audio env_with_directory some_url
                    initial_world))) as Hrun by (vm_compute; reflexivity).
  destruct (subprocess_run env_with_directory _ _ _) as [[rc2 err2]|e2] eqn:H2;
    vm_compute in H2; [|discriminate].
  injection H2 as <- <-. cbn [bool_decide decide_rel] in H.
  destruct H as ([p|] & Hfirst & Hdl); rewrite Hdl in Hrun;
    [|discriminate].
  injection Hrun as ->.
  eexists _, _. split; [exact Hfirst|]. split; [vm_compute; reflexivity|].
  vm_compute. reflexivity.
Defined.

Lemma get_model_cached_witness :
  cache_wf initial_world
  ∧ get_model env_fine (utf8 "small") (utf8 "cuda") (utf8 "float16")
      initial_world
    = (Ok 0%nat,
       mk_world {[ (utf8 "small", utf8 "cuda", utf8 "float16") := 0%nat ]}
         [EvWhisperModel (utf8 "small", utf8 "cuda", utf8 "float16")])
  ∧ get_model env_fine (utf8 "small") (utf8 "cuda") (utf8 "float16")
      (mk_world {[ (utf8 "small", utf8 "cuda", utf8 "float16") := 0%nat ]}
         [EvWhisperModel (utf8 "small", utf8 "cuda", utf8 "float16")])
    = (Ok 0%nat,
       mk_world {[ (utf8 "small", utf8 "cuda", utf8 "float16") := 0%nat ]}
         [EvWhisperModel (utf8 "small", utf8 "cuda", utf8 "float16")]).
Proof.
  split; [apply cache_wf_initial|].
  assert (get_model env_fine (utf8 "small") (utf8 "cuda") (utf8 "float16")
            initial_world
          = (Ok 0%nat,
             mk_world {[ (utf8 "small", utf8 "cuda", utf8 "float16") := 0%nat ]}
               [EvWhisperModel (utf8 "small", utf8 "cuda", utf8 "float16")]))
    as Hrun by (vm_compute; reflexivity).
  split; [exact Hrun|].
  exact (proj1 (proj2 (proj2 (get_model_cached env_fine _ _ _ _ _ _
                                cache_wf_initial Hrun)))).
Defined.

Lemma get_model_failure_leaves_cache_witness :
  ∃ e w1,
    get_model env_no_model (utf8 "small") (utf8 "cuda") (utf8 "float16")
      initial_world = (Raise e, w1)
    ∧ MODEL_CACHE w1 = MODEL_CACHE initial_world.
Proof.
  eexists _, _. split; [vm_compute; reflexivity|].
  refine (proj1 (proj2 (get_model_failure_leaves_cache env_no_model
                          (utf8 "small") (utf8 "cuda") (utf8 "float16")
                          initial_world _ _ _))).
  vm_compute. reflexivity.
Defined.


Lemma transcribe_no_source_witness :
  ∃ prompt,
    transcribe env_fine None (utf8 "  ") (utf8 "small") (utf8 "cuda")
      (utf8 "float16") (utf8 "auto") (utf8 "transcribe") 5%Z initial_world
    = (Ok (prompt, None, None), initial_world)
    ∧ prompt = utf8 "請先上傳檔案或輸入 YouTube 連結。"
    ∧ prompt ≠ [].
Proof. apply transcribe_no_source. vm_compute. reflexivity. Defined.

(** * Further properties of the pipeline *)

(** ** Timestamps *)

Lemma utf8_colon : utf8 ":" = [58].
Proof. vm_compute. reflexivity. Qed.

Lemma utf8_comma : utf8 "," = [44].
Proof. vm_compute. reflexivity. Qed.

(** The text [format_timestamp] builds from the rounded milliseconds. *)
Lemma format_timestamp_render (t : option float) (ms : Z) :
  py_round (default 0%float t * 1000) = Ok ms →
  format_timestamp t
  = Ok (format_0d 2 (ms / 3600000)
        ++ 58 :: format_0d 2 (ms mod 3600000 / 60000)
        ++ 58 :: format_0d 2 ((ms mod 3600000) mod 60000 / 1000)
        ++ 44 :: format_0d 3 (((ms mod 3600000) mod 60000) mod 1000)).
Proof.
  intros H. unfold format_timestamp.
  replace (match t with Some s => s | None => 0%float end)
    with (default 0%float t) by (destruct t; reflexivity).
  rewrite H, utf8_colon, utf8_comma. reflexivity.
Qed.

(** Minutes, seconds and milliseconds are in range whatever the sign. *)
Lemma clock_fields_any (ms : Z) :
  (0 <= ms mod 3600000 / 60000 < 60)%Z
  ∧ (0 <= (ms mod 3600000) mod 60000 / 1000 < 60)%Z
  ∧ (0 <= ((ms mod 3600000) mod 60000) mod 1000 < 1000)%Z
  ∧ (((ms / 3600000 * 60 + ms mod 3600000 / 60000) * 60
      + (ms mod 3600000) mod 60000 / 1000) * 1000
     + ((ms mod 3600000) mod 60000) mod 1000 = ms)%Z
  ∧ ((ms < 0)%Z → (ms / 3600000 <= -1)%Z)
  ∧ ((0 <= ms)%Z → (0 <= ms / 3600000)%Z).
Proof. Z.div_mod_to_equations. lia. Qed.

Lemma format_0d_negative (w : nat) (i : Z) :
  (i < 0)%Z →
  format_0d w i
  = 45 :: replicate (w - 1 - length (digits (Z.abs_N i))) 48
       ++ digits (Z.abs_N i).
Proof.
  intros Hi. unfold format_0d.
  destruct (Z.ltb_spec i 0) as [_|?]; [reflexivity|lia].
Qed.

(** Reading a rendered integer back gives the integer. *)
Lemma signed_value_format_0d (w : nat) (i : Z) :
  signed_value (format_0d w i) = i.
Proof.
  destruct (Z.lt_ge_cases i 0) as [Hneg|Hpos].
  - rewrite format_0d_negative by assumption. cbn [signed_value].
    rewrite decimal_value_zeros.
    destruct (digits_spec (Z.abs_N i)) as (_ & -> & _).
    rewrite N2Z.inj_abs_N. lia.
  - destruct (format_0d_nonneg w i Hpos) as (Hdig & Hval & Hlen & _).
    destruct (format_0d w i) as [|c rest] eqn:E.
    + destruct (digits_spec (Z.abs_N i)) as (_ & _ & _ & Hl & _).
      simpl in Hlen. lia.
    + assert (c ≠ 45) as Hc.
      { inversion Hdig as [|? ? Hd _]; subst. intros ->. discriminate. }
      unfold signed_value.
      destruct c as [|p]; [exact Hval|].
      destruct (decide (N.pos p = 45)) as [?|_]; [done|].
      do 6 (destruct p as [p|p|]; try exact Hval). all: done.
Qed.

Lemma format_0d_inj (w : nat) (i j : Z) :
  format_0d w i = format_0d w j → i = j.
Proof.
  intros H. rewrite <- (signed_value_format_0d w i), H.
  apply signed_value_format_0d.
Qed.

Lemma clock_tail_length (mm ss mmm : str) :
  length mm = 2%nat → length ss = 2%nat → length mmm = 3%nat →
  length (58 :: mm ++ 58 :: ss ++ 44 :: mmm) = 10%nat.
Proof.
  intros H1 H2 H3. cbn [length]. rewrite length_app. cbn [length].
  rewrite length_app. cbn [length]. rewrite H1, H2, H3. reflexivity.
Qed.

(** X1. Two timestamps whose rounded milliseconds differ are rendered
    differently. *)
Theorem format_timestamp_injective (t1 t2 : option float) (ms1 ms2 : Z) :
  py_round (default 0%float t1 * 1000) = Ok ms1 →
  py_round (default 0%float t2 * 1000) = Ok ms2 →
  format_timestamp t1 = format_timestamp t2 →
  ms1 = ms2.
Proof.
  intros H1 H2. rewrite (format_timestamp_render _ _ H1),
    (format_timestamp_render _ _ H2).
  destruct (clock_fields_any ms1) as (M1 & S1 & L1 & Sum1 & _).
  destruct (clock_fields_any ms2) as (M2 & S2 & L2 & Sum2 & _).
  intros [= E].
  apply app_inj_2 in E as [Eh E].
  2:{ rewrite !clock_tail_length; try reflexivity;
        apply format_0d_width; simpl; lia. }
  injection E as E.
  apply app_inj_1 in E as [Em E];
    [|rewrite !format_0d_width; simpl; lia].
  injection E as E.
  apply app_inj_1 in E as [Es E];
    [|rewrite !format_0d_width; simpl; lia].
  injection E as El.
  apply format_0d_inj in Eh, Em, Es, El. lia.
Qed.

Lemma format_timestamp_injective_witness :
  py_round (default 0%float (Some 1%float) * 1000) = Ok 1000%Z
  ∧ py_round (default 0%float (Some 0x1.0000000000001p+0%float) * 1000)
    = Ok 1000%Z
  ∧ 1000%Z = 1000%Z.
Proof.
  assert (py_round (default 0%float (Some 1%float) * 1000) = Ok 1000%Z) as H1
    by (vm_compute; reflexivity).
  assert (py_round (default 0%float (Some 0x1.0000000000001p+0%float) * 1000)
          = Ok 1000%Z) as H2 by (vm_compute; reflexivity).
  split; [exact H1|]. split; [exact H2|].
  apply (format_timestamp_injective (Some 1%float)
           (Some 0x1.0000000000001p+0%float) _ _ H1 H2).
  vm_compute. reflexivity.
Defined.

(** A string of [k] decimal digits denotes a number below [10^k]. *)
Lemma decimal_value_lt (s : str) :
  Forall (λ c, is_digit c = true) s →
  decimal_value s < 10 ^ N.of_nat (length s).
Proof.
  induction s as [|c s IH] using rev_ind; intros Hdig.
  - cbn. lia.
  - apply Forall_app in Hdig as [Hs Hc]. specialize (IH Hs).
    inversion Hc as [|? ? Hd _]; subst.
    unfold is_digit in Hd. apply andb_true_iff in Hd as [H1 H2].
    apply N.leb_le in H1, H2.
    rewrite decimal_value_snoc, length_app. cbn [length].
    replace (N.of_nat (length s + 1)) with (N.succ (N.of_nat (length s)))
      by lia.
    rewrite N.pow_succ_r'. lia.
Qed.

(** The decimal text of a positive number does not start with a zero. *)
Lemma digits_head (n : N) : n ≠ 0 → head (digits n) ≠ Some 48.
Proof.
  intros Hn.
  destruct (digits_spec n) as (Hdig & Hval & _ & _ & Hlb).
  specialize (Hlb Hn).
  destruct (digits n) as [|c s]; [discriminate|].
  intros [= ->]. apply Forall_cons in Hdig as [_ Hs].
  pose proof (decimal_value_lt s Hs) as Hlt.
  rewrite (decimal_value_zeros 1 s : decimal_value (48 :: s) = _) in Hval.
  cbn [length] in Hlb. rewrite Nat.sub_succ, Nat.sub_0_r in Hlb. lia.
Qed.

(** X2. A timestamp that rounds to a negative number of milliseconds is
    rendered with the sign in the hours field only: a minus sign, then
    the digits of an hour count of at least one with no zero in front (the
    width of two is taken up by the sign), and minutes, seconds and
    milliseconds counting up from that hour below zero (so -1 ms is
    [-1:59:59,999]). *)
Theorem format_timestamp_negative_fields (t : option float) (ms : Z) :
  py_round (default 0%float t * 1000) = Ok ms →
  (ms < 0)%Z →
  ∃ hh mm ss mmm : str,
    format_timestamp t = Ok (45 :: hh ++ 58 :: mm ++ 58 :: ss ++ 44 :: mmm)
    ∧ Forall (λ c, is_digit c = true) (hh ++ mm ++ ss ++ mmm)
    ∧ 1 <= decimal_value hh
    ∧ head hh ≠ Some 48
    ∧ length mm = 2%nat ∧ length ss = 2%nat ∧ length mmm = 3%nat
    ∧ decimal_value mm < 60 ∧ decimal_value ss < 60
    ∧ (ms = - Z.of_N (decimal_value hh) * 3600000
            + Z.of_N ((decimal_value mm * 60 + decimal_value ss) * 1000
                      + decimal_value mmm))%Z.
Proof.
  intros Hround Hneg.
  destruct (clock_fields_any ms) as (Hm & Hs & Hl & Hsum & Hh & _).
  specialize (Hh Hneg).
  destruct (format_0d_nonneg 2 (ms mod 3600000 / 60000))
    as (Dm & Vm & _ & _); [lia|].
  destruct (format_0d_nonneg 2 ((ms mod 3600000) mod 60000 / 1000))
    as (Ds & Vs & _ & _); [lia|].
  destruct (format_0d_nonneg 3 (((ms mod 3600000) mod 60000) mod 1000))
    as (Dl & Vl & _ & _); [lia|].
  destruct (digits_spec (Z.abs_N (ms / 3600000)))
    as (Dh & Vh & _ & Hlen & _).
  exists (digits (Z.abs_N (ms / 3600000))),
    (format_0d 2 (ms mod 3600000 / 60000)),
    (format_0d 2 ((ms mod 3600000) mod 60000 / 1000)),
    (format_0d 3 (((ms mod 3600000) mod 60000) mod 1000)).
  split.
  { rewrite (format_timestamp_render _ _ Hround).
    rewrite (format_0d_negative 2) by lia.
    replace (2 - 1 - length (digits (Z.abs_N (ms / 3600000))))%nat
      with 0%nat by lia.
    reflexivity. }
  split; [repeat (apply Forall_app; split); assumption|].
  split; [rewrite Vh; lia|].
  split; [apply digits_head; lia|].
  repeat (split; [apply format_0d_width; simpl; lia|]).
  split; [lia|]. split; [lia|].
  rewrite Vh, N2Z.inj_abs_N. lia.
Qed.

Lemma format_timestamp_negative_fields_witness :
  ∃ hh mm ss mmm : str,
    format_timestamp (Some (-0x1p-10)%float)
    = Ok (45 :: hh ++ 58 :: mm ++ 58 :: ss ++ 44 :: mmm)
    ∧ Forall (λ c, is_digit c = true) (hh ++ mm ++ ss ++ mmm)
    ∧ 1 <= decimal_value hh
    ∧ head hh ≠ Some 48
    ∧ length mm = 2%nat ∧ length ss = 2%nat ∧ length mmm = 3%nat
    ∧ decimal_value mm < 60 ∧ decimal_value ss < 60
    ∧ ((-1)%Z = - Z.of_N (decimal_value hh) * 3600000
                + Z.of_N ((decimal_value mm * 60 + decimal_value ss) * 1000
                          + decimal_value mmm))%Z.
Proof.
  apply (format_timestamp_negative_fields (Some (-0x1p-10)%float) (-1)%Z).
  - vm_compute. reflexivity.
  - lia.
Defined.

(** X3. A timestamp that rounds to a non-negative number of milliseconds
    is rendered in at least 12 characters, and in exactly 12 when it is
    below 100 hours. *)
Theorem format_timestamp_width (t : option float) (ms : Z) :
  py_round (default 0%float t * 1000) = Ok ms →
  (0 <= ms)%Z →
  ∃ s : str,
    format_timestamp t = Ok s
    ∧ (12 <= length s)%nat
    ∧ (length s = 12%nat ↔ (ms < 360000000)%Z).
Proof.
  intros Hround Hpos.
  destruct (clock_fields_any ms) as (Hm & Hs & Hl & Hsum & _ & Hh).
  specialize (Hh Hpos).
  eexists. split; [exact (format_timestamp_render _ _ Hround)|].
  rewrite length_app, clock_tail_length
    by (apply format_0d_width; simpl; lia).
  destruct (format_0d_nonneg 2 (ms / 3600000) Hh) as (_ & _ & -> & _).
  destruct (digits_spec (Z.abs_N (ms / 3600000)))
    as (_ & _ & Hub & Hlen & Hlb).
  split; [lia|]. split.
  - intros Hw.
    assert (length (digits (Z.abs_N (ms / 3600000))) <= 2)%nat as Hd by lia.
    assert (Z.abs_N (ms / 3600000) < 100) as Hlt.
    { eapply N.lt_le_trans; [exact Hub|].
      change 100 with (10 ^ N.of_nat 2). apply N.pow_le_mono_r; lia. }
    assert (ms / 3600000 < 100)%Z by lia.
    Z.div_mod_to_equations. lia.
  - intros Hlt.
    assert (ms / 3600000 < 100)%Z by (Z.div_mod_to_equations; lia).
    assert (length (digits (Z.abs_N (ms / 3600000))) <= 2)%nat; [|lia].
    apply digits_length_le; [lia|]. simpl. lia.
Qed.

Lemma format_timestamp_width_witness :
  ∃ s : str,
    format_timestamp (Some 360000%float) = Ok s
    ∧ (12 <= length s)%nat
    ∧ (length s = 12%nat ↔ (360000000 < 360000000)%Z).
Proof.
  apply (format_timestamp_width (Some 360000%float) 360000000%Z).
  - vm_compute. reflexivity.
  - lia.
Defined.

(** ** Trimming *)

(** [lstrip] removes a prefix of white space. *)
Lemma lstrip_split (s : str) :
  ∃ spaces, s = spaces ++ lstrip s ∧ blank spaces = true.
Proof.
  induction s as [|c s (spaces & E & B)].
  - exists []. split; reflexivity.
  - simpl. destruct (isspace c) eqn:Hc.
    + exists (c :: spaces). split; [simpl; congruence|].
      simpl. rewrite Hc. exact B.
    + exists []. split; reflexivity.
Qed.

Lemma blank_app (s1 s2 : str) :
  blank (s1 ++ s2) = blank s1 && blank s2.
Proof. apply forallb_app. Qed.

Lemma blank_rev (s : str) : blank (rev s) = blank s.
Proof.
  induction s as [|c s IH]; [reflexivity|].
  simpl. rewrite blank_app, IH. simpl. rewrite andb_true_r.
  apply andb_comm.
Qed.

Lemma lstrip_blank (s : str) : lstrip s = [] ↔ blank s = true.
Proof.
  induction s as [|c s IH]; [done|].
  simpl. destruct (isspace c); [exact IH|]. split; discriminate.
Qed.

(** [rstrip] removes a suffix of white space. *)
Lemma rstrip_split (s : str) :
  ∃ spaces, s = rstrip s ++ spaces ∧ blank spaces = true.
Proof.
  destruct (lstrip_split (rev s)) as (spaces & E & B).
  exists (rev spaces). split; [|by rewrite blank_rev].
  unfold rstrip. rewrite <- rev_app_distr, <- E. symmetry.
  apply rev_involutive.
Qed.

Lemma rstrip_blank (s : str) : rstrip s = [] ↔ blank s = true.
Proof.
  unfold rstrip. rewrite <- (blank_rev s), <- lstrip_blank.
  split; intros H.
  - apply (f_equal (@rev N)) in H. rewrite rev_involutive in H. exact H.
  - rewrite H. reflexivity.
Qed.

(** Trimming gives the empty text exactly for blank texts. *)
Lemma strip_blank (s : str) : strip s = [] ↔ blank s = true.
Proof.
  unfold strip. rewrite rstrip_blank.
  destruct (lstrip_split s) as (spaces & E & B).
  rewrite E at 2. rewrite blank_app, B. reflexivity.
Qed.

(** What [strip] leaves does not start with white space. *)
Lemma strip_head (s : str) (c : N) :
  head (strip s) = Some c → isspace c = false.
Proof.
  unfold strip. intros H.
  destruct (rstrip_split (lstrip s)) as (spaces & E & _).
  apply (lstrip_head s). rewrite E.
  destruct (rstrip (lstrip s)); [discriminate|exact H].
Qed.

(** A text with no white space at either end is left as it is. *)
Lemma strip_clean (s : str) :
  (∀ c, head s = Some c → isspace c = false) →
  (∀ c, last s = Some c → isspace c = false) →
  strip s = s.
Proof.
  intros Hhead Hlast. unfold strip.
  destruct s as [|c s]; [reflexivity|].
  rewrite lstrip_nonspace by (apply Hhead; reflexivity).
  destruct (last (c :: s)) as [d|] eqn:Hd.
  - apply (rstrip_id _ d Hd). by apply Hlast.
  - apply last_None in Hd. discriminate.
Qed.

Lemma strip_idemp (s : str) : strip (strip s) = strip s.
Proof. apply strip_clean; [apply strip_head|apply strip_last]. Qed.

(** ** The subtitle text, further *)

Lemma srt_block_trimmed (i : Z) (seg : Segment) :
  srt_block i (trimmed seg) = srt_block i seg.
Proof. unfold srt_block, trimmed. cbn [start end_ text]. by rewrite strip_idemp. Qed.

Lemma srt_blocks_trimmed (segments : list Segment) :
  ∀ i, srt_blocks i (map trimmed segments) = srt_blocks i segments.
Proof.
  induction segments as [|seg rest IH]; intros i; [reflexivity|].
  cbn [map srt_blocks]. by rewrite srt_block_trimmed, IH.
Qed.

(** X4. White space around the texts of the segments does not show in the
    subtitles: segments trimmed beforehand give the same result. *)
Theorem build_srt_trimmed (segments : list Segment) :
  build_srt (map trimmed segments) = build_srt segments.
Proof. unfold build_srt. by rewrite srt_blocks_trimmed. Qed.

Lemma srt_block_ok (i : Z) (seg : Segment) :
  stamps_ok seg = true → ∃ block, srt_block i seg = Ok block.
Proof.
  unfold stamps_ok, srt_block. intros H. apply andb_true_iff in H as [H1 H2].
  destruct (format_timestamp (start seg)); [|discriminate].
  destruct (format_timestamp (end_ seg)); [|discriminate].
  eexists. reflexivity.
Qed.

Lemma srt_block_raise (i : Z) (seg : Segment) (e : exn) :
  srt_block i seg = Raise e
  ↔ format_timestamp (start seg) = Raise e
    ∨ (is_Ok (format_timestamp (start seg)) = true
       ∧ format_timestamp (end_ seg) = Raise e).
Proof.
  unfold srt_block.
  destruct (format_timestamp (start seg)) as [s|e1]; cbn.
  - destruct (format_timestamp (end_ seg)) as [s'|e2]; cbn.
    + split; [discriminate|]. intros [?|[_ ?]]; discriminate.
    + split; [intros [= ->]; right; done|].
      intros [?|[_ [= ->]]]; [discriminate|reflexivity].
  - split; [intros [= ->]; by left|].
    intros [[= ->]|[? _]]; [reflexivity|discriminate].
Qed.

Lemma srt_blocks_raise (segments : list Segment) (e : exn) :
  ∀ i,
    srt_blocks i segments = Raise e
    ↔ ∃ before seg after,
        segments = before ++ seg :: after
        ∧ Forall (λ s, stamps_ok s = true) before
        ∧ (format_timestamp (start seg) = Raise e
           ∨ (is_Ok (format_timestamp (start seg)) = true
              ∧ format_timestamp (end_ seg) = Raise e)).
Proof.
  induction segments as [|seg rest IH]; intros i.
  - split; [discriminate|]. intros (before & s & after & E & _).
    destruct before; discriminate.
  - cbn [srt_blocks]. split.
    + destruct (srt_block i seg) as [block|e1] eqn:Hb; cbn.
      * destruct (srt_blocks (i + 1) rest) as [blocks|e2] eqn:Hr; cbn;
          [discriminate|].
        intros [= ->]. apply IH in Hr as (before & s & after & -> & Hall & H).
        exists (seg :: before), s, after. split; [reflexivity|].
        split; [|exact H]. constructor; [|exact Hall].
        unfold stamps_ok. unfold srt_block in Hb.
        destruct (format_timestamp (start seg)); [|discriminate].
        destruct (format_timestamp (end_ seg)); [reflexivity|discriminate].
      * intros [= ->]. exists [], seg, rest. split; [reflexivity|].
        split; [constructor|]. by apply srt_block_raise in Hb.
    + intros (before & s & after & E & Hall & H).
      destruct before as [|b before].
      * injection E as <- <-. apply (srt_block_raise i) in H. rewrite H.
        reflexivity.
      * injection E as <- ->. inversion Hall as [|? ? Hb Hall']; subst.
        destruct (srt_block_ok i seg Hb) as (block & ->). cbn.
        assert (srt_blocks (i + 1) (before ++ s :: after) = Raise e) as ->
          by (apply IH; eauto 6).
        reflexivity.
Qed.

(** [format_timestamp] returns exactly when the product is a number. *)
Lemma format_timestamp_roundable (t : option float) :
  is_Ok (format_timestamp t) = roundable t.
Proof.
  unfold format_timestamp, roundable, exact_value, py_round.
  replace (match t with Some s => s | None => 0%float end)
    with (default 0%float t) by (destruct t; reflexivity).
  destruct (Prim2SF (default 0%float t * 1000)); reflexivity.
Qed.

(** It raises the exception of [round]: [ValueError] for a NaN,
    [OverflowError] for an infinity. *)
Lemma format_timestamp_raise (t : option float) (e : exn) :
  format_timestamp t = Raise e ↔ round_error t = Some e.
Proof.
  unfold format_timestamp, round_error, py_round.
  replace (match t with Some s => s | None => 0%float end)
    with (default 0%float t) by (destruct t; reflexivity).
  destruct (Prim2SF (default 0%float t * 1000)); cbn;
    split; intros [= ->]; reflexivity.
Qed.

(** X5. [build_srt] raises exactly when for some start or end time the
    product [seconds * 1000] is not a number or is infinite (as it is for
    an infinite time, and for a finite time so large that the product
    overflows). The exception is that of the first such time, segments in
    order and the start before the end: [ValueError] for a NaN,
    [OverflowError] for an infinity. Nothing of the earlier segments is
    returned. *)
Theorem build_srt_first_failure (segments : list Segment) (e : exn) :
  build_srt segments = Raise e
  ↔ ∃ before seg after t,
      segments = before ++ seg :: after
      ∧ Forall (λ s, roundable (start s) && roundable (end_ s) = true) before
      ∧ (t = start seg ∨ (roundable (start seg) = true ∧ t = end_ seg))
      ∧ match Prim2SF (default 0%float t * 1000) with
        | S754_nan =>
            e = mk_exn ValueError (utf8 "cannot convert float NaN to integer")
        | S754_infinity _ =>
            e = mk_exn OverflowError
                  (utf8 "cannot convert float infinity to integer")
        | S754_zero _ | S754_finite _ _ _ => False
        end.
Proof.
  assert (∀ t, round_error t = Some e
               ↔ match Prim2SF (default 0%float t * 1000) with
                 | S754_nan =>
                     e = mk_exn ValueError
                           (utf8 "cannot convert float NaN to integer")
                 | S754_infinity _ =>
                     e = mk_exn OverflowError
                           (utf8 "cannot convert float infinity to integer")
                 | S754_zero _ | S754_finite _ _ _ => False
                 end) as Herr.
  { intros t. unfold round_error, py_round.
    destruct (Prim2SF (default 0%float t * 1000));
      split; intros H; try done; congruence. }
  assert (build_srt segments = Raise e ↔ srt_blocks 1 segments = Raise e)
    as ->.
  { unfold build_srt. destruct (srt_blocks 1 segments); cbn;
      [split; discriminate|]. split; intros [= ->]; reflexivity. }
  rewrite (srt_blocks_raise segments e 1). split.
  - intros (before & seg & after & -> & Hall & H).
    exists before, seg, after,
      (if is_Ok (format_timestamp (start seg)) then end_ seg else start seg).
    split; [reflexivity|]. split.
    { eapply Forall_impl; [exact Hall|]. intros s.
      unfold stamps_ok. by rewrite !format_timestamp_roundable. }
    destruct H as [H|[Hok H]].
    + rewrite H. cbn [is_Ok]. split; [by left|].
      by apply Herr, format_timestamp_raise.
    + rewrite Hok. split; [|by apply Herr, format_timestamp_raise].
      right. by rewrite <- format_timestamp_roundable.
  - intros (before & seg & after & t & -> & Hall & Ht & H).
    exists before, seg, after. split; [reflexivity|]. split.
    { eapply Forall_impl; [exact Hall|]. intros s.
      unfold stamps_ok. by rewrite !format_timestamp_roundable. }
    apply Herr, format_timestamp_raise in H.
    destruct Ht as [->|[Hok ->]]; [by left|right].
    by rewrite format_timestamp_roundable.
Qed.

(** A finite time whose product with 1000 overflows: 2^1020 seconds. *)
Example build_srt_overflow :
  roundable (Some 0x1p+1020%float) = false
  ∧ Prim2SF 0x1p+1020%float = S754_finite false 4503599627370496 968
  ∧ build_srt [mk_segment (Some 0%float) (Some 0x1p+1020%float) (utf8 "late")]
    = Raise (mk_exn OverflowError
               (utf8 "cannot convert float infinity to integer")).
Proof. repeat split; vm_compute; reflexivity. Qed.

(** ** The cache across a request *)

Global Instance cache_step_preorder (key : EngineKey) :
  PreOrder (cache_step key).
Proof.
  split.
  - intros w. by left.
  - intros w1 w2 w3 [E12|(Hnone & m & E12)] [E23|(Hnone' & m' & E23)].
    + left. congruence.
    + right. rewrite E12 in Hnone'. split; [exact Hnone'|].
      exists m'. congruence.
    + right. split; [exact Hnone|]. exists m. congruence.
    + rewrite E12, lookup_insert_eq in Hnone'. discriminate.
Qed.

Lemma cache_step_log (key : EngineKey) (ev : event) (w : World) :
  cache_step key w (log ev w).
Proof. by left. Qed.

Lemma cache_step_subseteq (key : EngineKey) (w w' : World) :
  cache_step key w w' → MODEL_CACHE w ⊆ MODEL_CACHE w'.
Proof.
  intros [->|(Hnone & m & ->)]; [done|]. by apply insert_subseteq.
Qed.

Lemma get_model_cache_step (env : Env) (model_name device compute_type : str) :
  respects (cache_step (model_name, device, compute_type))
    (get_model env model_name device compute_type).
Proof.
  intros w r w' Hrun.
  destruct (get_model_cases env model_name device compute_type w)
    as [(m & _ & E)|[(u & Hmiss & _ & E)|(e & _ & _ & E)]];
    rewrite E in Hrun; injection Hrun as <- <-.
  - by left.
  - right. split; [exact Hmiss|]. eexists. reflexivity.
  - by left.
Qed.

(** A relation kept by every outside call and by [get_model] is kept by a
    whole request. *)
Section TranscribeRespects.
Context (env : Env) (R : World → World → Prop) `{!PreOrder R}.
Context (Hlog : ∀ ev w, R w (log ev w)).
Context (model_name device compute_type : str).
Context (Hget : respects R (get_model env model_name device compute_type)).

Lemma transcribe_audio_path_respects (audio_path : audio_input)
    (language task : str) (beam_size : Z) :
  respects R
    (transcribe_audio_path env audio_path model_name device compute_type
       language task beam_size).
Proof.
  unfold transcribe_audio_path.
  apply (respects_bind R).
  { apply (respects_try R).
    - apply (respects_bind R); [exact Hget|]. intros m.
      by apply (respects_ret R).
    - intros e. by apply (respects_ret R). }
  intros [model|early]; [|by apply (respects_ret R)].
  apply (respects_bind R).
  { apply (respects_try R).
    - apply (respects_bind R); [by apply (respects_call R)|].
      intros segments. by apply (respects_ret R).
    - intros e. by apply (respects_ret R). }
  intros [segments|early]; [|by apply (respects_ret R)].
  apply (respects_bind R).
  { unfold collect_segments. destruct (failure segments);
      [by apply (respects_raise R)|by apply (respects_ret R)]. }
  intros [lines seg_list].
  apply (respects_bind R); [by apply (respects_lift R)|]. intros srt_text.
  apply (respects_bind R); [by apply (respects_call R)|]. intros out_dir.
  apply (respects_bind R); [by apply (respects_call R)|]. intros _.
  apply (respects_bind R); [by apply (respects_call R)|]. intros _.
  by apply (respects_ret R).
Qed.

Lemma transcribe_respects (audio_file : option audio_input)
    (youtube_url language task : str) (beam_size : Z) :
  respects R
    (transcribe env audio_file youtube_url model_name device compute_type
       language task beam_size).
Proof.
  intros w r w'. rewrite transcribe_run.
  destruct audio_file as [file|];
    [apply transcribe_audio_path_respects|].
  destruct (bool_decide _); [intros [= _ <-]; reflexivity|].
  assert (respects R (download_youtube_audio env (strip youtube_url))) as Hdl
    by (apply download_respects; [done|]; intros ev w0 _; apply Hlog).
  specialize (Hdl w).
  destruct (download_youtube_audio env (strip youtube_url) w)
    as [[path|e] w1]; specialize (Hdl _ _ eq_refl).
  - intros Hrun. transitivity w1; [exact Hdl|].
    exact (transcribe_audio_path_respects _ _ _ _ _ _ _ Hrun).
  - intros [= _ <-]. exact Hdl.
Qed.

End TranscribeRespects.

(** X6. A request never removes or replaces an engine of the cache: the
    cache after [transcribe], however it ends, is the cache before, or the
    cache before with one new entry, for the key of the request, which had
    none. Every other key keeps what it had. *)
Theorem transcribe_cache_step (env : Env) (audio_file : option audio_input)
    (youtube_url model_name device compute_type language task : str)
    (beam_size : Z) (w w' : World) (r : result TranscriptionResult) :
  transcribe env audio_file youtube_url model_name device compute_type
    language task beam_size w = (r, w') →
  cache_step (model_name, device, compute_type) w w'
  ∧ MODEL_CACHE w ⊆ MODEL_CACHE w'
  ∧ ∀ key, key ≠ (model_name, device, compute_type) →
           MODEL_CACHE w' !! key = MODEL_CACHE w !! key.
Proof.
  intros Hrun.
  assert (cache_step (model_name, device, compute_type) w w') as Hstep.
  { eapply (transcribe_respects env (cache_step _)); [|exact (get_model_cache_step env _ _ _)|exact Hrun].
    apply cache_step_log. }
  split; [exact Hstep|]. split; [by eapply cache_step_subseteq|].
  intros key Hne. destruct Hstep as [->|(_ & m & ->)]; [done|].
  by apply lookup_insert_ne.
Qed.

Lemma transcribe_cache_step_witness :
  ∃ r w',
    transcribe_file env_fine (utf8 "talk.wav") [] initial_world = (r, w')
    ∧ MODEL_CACHE initial_world ⊆ MODEL_CACHE w'.
Proof.
  eexists _, _. split; [vm_compute; reflexivity|].
  refine (proj1 (proj2 (transcribe_cache_step env_fine
                          (Some (AudioPath (utf8 "talk.wav"))) []
                          (utf8 "small") (utf8 "cuda") (utf8 "float16")
                          (utf8 "auto") (utf8 "transcribe") 5%Z initial_world
                          _ _ _))).
  vm_compute. reflexivity.
Defined.

(** ** What a request leaves behind *)

(** Case analysis on the stage at the head of an equation about a run. *)
Ltac stage_case H :=
  match goal with
  | |- (match ?x with _ => _ end = _) → _ => destruct x eqn:H
  end.

Section RequestLemmas.
Context (env : Env).

(** After the engine is obtained the cache is not touched again. *)
Lemma transcribe_audio_path_cache (audio_path : audio_input)
    (model_name device compute_type language task : str) (beam_size : Z)
    (w w1 w' : World) (model : engine) (r : result TranscriptionResult) :
  get_model env model_name device compute_type w = (Ok model, w1) →
  transcribe_audio_path env audio_path model_name device compute_type
    language task beam_size w = (r, w') →
  MODEL_CACHE w' = MODEL_CACHE w1.
Proof.
  intros Hget. rewrite transcribe_audio_path_run, Hget. cbv zeta.
  destruct (model_transcribe env _ _ _ _ _ _) as [segments|e];
    [|by intros [= _ <-]].
  destruct (failure segments); [by intros [= _ <-]|].
  destruct (build_srt _) as [srt_text|]; [|by intros [= _ <-]].
  destruct (tempfile_mkdtemp env _ _) as [out_dir|]; [|by intros [= _ <-]].
  stage_case Htxt; [|by intros [= _ <-]].
  stage_case Hsrt; by intros [= _ <-].
Qed.

(** [transcribe] is [transcribe_audio_path] from the resolved source. *)
Lemma transcribe_from_source (audio_file : option audio_input)
    (youtube_url model_name device compute_type language task : str)
    (beam_size : Z) (w w0 : World) (audio_path : audio_input) :
  source_resolved env audio_file youtube_url w audio_path w0 →
  transcribe env audio_file youtube_url model_name device compute_type
    language task beam_size w
  = transcribe_audio_path env audio_path model_name device compute_type
      language task beam_size w0.
Proof.
  rewrite transcribe_run. unfold source_resolved.
  destruct audio_file as [file|].
  - intros [-> ->]. reflexivity.
  - intros (Hurl & path & Hdl & ->).
    rewrite bool_decide_eq_false_2 by exact Hurl. rewrite Hdl. reflexivity.
Qed.

(** A result with both paths: every stage went through. *)
Lemma transcribe_audio_path_success (audio_path : audio_input)
    (model_name device compute_type language task : str) (beam_size : Z)
    (w w' : World) (t p q : str) :
  transcribe_audio_path env audio_path model_name device compute_type
    language task beam_size w = (Ok (t, Some p, Some q), w') →
  ∃ model w1 segments srt_text,
    get_model env model_name device compute_type w = (Ok model, w1)
    ∧ model_transcribe env (trace w1) model audio_path beam_size
        (language_argument language) task = Ok segments
    ∧ failure segments = None
    ∧ build_srt (yielded segments) = Ok srt_text
    ∧ t = strip (join NL (map (λ seg, strip (text seg)) (yielded segments)))
    ∧ trace w'
      = trace w1
        ++ [EvModelTranscribe model audio_path beam_size
              (language_argument language) task;
            EvMkdtemp (utf8 "transcript_"); EvWrite p t; EvWrite q srt_text].
Proof.
  rewrite transcribe_audio_path_run.
  destruct (get_model env model_name device compute_type w)
    as [[model|e] w1]; [|discriminate].
  cbv zeta.
  destruct (model_transcribe env _ _ _ _ _ _) as [segments|e] eqn:Hinfer;
    [|discriminate].
  destruct (failure segments) eqn:Hfail; [discriminate|].
  destruct (build_srt _) as [srt_text|] eqn:Hsrt; [|discriminate].
  destruct (tempfile_mkdtemp env _ _) as [out_dir|]; [|discriminate].
  stage_case Hw1; [|discriminate].
  stage_case Hw2; [|discriminate].
  intros [= <- <- <- <-].
  exists model, w1, segments, srt_text.
  repeat (split; [done|]). cbn [log trace]. by rewrite <- !app_assoc.
Qed.

(** A result without paths: nothing of the result files was touched. *)
Lemma transcribe_audio_path_no_artifact (audio_path : audio_input)
    (model_name device compute_type language task : str) (beam_size : Z)
    (w w' : World) (t : str) :
  transcribe_audio_path env audio_path model_name device compute_type
    language task beam_size w = (Ok (t, None, None), w') →
  grows_by (λ ev, is_artifact_event ev = false) w w'.
Proof.
  rewrite transcribe_audio_path_run.
  pose proof (get_model_grows env model_name device compute_type w) as Hget.
  destruct (get_model env model_name device compute_type w)
    as [[model|e] w1].
  all: assert (grows_by (λ ev, is_artifact_event ev = false) w w1) as Hw1
    by (eapply grows_by_weaken; [|exact (Hget _ _ eq_refl)];
        by intros ev ->).
  2:{ intros [= _ <-]. exact Hw1. }
  cbv zeta.
  destruct (model_transcribe env _ _ _ _ _ _) as [segments|e].
  2:{ intros [= _ <-]. transitivity w1; [exact Hw1|]. by apply grows_by_log. }
  destruct (failure segments); [discriminate|].
  destruct (build_srt _) as [srt_text|]; [|discriminate].
  destruct (tempfile_mkdtemp env _ _) as [out_dir|]; [|discriminate].
  stage_case H1; [|discriminate].
  stage_case H2; discriminate.
Qed.

Lemma download_event_not_artifact (ev : event) :
  is_download_event ev = true → is_artifact_event ev = false.
Proof.
  destruct ev; try done. cbn. intros H. apply bool_decide_eq_true in H as ->.
  vm_compute. reflexivity.
Qed.

End RequestLemmas.

(** X7. Once [get_model] has returned the engine, the rest of the request
    does not touch the cache: however [transcribe] ends, also by an
    exception, the engine is cached under the key of the request and the
    next [get_model] with that key returns it without constructing. *)
Theorem transcribe_keeps_engine (env : Env) (audio_file : option audio_input)
    (youtube_url model_name device compute_type language task : str)
    (beam_size : Z) (w w0 w1 w' : World) (audio_path : audio_input)
    (model : engine) (r : result TranscriptionResult) :
  source_resolved env audio_file youtube_url w audio_path w0 →
  get_model env model_name device compute_type w0 = (Ok model, w1) →
  transcribe env audio_file youtube_url model_name device compute_type
    language task beam_size w = (r, w') →
  MODEL_CACHE w' !! (model_name, device, compute_type) = Some model
  ∧ get_model env model_name device compute_type w' = (Ok model, w').
Proof.
  intros Hsrc Hget. rewrite (transcribe_from_source env _ _ _ _ _ _ _ _ _ _ _ Hsrc).
  intros Hrun.
  assert (MODEL_CACHE w' !! (model_name, device, compute_type) = Some model)
    as Hin.
  { rewrite (transcribe_audio_path_cache env _ _ _ _ _ _ _ _ _ _ _ _ Hget Hrun).
    destruct (get_model_cases env model_name device compute_type w0)
      as [(m0 & Hc & E)|[(u & Hmiss & _ & E)|(e & _ & _ & E)]];
      rewrite E in Hget; try discriminate; injection Hget as <- <-.
    - exact Hc.
    - apply lookup_insert_eq. }
  split; [exact Hin|]. by apply get_model_hit.
Qed.

(** The disk fills up after the engine was loaded: the request raises, the
    engine stays. *)
Lemma transcribe_keeps_engine_witness :
  ∃ r w',
    transcribe_file env_disk_full (utf8 "talk.wav") [] initial_world = (r, w')
    ∧ is_Ok r = false
    ∧ MODEL_CACHE w' !! (utf8 "small", utf8 "cuda", utf8 "float16")
      = Some 0%nat.
Proof.
  eexists _, _. split; [vm_compute; reflexivity|].
  split; [reflexivity|].
  refine (proj1 (transcribe_keeps_engine env_disk_full
                   (Some (AudioPath (utf8 "talk.wav"))) [] (utf8 "small")
                   (utf8 "cuda") (utf8 "float16") (utf8 "auto")
                   (utf8 "transcribe") 5%Z initial_world initial_world
                   _ _ (AudioPath (utf8 "talk.wav")) 0%nat _ _ _ _)).
  - split; reflexivity.
  - vm_compute. reflexivity.
  - vm_compute. reflexivity.
Defined.



(** X9. When [transcribe] returns no path, it has created no result
    directory and written no file. *)
Theorem transcribe_failure_writes_nothing (env : Env)
    (audio_file : option audio_input)
    (youtube_url model_name device compute_type language task : str)
    (beam_size : Z) (w w' : World) (t : str) :
  transcribe env audio_file youtube_url model_name device compute_type
    language task beam_size w = (Ok (t, None, None), w') →
  ∃ new, trace w' = trace w ++ new
         ∧ Forall (λ ev, is_artifact_event ev = false) new.
Proof.
  intros Hrun. change (grows_by (λ ev, is_artifact_event ev = false) w w').
  revert Hrun. rewrite transcribe_run. destruct audio_file as [file|].
  - apply transcribe_audio_path_no_artifact.
  - destruct (bool_decide _); [intros [= _ <-]; reflexivity|].
    pose proof (download_respects env
                  (grows_by (λ ev, is_artifact_event ev = false))
                  (λ ev w0 H, grows_by_log _ ev w0
                                (download_event_not_artifact ev H))
                  (strip youtube_url) w) as Hdl.
    destruct (download_youtube_audio env (strip youtube_url) w)
      as [[path|e] w1]; specialize (Hdl _ _ eq_refl).
    + intros Hrun. transitivity w1; [exact Hdl|].
      exact (transcribe_audio_path_no_artifact env _ _ _ _ _ _ _ _ _ _ Hrun).
    + intros [= _ <-]. exact Hdl.
Qed.

Lemma transcribe_failure_writes_nothing_witness :
  ∃ t w' new,
    transcribe env_both_fail None some_url (utf8 "small") (utf8 "cuda")
      (utf8 "float16") (utf8 "auto") (utf8 "transcribe") 5%Z initial_world
    = (Ok (t, None, None), w')
    ∧ trace w' = trace initial_world ++ new
    ∧ Forall (λ ev, is_artifact_event ev = false) new.
Proof.
  assert (∃ t w',
            transcribe env_both_fail None some_url (utf8 "small")
              (utf8 "cuda") (utf8 "float16") (utf8 "auto")
              (utf8 "transcribe") 5%Z initial_world
            = (Ok (t, None, None), w')) as (t & w' & Hrun).
  { eexists _, _. vm_compute. reflexivity. }
  destruct (transcribe_failure_writes_nothing _ _ _ _ _ _ _ _ _ _ _ _ Hrun)
    as (new & H1 & H2).
  exists t, w', new. split; [exact Hrun|]. split; [exact H1|exact H2].
Defined.

(** X10. White space around the URL is ignored: a request without a file
    runs as the request with the trimmed URL. *)
Theorem transcribe_url_trimmed (env : Env)
    (youtube_url model_name device compute_type language task : str)
    (beam_size : Z) (w : World) :
  transcribe env None youtube_url model_name device compute_type language
    task beam_size w
  = transcribe env None (strip youtube_url) model_name device compute_type
      language task beam_size w.
Proof. rewrite !transcribe_run, strip_idemp. reflexivity. Qed.

(** X11. Without a file, when the download returns a path and the engine
    is obtained, inference is called on the downloaded path, right after
    the calls of the download and of [get_model]. *)
Theorem transcribe_url_infers_download (env : Env)
    (youtube_url model_name device compute_type language task : str)
    (beam_size : Z) (w w1 w2 : World) (path : str) (model : engine) :
  strip youtube_url ≠ [] →
  download_youtube_audio env (strip youtube_url) w = (Ok path, w1) →
  get_model env model_name device compute_type w1 = (Ok model, w2) →
  ∃ r w' rest,
    transcribe env None youtube_url model_name device compute_type language
      task beam_size w = (r, w')
    ∧ trace w'
      = trace w2
        ++ EvModelTranscribe model (AudioPath path) beam_size
             (language_argument language) task :: rest.
Proof.
  intros Hurl Hdl Hget.
  rewrite transcribe_run, bool_decide_eq_false_2, Hdl by exact Hurl.
  exact (transcribe_audio_path_infers env _ _ _ _ _ _ _ _ _ _ Hget).
Qed.

Lemma transcribe_url_infers_download_witness :
  ∃ path w1 model w2 r w' rest,
    download_youtube_audio env_second_tier (strip some_url) initial_world
    = (Ok path, w1)
    ∧ get_model env_second_tier (utf8 "small") (utf8 "cuda") (utf8 "float16")
        w1 = (Ok model, w2)
    ∧ transcribe env_second_tier None some_url (utf8 "small") (utf8 "cuda")
        (utf8 "float16") (utf8 "auto") (utf8 "transcribe") 5%Z initial_world
      = (r, w')
    ∧ trace w'
      = trace w2
        ++ EvModelTranscribe model (AudioPath path) 5%Z
             (language_argument (utf8 "auto")) (utf8 "transcribe") :: rest.
Proof.
  assert (∃ path w1,
            download_youtube_audio env_second_tier (strip some_url)
              initial_world = (Ok path, w1)) as (path & w1 & Hdl).
  { eexists _, _. vm_compute. reflexivity. }
  assert (∃ model w2,
            get_model env_second_tier (utf8 "small") (utf8 "cuda")
              (utf8 "float16") w1 = (Ok model, w2)) as (model & w2 & Hget).
  { injection Hdl as _ <-. eexists _, _. vm_compute. reflexivity. }
  destruct (transcribe_url_infers_download env_second_tier some_url
              (utf8 "small") (utf8 "cuda") (utf8 "float16") (utf8 "auto")
              (utf8 "transcribe") 5%Z initial_world w1 w2 path model)
    as (r & w' & rest & Hrun & Htrace).
  - vm_compute. discriminate.
  - exact Hdl.
  - exact Hget.
  - exists path, w1, model, w2, r, w', rest. auto.
Defined.

(** ** The returned text *)

Lemma blank_join (sep : str) (parts : list str) :
  blank (join sep parts) = true → Forall (λ p, blank p = true) parts.
Proof.
  induction parts as [|p [|p' rest] IH]; intros H.
  - constructor.
  - repeat constructor. exact H.
  - change (join sep (p :: p' :: rest))
      with (p ++ sep ++ join sep (p' :: rest)) in H.
    rewrite !blank_app in H.
    apply andb_true_iff in H as [Hp H]. apply andb_true_iff in H as [_ H].
    constructor; [exact Hp|by apply IH].
Qed.

Lemma join_blank (sep : str) (parts : list str) :
  blank sep = true → Forall (λ p, blank p = true) parts →
  blank (join sep parts) = true.
Proof.
  intros Hsep. induction parts as [|p [|p' rest] IH]; intros H.
  - reflexivity.
  - by inversion H.
  - inversion H as [|? ? Hp H']; subst.
    change (join sep (p :: p' :: rest))
      with (p ++ sep ++ join sep (p' :: rest)).
    rewrite !blank_app, Hp, Hsep. by apply IH.
Qed.

(** The joined text is empty exactly when every segment is blank. *)
Lemma transcript_blank (seg_list : list Segment) :
  strip (join NL (map (λ seg, strip (text seg)) seg_list)) = []
  ↔ Forall (λ seg, blank (text seg) = true) seg_list.
Proof.
  rewrite strip_blank. split.
  - intros H. apply blank_join in H. rewrite Forall_map in H.
    eapply Forall_impl; [exact H|]. intros seg Hb. cbn in Hb.
    apply strip_blank. rewrite <- strip_idemp. by apply strip_blank.
  - intros H. apply join_blank; [reflexivity|]. rewrite Forall_map.
    eapply Forall_impl; [exact H|]. intros seg Hb. cbn.
    apply strip_blank in Hb. by rewrite Hb.
Qed.

(** X12. The text returned with the two paths is the text of the segments
    the model yielded, and it neither starts nor ends with white space; it
    is empty exactly when every yielded segment has a text of white space
    only (in particular when there is no segment). *)
Theorem transcribe_text_blank (env : Env) (audio_file : option audio_input)
    (youtube_url model_name device compute_type language task : str)
    (beam_size : Z) (w w' : World) (t p q : str) :
  transcribe env audio_file youtube_url model_name device compute_type
    language task beam_size w = (Ok (t, Some p, Some q), w') →
  ∃ (h : list event) (model : engine) (audio_path : audio_input)
    (segments : SegmentStream),
    model_transcribe env h model audio_path beam_size
      (language_argument language) task = Ok segments
    ∧ failure segments = None
    ∧ t = strip (join NL (map (λ seg, strip (text seg)) (yielded segments)))
    ∧ (t = [] ↔ Forall (λ seg, blank (text seg) = true) (yielded segments))
    ∧ (∀ c, head t = Some c → isspace c = false)
    ∧ (∀ c, last t = Some c → isspace c = false).
Proof.
  rewrite transcribe_run.
  assert (∀ ap w0,
            transcribe_audio_path env ap model_name device compute_type
              language task beam_size w0 = (Ok (t, Some p, Some q), w') →
            ∃ h model audio_path segments,
              model_transcribe env h model audio_path beam_size
                (language_argument language) task = Ok segments
              ∧ failure segments = None
              ∧ t = strip (join NL (map (λ seg, strip (text seg))
                                      (yielded segments)))
              ∧ (t = [] ↔ Forall (λ seg, blank (text seg) = true)
                            (yielded segments))
              ∧ (∀ c, head t = Some c → isspace c = false)
              ∧ (∀ c, last t = Some c → isspace c = false)) as Hap.
  { intros ap w0 Hrun.
    destruct (transcribe_audio_path_success env _ _ _ _ _ _ _ _ _ _ _ _ Hrun)
      as (model & w1 & segments & srt_text & _ & Hinfer & Hfail & _ & -> & _).
    exists (trace w1), model, ap, segments.
    split; [exact Hinfer|]. split; [exact Hfail|]. split; [reflexivity|].
    split; [apply transcript_blank|]. split; [apply strip_head|apply strip_last]. }
  destruct audio_file as [file|]; [apply Hap|].
  destruct (bool_decide _); [discriminate|].
  destruct (download_youtube_audio env (strip youtube_url) w)
    as [[path|e] w1]; [apply Hap|discriminate].
Qed.

Lemma transcribe_text_blank_witness :
  ∃ (h : list event) (model : engine) (audio_path : audio_input)
    (segments : SegmentStream),
    model_transcribe env_silence h model audio_path 5%Z
      (language_argument (utf8 "auto")) (utf8 "transcribe") = Ok segments
    ∧ failure segments = None
    ∧ ([] : str) = strip (join NL (map (λ seg, strip (text seg))
                                     (yielded segments)))
    ∧ (([] : str) = [] ↔ Forall (λ seg, blank (text seg) = true)
                          (yielded segments)).
Proof.
  destruct (transcribe_text_blank env_silence
              (Some (AudioPath (utf8 "silence.wav"))) [] (utf8 "small")
              (utf8 "cuda") (utf8 "float16") (utf8 "auto")
              (utf8 "transcribe") 5%Z initial_world
              (snd (transcribe_file env_silence (utf8 "silence.wav") []
                      initial_world))
              [] (utf8 "/tmp/transcript_2/transcript.txt")
              (utf8 "/tmp/transcript_2/subtitles.srt"))
    as (h & model & ap & segments & H1 & H2 & H3 & H4 & _).
  { vm_compute. reflexivity. }
  exists h, model, ap, segments. auto.
Defined.

(** X13. An exception that leaves [transcribe] was raised after the source
    was resolved, the engine obtained and [model.transcribe] had returned:
    by the iteration over the segments, by [build_srt], by the creation of
    the result directory or by one of the two writes. *)
Theorem transcribe_raise_origin (env : Env) (audio_file : option audio_input)
    (youtube_url model_name device compute_type language task : str)
    (beam_size : Z) (w w' : World) (e : exn) :
  transcribe env audio_file youtube_url model_name device compute_type
    language task beam_size w = (Raise e, w') →
  ∃ audio_path w0 model w1 segments,
    source_resolved env audio_file youtube_url w audio_path w0
    ∧ get_model env model_name device compute_type w0 = (Ok model, w1)
    ∧ model_transcribe env (trace w1) model audio_path beam_size
        (language_argument language) task = Ok segments
    ∧ (failure segments = Some e
       ∨ build_srt (yielded segments) = Raise e
       ∨ (∃ h, tempfile_mkdtemp env h (utf8 "transcript_") = Raise e)
       ∨ (∃ h path content, write_text env h path content = Raise e)).
Proof.
  rewrite transcribe_run. destruct audio_file as [file|].
  - intros Hrun.
    destruct (transcribe_audio_path_raise_origin env _ _ _ _ _ _ _ _ _ _ Hrun)
      as (model & w1 & segments & H).
    exists (name_or_self file), w, model, w1, segments.
    split; [split; reflexivity|exact H].
  - destruct (bool_decide (strip youtube_url = [])) eqn:Hurl; [discriminate|].
    apply bool_decide_eq_false in Hurl.
    destruct (download_youtube_audio env (strip youtube_url) w)
      as [[path|e0] w0] eqn:Hdl; [|discriminate].
    intros Hrun.
    destruct (transcribe_audio_path_raise_origin env _ _ _ _ _ _ _ _ _ _ Hrun)
      as (model & w1 & segments & H).
    exists (AudioPath path), w0, model, w1, segments.
    split; [|exact H]. split; [exact Hurl|]. exists path. by rewrite Hdl.
Qed.

Lemma transcribe_raise_origin_witness :
  ∃ audio_path w0 model w1 segments e,
    source_resolved env_disk_full (Some (AudioPath (utf8 "talk.wav"))) []
      initial_world audio_path w0
    ∧ get_model env_disk_full (utf8 "small") (utf8 "cuda") (utf8 "float16") w0
      = (Ok model, w1)
    ∧ model_transcribe env_disk_full (trace w1) model audio_path 5%Z
        (language_argument (utf8 "auto")) (utf8 "transcribe") = Ok segments
    ∧ (failure segments = Some e
       ∨ build_srt (yielded segments) = Raise e
       ∨ (∃ h, tempfile_mkdtemp env_disk_full h (utf8 "transcript_") = Raise e)
       ∨ (∃ h path content,
            write_text env_disk_full h path content = Raise e)).
Proof.
  destruct (transcribe_raise_origin env_disk_full
              (Some (AudioPath (utf8 "talk.wav"))) [] (utf8 "small")
              (utf8 "cuda") (utf8 "float16") (utf8 "auto")
              (utf8 "transcribe") 5%Z initial_world
              (snd (transcribe_file env_disk_full (utf8 "talk.wav") []
                      initial_world))
              (mk_exn OSError (utf8 "[Errno 28] No space left on device")))
    as (ap & w0 & model & w1 & segments & H).
  { vm_compute. reflexivity. }
  exists ap, w0, model, w1, segments. eexists. exact H.
Defined.

(** ** The download, further *)

Section DownloadFurther.
Context (env : Env).

Lemma filter_none (P : event → bool) (l : list event) :
  Forall (λ ev, P ev = false) l → List.filter P l = [].
Proof.
  induction 1 as [|ev l Hev _ IH]; [reflexivity|].
  simpl. by rewrite Hev.
Qed.

End DownloadFurther.



(** X15. A download that returns a path made its directory, called the
    download tool once or twice in it, and then listed that directory
    (the pattern is the directory joined with [*]). The path returned
    is an element of that listing that does not end in [.part] and was a
    regular file when checked, and every path listed before it ends in
    [.part] or was not a regular file when checked. The checks are made in
    listing order, one for every listed path that does not end in
    [.part], and they are the last calls of the download. *)
Theorem download_returns_first_finished (env : Env) (url : str)
    (w w' : World) (p : str) :
  download_youtube_audio env url w = (Ok p, w') →
  ∃ (tmpdir : str) (attempts : list event),
    let outtmpl := os_path_join env tmpdir (utf8 "%(title)s.%(ext)s") in
    let cmd1 :=
      yt_dlp_cmd env (utf8 "bestaudio[ext=m4a]/bestaudio/best") outtmpl url in
    let cmd2 := yt_dlp_cmd env (utf8 "best") outtmpl url in
    let pattern := os_path_join env tmpdir (utf8 "*") in
    let h := trace w ++ EvMkdtemp (utf8 "yt_audio_") :: attempts in
    let listing := glob_glob env h pattern in
    tempfile_mkdtemp env (trace w) (utf8 "yt_audio_") = Ok tmpdir
    ∧ (attempts = [EvSubprocess cmd1 tmpdir]
       ∨ attempts = [EvSubprocess cmd1 tmpdir; EvSubprocess cmd2 tmpdir])
    ∧ (∃ before after,
         listing = before ++ p :: after
         ∧ endswith p (utf8 ".part") = false
         ∧ os_path_isfile env (h ++ EvGlob pattern :: isfile_checks before) p
           = true
         ∧ ∀ earlier f later,
             before = earlier ++ f :: later →
             endswith f (utf8 ".part") = true
             ∨ os_path_isfile env
                 (h ++ EvGlob pattern :: isfile_checks earlier) f = false)
    ∧ w' = mk_world (MODEL_CACHE w)
             (h ++ EvGlob pattern :: isfile_checks listing).
Proof.
  unfold download_youtube_audio. rewrite bind_run. unfold call at 1.
  destruct (tempfile_mkdtemp env (trace w) (utf8 "yt_audio_"))
    as [tmpdir|e]; [|discriminate].
  set (w1 := log (EvMkdtemp (utf8 "yt_audio_")) w).
  set (outtmpl := os_path_join env tmpdir (utf8 "%(title)s.%(ext)s")).
  rewrite bind_run.
  destruct (try_except _ _ _ w1) as [ru wm] eqn:Htiers.
  set (cmd1 := yt_dlp_cmd env (utf8 "bestaudio[ext=m4a]/bestaudio/best")
                 outtmpl url).
  set (cmd2 := yt_dlp_cmd env (utf8 "best") outtmpl url).
  assert (∃ attempts,
            (attempts = [EvSubprocess cmd1 tmpdir]
             ∨ attempts = [EvSubprocess cmd1 tmpdir; EvSubprocess cmd2 tmpdir])
            ∧ wm = mk_world (MODEL_CACHE w)
                     (trace w ++ EvMkdtemp (utf8 "yt_audio_") :: attempts))
    as (attempts & Hattempts & ->).
  { revert Htiers. rewrite try_except_run, run_yt_dlp_run. fold cmd1.
    assert (log (EvSubprocess cmd1 tmpdir) w1
            = mk_world (MODEL_CACHE w)
                (trace w ++ [EvMkdtemp (utf8 "yt_audio_");
                             EvSubprocess cmd1 tmpdir])) as Hone.
    { unfold w1, log. cbn [trace MODEL_CACHE]. by rewrite <- app_assoc. }
    destruct (match subprocess_run env (trace w1) cmd1 tmpdir with
              | Ok _ => _ | Raise _ => _ end) as [u|e1].
    { intros [= _ <-]. exists [EvSubprocess cmd1 tmpdir].
      split; [by left|exact Hone]. }
    destruct (is_RuntimeError e1).
    2:{ intros [= _ <-]. exists [EvSubprocess cmd1 tmpdir].
        split; [by left|exact Hone]. }
    rewrite try_except_run, run_yt_dlp_run. fold cmd2.
    assert (∀ x : result unit * World,
              snd x = log (EvSubprocess cmd2 tmpdir)
                        (log (EvSubprocess cmd1 tmpdir) w1) →
              x = (ru, wm) →
              ∃ attempts,
                (attempts = [EvSubprocess cmd1 tmpdir]
                 ∨ attempts = [EvSubprocess cmd1 tmpdir;
                               EvSubprocess cmd2 tmpdir])
                ∧ wm = mk_world (MODEL_CACHE w)
                         (trace w ++ EvMkdtemp (utf8 "yt_audio_") :: attempts))
      as Htwo.
    { intros [x1 x2] Hx [= _ <-]. cbn [snd] in Hx. subst x2.
      exists [EvSubprocess cmd1 tmpdir; EvSubprocess cmd2 tmpdir].
      split; [by right|]. rewrite Hone. unfold log. cbn [trace MODEL_CACHE].
      by rewrite <- app_assoc. }
    apply Htwo.
    destruct (match subprocess_run env _ cmd2 tmpdir with
              | Ok _ => _ | Raise _ => _ end) as [u|e2]; [reflexivity|].
    destruct (is_RuntimeError e2); reflexivity. }
  destruct ru as [u|e]; [|discriminate].
  destruct (download_listing env tmpdir
              (mk_world (MODEL_CACHE w)
                 (trace w ++ EvMkdtemp (utf8 "yt_audio_") :: attempts)))
    as (chosen & Hfirst & Hrun).
  cbn [trace MODEL_CACHE] in Hfirst, Hrun. unfold no_file_error in Hrun.
  rewrite Hrun. destruct chosen as [q|]; [|discriminate].
  intros [= -> <-]. exists tmpdir, attempts. cbv zeta.
  split; [reflexivity|]. split; [exact Hattempts|]. split; [|reflexivity].
  destruct Hfirst as (before & after & Hlist & Hp & Hbefore).
  exists before, after. split; [exact Hlist|].
  unfold finished in Hp. apply andb_true_iff in Hp as [Hpart Hfile].
  apply negb_true_iff in Hpart. rewrite <- app_assoc in Hfile.
  split; [exact Hpart|]. split; [exact Hfile|].
  intros earlier f later E. specialize (Hbefore _ _ _ E).
  unfold finished in Hbefore. rewrite <- app_assoc in Hbefore.
  apply andb_false_iff in Hbefore as [H|H]; [left|by right].
  by apply negb_false_iff in H.
Qed.

(** The directory holds a partial file, a directory and two finished
    files: the third listed path is returned. *)
Lemma download_returns_first_finished_witness :
  ∃ (p : str) (w' : World) (before after : list str),
    download_youtube_audio env_with_directory some_url initial_world
    = (Ok p, w')
    ∧ p = utf8 "/tmp/yt_audio_0/talk.mp4"
    ∧ glob_glob env_with_directory [] [] = before ++ p :: after
    ∧ endswith p (utf8 ".part") = false
    ∧ length before = 2%nat.
Proof.
  assert (∃ w',
            download_youtube_audio env_with_directory some_url initial_world
            = (Ok (utf8 "/tmp/yt_audio_0/talk.mp4"), w')) as (w' & Hrun)
    by (eexists; vm_compute; reflexivity).
  destruct (download_returns_first_finished env_with_directory some_url
              initial_world w' _ Hrun)
    as (tmpdir & attempts & H).
  cbv zeta in H.
  destruct H as (_ & _ & (before & after & Hlist & Hpart & _) & _).
  exists (utf8 "/tmp/yt_audio_0/talk.mp4"), w', before, after.
  split; [exact Hrun|]. split; [reflexivity|]. split; [exact Hlist|].
  split; [exact Hpart|].
  change (glob_glob env_with_directory _ _)
    with (glob_glob env_with_directory [] []) in Hlist.
  vm_compute in Hlist.
  destruct before as [|b0 [|b1 [|b2 [|b3 [|b4 before]]]]];
    cbn [app] in Hlist; try discriminate Hlist.
  reflexivity.
Defined.

(** X16. When running the download tool itself raises an exception that is
    not a [RuntimeError] (the tool could not be started, its output not
    decoded), no second attempt is made and the exception leaves the
    download unchanged. *)
Theorem download_spawn_error (env : Env) (url : str) (w : World)
    (tmpdir : str) (e : exn) :
  let outtmpl := os_path_join env tmpdir (utf8 "%(title)s.%(ext)s") in
  let cmd1 :=
    yt_dlp_cmd env (utf8 "bestaudio[ext=m4a]/bestaudio/best") outtmpl url in
  let w1 := log (EvMkdtemp (utf8 "yt_audio_")) w in
  tempfile_mkdtemp env (trace w) (utf8 "yt_audio_") = Ok tmpdir →
  subprocess_run env (trace w1) cmd1 tmpdir = Raise e →
  is_RuntimeError e = false →
  download_youtube_audio env url w
  = (Raise e, log (EvSubprocess cmd1 tmpdir) w1).
Proof.
  intros outtmpl cmd1 w1 Hdir Hspawn He.
  unfold download_youtube_audio.
  rewrite bind_run. unfold call at 1. rewrite Hdir.
  fold w1 outtmpl.
  rewrite bind_run, try_except_run, run_yt_dlp_run.
  fold cmd1. rewrite Hspawn, He. reflexivity.
Qed.

Lemma download_spawn_error_witness :
  fst (download_youtube_audio env_no_tool some_url initial_world)
  = Raise (mk_exn OSError (utf8 "[Errno 2] No such file or directory"))
  ∧ length (trace (snd (download_youtube_audio env_no_tool some_url
                          initial_world))) = 2%nat.
Proof.
  pose proof (download_spawn_error env_no_tool some_url initial_world
                (utf8 "/tmp/yt_audio_0")
                (mk_exn OSError (utf8 "[Errno 2] No such file or directory")))
    as H.
  cbv zeta in H.
  rewrite (H ltac:(vm_compute; reflexivity) ltac:(vm_compute; reflexivity)
             ltac:(reflexivity)).
  split; reflexivity.
Defined.

(** ** A session of requests *)

Lemma form_keys_elem (req : Request) :
  from_form req →
  (req_model_name req, req_device req, req_compute_type req) ∈ form_keys.
Proof.
  intros (Hm & Hd & Hc). unfold form_keys.
  apply list_elem_of_bind. exists (req_model_name req). split; [|exact Hm].
  apply list_elem_of_bind. exists (req_device req). split; [|exact Hd].
  apply list_elem_of_bind. exists (req_compute_type req). split; [|exact Hc].
  by apply list_elem_of_singleton.
Qed.

Lemma form_keys_NoDup : NoDup form_keys.
Proof. apply (bool_decide_unpack _). vm_compute. exact I. Qed.

Lemma form_keys_length : length form_keys = 36%nat.
Proof. vm_compute. reflexivity. Qed.

Lemma cache_of_form_size (w : World) :
  cache_of_form w → (size (MODEL_CACHE w) <= 36)%nat.
Proof.
  intros Hform. rewrite <- size_dom, <- form_keys_length.
  rewrite <- (size_list_to_set (C := gset EngineKey) form_keys)
    by exact form_keys_NoDup.
  apply subseteq_size. intros key Hkey.
  apply elem_of_list_to_set, Hform. by apply elem_of_dom.
Qed.

Global Instance engine_stays_preorder (key : EngineKey) (m : engine) :
  PreOrder (engine_stays key m).
Proof.
  split.
  - intros w H. split; [exact H|reflexivity].
  - intros w1 w2 w3 H12 H23 H1.
    destruct (H12 H1) as [H2 G12]. destruct (H23 H2) as [H3 G23].
    split; [exact H3|]. by transitivity w2.
Qed.

Lemma engine_stays_log (key : EngineKey) (m : engine) (ev : event) (w : World) :
  is_construction ev = false → engine_stays key m w (log ev w).
Proof.
  intros Hev H. split; [exact H|]. apply grows_by_log. intros ->. discriminate.
Qed.

Lemma get_model_engine_stays (env : Env) (key : EngineKey) (m : engine)
    (model_name device compute_type : str) :
  respects (engine_stays key m) (get_model env model_name device compute_type).
Proof.
  intros w r w' Hrun Hin.
  destruct (get_model_cases env model_name device compute_type w)
    as [(m0 & _ & E)|[(u & Hmiss & _ & E)|(e & Hmiss & _ & E)]];
    rewrite E in Hrun; injection Hrun as <- <-.
  - split; [exact Hin|reflexivity].
  - assert ((model_name, device, compute_type) ≠ key) as Hne by congruence.
    split; [cbn [MODEL_CACHE]; by rewrite lookup_insert_ne|].
    exists [EvWhisperModel (model_name, device, compute_type)].
    split; [reflexivity|]. repeat constructor. congruence.
  - assert ((model_name, device, compute_type) ≠ key) as Hne by congruence.
    split; [exact Hin|]. apply grows_by_log. congruence.
Qed.

Lemma run_button_click_engine_stays (env : Env) (key : EngineKey) (m : engine)
    (req : Request) :
  respects (engine_stays key m) (run_button_click env req).
Proof.
  intros w r w'. unfold run_button_click. rewrite transcribe_run.
  assert (∀ ap, respects (engine_stays key m)
                  (transcribe_audio_path env ap (req_model_name req)
                     (req_device req) (req_compute_type req)
                     (req_language req) (req_task req) (req_beam_size req)))
    as Hap.
  { intros ap w0 r0 w0' Hrun. revert Hrun.
    rewrite transcribe_audio_path_run.
    pose proof (get_model_engine_stays env key m (req_model_name req)
                  (req_device req) (req_compute_type req) w0) as Hget.
    destruct (get_model env _ _ _ w0) as [[model|e] w1];
      specialize (Hget _ _ eq_refl); [|by intros [= _ <-]].
    cbv zeta.
    assert (∀ ev wa, is_construction ev = false →
                     engine_stays key m w0 wa →
                     engine_stays key m w0 (log ev wa)) as Hstep.
    { intros ev wa Hev Ha. transitivity wa; [exact Ha|].
      by apply engine_stays_log. }
    destruct (model_transcribe env _ _ _ _ _ _) as [segments|e];
      [|intros [= _ <-]; by apply Hstep].
    destruct (failure segments); [intros [= _ <-]; by apply Hstep|].
    destruct (build_srt _) as [srt_text|];
      [|intros [= _ <-]; by apply Hstep].
    destruct (tempfile_mkdtemp env _ _) as [out_dir|];
      [|intros [= _ <-]; by do 2 (apply Hstep; [reflexivity|])].
    stage_case Htxt;
      [|intros [= _ <-]; by do 3 (apply Hstep; [reflexivity|])].
    stage_case Hsrt; intros [= _ <-];
      by do 4 (apply Hstep; [reflexivity|]). }
  destruct (req_audio_file req) as [file|]; [apply Hap|].
  destruct (bool_decide _); [intros [= _ <-]; reflexivity|].
  assert (respects (engine_stays key m)
            (download_youtube_audio env (strip (req_youtube_url req)))) as Hdl.
  { apply download_respects; [apply _|]. intros ev w0 Hev.
    apply engine_stays_log. by destruct ev. }
  specialize (Hdl w).
  destruct (download_youtube_audio env _ w) as [[path|e] w1];
    specialize (Hdl _ _ eq_refl).
  - intros Hrun. transitivity w1; [exact Hdl|]. exact (Hap _ _ _ _ Hrun).
  - intros [= _ <-]. exact Hdl.
Qed.

Lemma run_button_click_of_form (env : Env) (req : Request) (w w' : World)
    (r : result TranscriptionResult) :
  from_form req → cache_of_form w →
  run_button_click env req w = (r, w') → cache_of_form w'.
Proof.
  intros Hreq Hform Hrun key Hkey.
  assert (cache_step (req_model_name req, req_device req, req_compute_type req)
            w w') as [E|(_ & m & E)].
  { eapply (transcribe_respects env (cache_step _));
      [|exact (get_model_cache_step env _ _ _)|exact Hrun].
    apply cache_step_log. }
  - apply Hform. by rewrite <- E.
  - rewrite E in Hkey.
    destruct (decide ((req_model_name req, req_device req,
                       req_compute_type req) = key)) as [<-|Hne].
    + by apply form_keys_elem.
    + apply Hform. by rewrite lookup_insert_ne in Hkey.
Qed.

(** X17. Over a session of requests whose model, device and compute type
    come from the dropdowns of the form, the cache holds engines for keys
    of the form only, so never more than 36 of them; it keeps its
    invariant, loses no entry, and every request gets its answer. *)
Theorem session_cache_bounded (env : Env) (requests : list Request)
    (w : World) :
  Forall from_form requests →
  cache_wf w → cache_of_form w →
  cache_wf (snd (session env requests w))
  ∧ cache_of_form (snd (session env requests w))
  ∧ (size (MODEL_CACHE (snd (session env requests w))) <= 36)%nat
  ∧ MODEL_CACHE w ⊆ MODEL_CACHE (snd (session env requests w))
  ∧ length (fst (session env requests w)) = length requests.
Proof.
  intros Hreqs. revert w.
  induction Hreqs as [|req rest Hreq _ IH]; intros w Hwf Hform.
  - cbn. split; [exact Hwf|]. split; [exact Hform|].
    split; [by apply cache_of_form_size|done].
  - cbn [session].
    destruct (run_button_click env req w) as [r w1] eqn:Hclick.
    assert (cache_wf w1) as Hwf1
      by exact (transcribe_keeps_wf env _ _ _ _ _ _ _ _ _ _ _ Hclick Hwf).
    assert (cache_of_form w1) as Hform1
      by exact (run_button_click_of_form env _ _ _ _ Hreq Hform Hclick).
    assert (MODEL_CACHE w ⊆ MODEL_CACHE w1) as Hsub.
    { eapply (cache_step_subseteq _).
      eapply (transcribe_respects env (cache_step _));
        [|exact (get_model_cache_step env _ _ _)|exact Hclick].
      apply cache_step_log. }
    destruct (IH w1 Hwf1 Hform1) as (H1 & H2 & H3 & H4 & H5).
    destruct (session env rest w1) as [rs w']. cbn in *.
    split; [exact H1|]. split; [exact H2|]. split; [exact H3|].
    split; [by transitivity (MODEL_CACHE w1)|by rewrite H5].
Qed.

Lemma session_cache_bounded_witness :
  Forall from_form three_requests
  ∧ (size (MODEL_CACHE (snd (session env_fine three_requests initial_world)))
     <= 36)%nat
  ∧ length (fst (session env_fine three_requests initial_world)) = 3%nat.
Proof.
  assert (Forall from_form three_requests) as Hreqs.
  { repeat constructor; apply (bool_decide_unpack _); vm_compute; exact I. }
  split; [exact Hreqs|].
  destruct (session_cache_bounded env_fine three_requests initial_world Hreqs)
    as (_ & _ & Hsize & _ & Hlen).
  - apply cache_wf_initial.
  - intros key [m Hm]. cbn in Hm. rewrite lookup_empty in Hm. discriminate.
  - split; [exact Hsize|exact Hlen].
Defined.

(** X18. An engine that is in the cache stays there, the same instance,
    through any session of requests, and its constructor is not called
    again for its key. *)
Theorem session_constructs_once (env : Env) (requests : list Request)
    (w : World) (key : EngineKey) (m : engine) :
  MODEL_CACHE w !! key = Some m →
  MODEL_CACHE (snd (session env requests w)) !! key = Some m
  ∧ ∃ new,
      trace (snd (session env requests w)) = trace w ++ new
      ∧ EvWhisperModel key ∉ new.
Proof.
  intros Hin.
  assert (engine_stays key m w (snd (session env requests w))) as Hstay.
  { clear Hin. revert w. induction requests as [|req rest IH]; intros w.
    - reflexivity.
    - cbn [session].
      destruct (run_button_click env req w) as [r w1] eqn:Hclick.
      specialize (IH w1). destruct (session env rest w1) as [rs w'].
      cbn in *. transitivity w1; [|exact IH].
      exact (run_button_click_engine_stays env key m req _ _ _ Hclick). }
  destruct (Hstay Hin) as [Hin' (new & Htrace & Hnew)].
  split; [exact Hin'|]. exists new. split; [exact Htrace|].
  intros Hel. rewrite Forall_forall in Hnew. by apply (Hnew _ Hel).
Qed.

Lemma session_constructs_once_witness :
  ∃ w m,
    fst (get_model env_fine (utf8 "small") (utf8 "cuda") (utf8 "float16")
           initial_world) = Ok m
    ∧ w = snd (get_model env_fine (utf8 "small") (utf8 "cuda") (utf8 "float16")
                 initial_world)
    ∧ MODEL_CACHE (snd (session env_fine three_requests w))
      !! (utf8 "small", utf8 "cuda", utf8 "float16") = Some m.
Proof.
  eexists _, _. split; [vm_compute; reflexivity|]. split; [reflexivity|].
  refine (proj1 (session_constructs_once env_fine three_requests _
                   (utf8 "small", utf8 "cuda", utf8 "float16") 0%nat _)).
  vm_compute. reflexivity.
Defined.

(** ** No retries *)

Lemma filter_grows (P : event → bool) (Q : event → Prop) (w w' : World) :
  (∀ ev, Q ev → P ev = false) → grows_by Q w w' →
  List.filter P (trace w') = List.filter P (trace w).
Proof.
  intros HQ (new & -> & Hnew).
  rewrite List.filter_app, (filter_none P new), app_nil_r; [reflexivity|].
  eapply Forall_impl; [exact Hnew|]. exact HQ.
Qed.

Lemma filter_log (P : event → bool) (ev : event) (w : World) :
  List.filter P (trace (log ev w))
  = List.filter P (trace w) ++ (if P ev then [ev] else []).
Proof. cbn [log trace]. rewrite List.filter_app. cbn. by destruct (P ev). Qed.

(** X19. A download calls the download tool at most twice. *)
Theorem download_at_most_two_attempts (env : Env) (url : str) (w w' : World)
    (r : result str) :
  download_youtube_audio env url w = (r, w') →
  ∃ attempts,
    List.filter is_subprocess (trace w')
    = List.filter is_subprocess (trace w) ++ attempts
    ∧ (length attempts <= 2)%nat.
Proof.
  unfold download_youtube_audio. rewrite bind_run. unfold call at 1.
  destruct (tempfile_mkdtemp env (trace w) (utf8 "yt_audio_")) as [tmpdir|e].
  2:{ intros [= _ <-]. exists []. rewrite filter_log.
      split; [reflexivity|cbn; lia]. }
  set (w1 := log (EvMkdtemp (utf8 "yt_audio_")) w).
  set (outtmpl := os_path_join env tmpdir (utf8 "%(title)s.%(ext)s")).
  assert (List.filter is_subprocess (trace w1)
          = List.filter is_subprocess (trace w)) as Hw1
    by (unfold w1; rewrite filter_log; apply app_nil_r).
  rewrite bind_run.
  destruct (try_except _ _ _ w1) as [ru wm] eqn:Htiers.
  assert (∃ attempts,
            List.filter is_subprocess (trace wm)
            = List.filter is_subprocess (trace w) ++ attempts
            ∧ (length attempts <= 2)%nat) as (attempts & Hwm & Hlen).
  { revert Htiers. rewrite try_except_run, run_yt_dlp_run.
    set (cmd1 := yt_dlp_cmd env _ outtmpl url).
    assert (List.filter is_subprocess
              (trace (log (EvSubprocess cmd1 tmpdir) w1))
            = List.filter is_subprocess (trace w) ++ [EvSubprocess cmd1 tmpdir])
      as Hone by (rewrite filter_log, Hw1; reflexivity).
    destruct (match subprocess_run env (trace w1) cmd1 tmpdir with
              | Ok _ => _ | Raise _ => _ end) as [u|e1].
    { intros [= _ <-]. exists [EvSubprocess cmd1 tmpdir].
      split; [exact Hone|cbn; lia]. }
    destruct (is_RuntimeError e1).
    2:{ intros [= _ <-]. exists [EvSubprocess cmd1 tmpdir].
        split; [exact Hone|cbn; lia]. }
    rewrite try_except_run, run_yt_dlp_run.
    set (cmd2 := yt_dlp_cmd env _ outtmpl url).
    assert (∀ x : result unit * World,
              snd x = log (EvSubprocess cmd2 tmpdir)
                        (log (EvSubprocess cmd1 tmpdir) w1) →
              x = (ru, wm) →
              ∃ attempts,
                List.filter is_subprocess (trace wm)
                = List.filter is_subprocess (trace w) ++ attempts
                ∧ (length attempts <= 2)%nat) as Htwo.
    { intros [x1 x2] Hx [= _ <-]. cbn in Hx. subst x2.
      exists [EvSubprocess cmd1 tmpdir; EvSubprocess cmd2 tmpdir].
      rewrite filter_log, Hone, <- app_assoc. split; [reflexivity|cbn; lia]. }
    apply Htwo.
    destruct (match subprocess_run env _ cmd2 tmpdir with
              | Ok _ => _ | Raise _ => _ end) as [u|e2]; [reflexivity|].
    destruct (is_RuntimeError e2); reflexivity. }
  destruct ru as [u|e]; [|intros [= _ <-]; eauto].
  rewrite bind_run. unfold call at 1. rewrite bind_run.
  set (wg := log (EvGlob _) wm).
  destruct (completed_files_ok env (glob_glob env (trace wm)
                                      (os_path_join env tmpdir (utf8 "*"))) wg)
    as (files & w4 & Hfiles & _ & Hgrow).
  rewrite Hfiles.
  assert (List.filter is_subprocess (trace w4)
          = List.filter is_subprocess (trace w) ++ attempts) as Hw4.
  { assert (List.filter is_subprocess (trace w4)
            = List.filter is_subprocess (trace wg)) as ->.
    { eapply filter_grows; [|exact Hgrow]. by intros ev [p ->]. }
    unfold wg. rewrite filter_log. cbn [is_subprocess].
    rewrite app_nil_r. exact Hwm. }
  destruct files; intros [= _ <-]; eauto.
Qed.

Lemma download_at_most_two_attempts_witness :
  ∃ attempts,
    List.filter is_subprocess
      (trace (snd (download_youtube_audio env_both_fail some_url initial_world)))
    = List.filter is_subprocess (trace initial_world) ++ attempts
    ∧ (length attempts <= 2)%nat.
Proof.
  apply (download_at_most_two_attempts env_both_fail some_url initial_world _
           (fst (download_youtube_audio env_both_fail some_url initial_world))).
  vm_compute. reflexivity.
Defined.

(** X20. A request calls inference at most once: there is no retry. *)
Theorem transcribe_infers_at_most_once (env : Env)
    (audio_file : option audio_input)
    (youtube_url model_name device compute_type language task : str)
    (beam_size : Z) (w w' : World) (r : result TranscriptionResult) :
  transcribe env audio_file youtube_url model_name device compute_type
    language task beam_size w = (r, w') →
  ∃ calls,
    List.filter is_inference (trace w')
    = List.filter is_inference (trace w) ++ calls
    ∧ (length calls <= 1)%nat.
Proof.
  assert (∀ ap w0,
            List.filter is_inference (trace w0)
            = List.filter is_inference (trace w) →
            transcribe_audio_path env ap model_name device compute_type
              language task beam_size w0 = (r, w') →
            ∃ calls,
              List.filter is_inference (trace w')
              = List.filter is_inference (trace w) ++ calls
              ∧ (length calls <= 1)%nat) as Hap.
  { intros ap w0 Hw0. rewrite transcribe_audio_path_run.
    pose proof (get_model_grows env model_name device compute_type w0) as Hget.
    destruct (get_model env model_name device compute_type w0)
      as [[model|e] w1]; specialize (Hget _ _ eq_refl).
    all: assert (List.filter is_inference (trace w1)
                 = List.filter is_inference (trace w)) as Hw1
      by (rewrite <- Hw0; eapply filter_grows; [|exact Hget];
          by intros ev ->).
    { cbv zeta.
      assert (∀ wx, List.filter is_inference (trace wx)
                    = List.filter is_inference (trace w1)
                      ++ [EvModelTranscribe model ap beam_size
                            (language_argument language) task] →
                    ∃ calls,
                      List.filter is_inference (trace wx)
                      = List.filter is_inference (trace w) ++ calls
                      ∧ (length calls <= 1)%nat) as Hone.
      { intros wx ->. rewrite Hw1. eexists. split; [reflexivity|cbn; lia]. }
      destruct (model_transcribe env _ _ _ _ _ _) as [segments|e];
        [|intros [= _ <-]; apply Hone; by rewrite filter_log].
      destruct (failure segments);
        [intros [= _ <-]; apply Hone; by rewrite filter_log|].
      destruct (build_srt _) as [srt_text|];
        [|intros [= _ <-]; apply Hone; by rewrite filter_log].
      destruct (tempfile_mkdtemp env _ _) as [out_dir|];
        [|intros [= _ <-]; apply Hone;
          by rewrite !filter_log, app_nil_r].
      stage_case Htxt;
        [|intros [= _ <-]; apply Hone;
          by rewrite !filter_log, !app_nil_r].
      stage_case Hsrt; intros [= _ <-]; apply Hone;
        by rewrite !filter_log, !app_nil_r. }
    intros [= _ <-]. exists []. rewrite app_nil_r. split; [exact Hw1|cbn; lia]. }
  rewrite transcribe_run. destruct audio_file as [file|]; [by apply Hap|].
  destruct (bool_decide _).
  { intros [= _ <-]. exists []. rewrite app_nil_r. split; [reflexivity|cbn; lia]. }
  pose proof (download_grows env (strip youtube_url) w) as Hdl.
  destruct (download_youtube_audio env (strip youtube_url) w)
    as [[path|e] w1]; specialize (Hdl _ _ eq_refl).
  all: assert (List.filter is_inference (trace w1)
               = List.filter is_inference (trace w)) as Hw1
    by (eapply filter_grows; [|exact Hdl]; by intros []).
  - by apply Hap.
  - intros [= _ <-]. exists []. rewrite app_nil_r. split; [exact Hw1|cbn; lia].
Qed.

Lemma transcribe_infers_at_most_once_witness :
  ∃ calls,
    List.filter is_inference
      (trace (snd (transcribe_file env_fine (utf8 "talk.wav") [] initial_world)))
    = List.filter is_inference (trace initial_world) ++ calls
    ∧ (length calls <= 1)%nat.
Proof.
  apply (transcribe_infers_at_most_once env_fine
           (Some (AudioPath (utf8 "talk.wav"))) [] (utf8 "small")
           (utf8 "cuda") (utf8 "float16") (utf8 "auto") (utf8 "transcribe")
           5%Z initial_world _
           (fst (transcribe_file env_fine (utf8 "talk.wav") [] initial_world))).
  vm_compute. reflexivity.
Defined.

